(** * Via stitcher: candidate generation and clearance validation

    A shallow embedding of [via_stitcher.py] (the KiCad via-stitching
    plugin) and the properties of its geometry primitives, candidate
    generators, per-candidate validator and stitching orchestrator.

    Python values are modelled as the interpreter has them: [int] is
    unbounded ([Z]), [float] is IEEE-754 binary64 ([spec_float] at
    precision 53), a value that may be either is a [num], and a
    computation that may raise is a [res].  [while] loops carry an
    explicit fuel; running out of it is the outcome [OutOfFuel], which is
    not a Python outcome and is kept apart from the exceptions.

    Left out, because no result depends on them: the log messages, the
    progress callback, and the dialog.  The iteration order of a Python
    [set] is not modelled either; the one set that is iterated
    ([used_layers]) only feeds another set. *)

From Stdlib Require Import ZArith List Bool String Lia.
From Stdlib Require Import Floats.SpecFloat.
From stdpp Require Import gmap strings list fin_maps.

Local Open Scope Z_scope.

(** ** Python outcomes *)

Inductive exn :=
| ZeroDivisionError
| OverflowError
| ValueError
| TypeError
| IndexError.

Inductive res (A : Type) :=
| Ok (a : A)
| Raise (e : exn)
| OutOfFuel.

Arguments Ok {A} a.
Arguments Raise {A} e.
Arguments OutOfFuel {A}.

#[global] Instance res_ret : MRet res := fun A a => Ok a.

#[global] Instance res_bind : MBind res := fun A B f m =>
  match m with
  | Ok a => f a
  | Raise e => Raise e
  | OutOfFuel => OutOfFuel
  end.

#[global] Instance res_fmap : FMap res := fun A B f m =>
  match m with
  | Ok a => Ok (f a)
  | Raise e => Raise e
  | OutOfFuel => OutOfFuel
  end.

(** ** Python numbers *)

(** [float]: binary64, always kept in the canonical form that the
    rounding functions of [SpecFloat] produce. *)
Definition float := spec_float.

Definition fadd : float -> float -> float := SFadd 53 1024.
Definition fsub : float -> float -> float := SFsub 53 1024.
Definition fmul : float -> float -> float := SFmul 53 1024.
Definition fdiv : float -> float -> float := SFdiv 53 1024.
Definition fsqrt : float -> float := SFsqrt 53 1024.

(** The float nearest to [m * 2^e] (ties to even). *)
Definition dyadic (m e : Z) : float := binary_normalize 53 1024 m e false.

Definition is_inf (f : float) : bool :=
  match f with S754_infinity _ => true | _ => false end.

Definition is_zero (f : float) : bool :=
  match f with S754_zero _ => true | _ => false end.

Definition float_inf : float := S754_infinity false.

(** [float(z)] for an [int]: correctly rounded, [OverflowError] when the
    integer is too large for a float. *)
Definition float_of_int (z : Z) : res float :=
  let f := dyadic z 0 in
  if is_inf f then Raise OverflowError else Ok f.

(** [a / b] on two [int]s: the correctly rounded quotient. *)
Definition int_true_divide (a b : Z) : res float :=
  if b =? 0 then Raise ZeroDivisionError
  else if a =? 0 then Ok (S754_zero (b <? 0))
  else
    let q := fdiv (S754_finite (a <? 0) (Z.to_pos (Z.abs a)) 0)
                  (S754_finite (b <? 0) (Z.to_pos (Z.abs b)) 0) in
    if is_inf q then Raise OverflowError else Ok q.

Inductive num :=
| Int (z : Z)
| Flt (f : float).

Definition to_float (n : num) : res float :=
  match n with
  | Int z => float_of_int z
  | Flt f => Ok f
  end.

Definition py_add (x y : num) : res num :=
  match x, y with
  | Int a, Int b => Ok (Int (a + b))
  | _, _ => a ← to_float x; b ← to_float y; Ok (Flt (fadd a b))
  end.

Definition py_sub (x y : num) : res num :=
  match x, y with
  | Int a, Int b => Ok (Int (a - b))
  | _, _ => a ← to_float x; b ← to_float y; Ok (Flt (fsub a b))
  end.

Definition py_mul (x y : num) : res num :=
  match x, y with
  | Int a, Int b => Ok (Int (a * b))
  | _, _ => a ← to_float x; b ← to_float y; Ok (Flt (fmul a b))
  end.

(** [x / y]: true division. *)
Definition py_truediv (x y : num) : res num :=
  match x, y with
  | Int a, Int b => Flt <$> int_true_divide a b
  | _, _ =>
      a ← to_float x; b ← to_float y;
      if is_zero b then Raise ZeroDivisionError else Ok (Flt (fdiv a b))
  end.

(** [a // b] on two [int]s: floor division. *)
Definition py_floordiv (a b : Z) : res Z :=
  if b =? 0 then Raise ZeroDivisionError else Ok (a / b).

(** Signed integer mantissa of a finite float. *)
Definition signed (s : bool) (m : positive) : Z :=
  if s then Z.neg m else Z.pos m.

(** Python compares an [int] with a [float] exactly, without rounding the
    integer. *)
Definition int_float_compare (a : Z) (f : float) : option comparison :=
  match f with
  | S754_nan => None
  | S754_infinity s => Some (if s then Gt else Lt)
  | S754_zero _ => Some (a ?= 0)
  | S754_finite s m e =>
      Some (if 0 <=? e then a ?= signed s m * 2 ^ e
            else a * 2 ^ (- e) ?= signed s m)
  end.

Definition num_compare (x y : num) : option comparison :=
  match x, y with
  | Int a, Int b => Some (a ?= b)
  | Flt a, Flt b => SFcompare a b
  | Int a, Flt b => int_float_compare a b
  | Flt a, Int b => CompOpp <$> int_float_compare b a
  end.

Definition py_lt (x y : num) : bool :=
  match num_compare x y with Some Lt => true | _ => false end.

Definition py_gt (x y : num) : bool :=
  match num_compare x y with Some Gt => true | _ => false end.

Definition py_le (x y : num) : bool :=
  match num_compare x y with Some Lt | Some Eq => true | _ => false end.

Definition py_ge (x y : num) : bool :=
  match num_compare x y with Some Gt | Some Eq => true | _ => false end.

Definition py_eq (x y : num) : bool :=
  match num_compare x y with Some Eq => true | _ => false end.

(** [max(a, b)] and [min(a, b)]: the first argument wins a tie. *)
Definition py_max (a b : num) : num := if py_gt b a then b else a.
Definition py_min (a b : num) : num := if py_lt b a then b else a.

(** [int(x)]: truncation toward zero. *)
Definition py_int (n : num) : res Z :=
  match n with
  | Int z => Ok z
  | Flt S754_nan => Raise ValueError
  | Flt (S754_infinity _) => Raise OverflowError
  | Flt (S754_zero _) => Ok 0
  | Flt (S754_finite s m e) =>
      let mag := if 0 <=? e then Z.pos m * 2 ^ e
                 else Z.shiftr (Z.pos m) (- e) in
      Ok (if s then - mag else mag)
  end.

(** [math.sqrt(x)]. *)
Definition math_sqrt (n : num) : res num :=
  f ← to_float n;
  match f with
  | S754_finite true _ _ | S754_infinity true => Raise ValueError
  | _ => Ok (Flt (fsqrt f))
  end.

(** [x % y] when one operand is a float: C [fmod], then the sign
    adjustment of the interpreter. *)
Definition c_fmod (x y : float) : float :=
  match x, y with
  | S754_nan, _ | _, S754_nan => S754_nan
  | S754_infinity _, _ => S754_nan
  | _, S754_zero _ => S754_nan
  | _, S754_infinity _ => x
  | S754_zero _, _ => x
  | S754_finite sx mx ex, S754_finite _ my ey =>
      let e := Z.min ex ey in
      let r := Z.rem (Z.pos mx * 2 ^ (ex - e)) (Z.pos my * 2 ^ (ey - e)) in
      binary_normalize 53 1024 (if sx then - r else r) e sx
  end.

Definition float_is_neg (f : float) : bool :=
  match SFcompare f (S754_zero false) with Some Lt => true | _ => false end.

Definition py_float_mod (x y : num) : res num :=
  a ← to_float x; b ← to_float y;
  if is_zero b then Raise ZeroDivisionError
  else
    let m := c_fmod a b in
    if is_zero m then Ok (Flt (S754_zero (float_is_neg b)))
    else if xorb (float_is_neg b) (float_is_neg m) then Ok (Flt (fadd m b))
    else Ok (Flt m).

(** ** Lengths in millimetres *)

(** Modelled from the spec: [from_mm] belongs to the host library and is
    not in the repository; the spec gives these lengths in millimetres
    and fixes the unit of every distance as the nanometre. *)
Definition from_mm_0_01 : Z := 10000.
Definition from_mm_0_127 : Z := 127000.
Definition from_mm_0_5 : Z := 500000.
Definition from_mm_1_0 : Z := 1000000.
Definition from_mm_1_5 : Z := 1500000.
Definition from_mm_2_5 : Z := 2500000.

(** The conversion itself, if the host computes it as the product by
    one million in binary64, truncated; the six constants above are its
    values on the literals of the source ([from_mm_literals] below). *)
Definition from_mm_binary64 (numerator denominator : Z) : res Z :=
  mm ← py_truediv (Int numerator) (Int denominator);
  nm ← py_mul mm (Int 1000000);
  py_int nm.

(** ** Geometry primitives *)

Definition point : Type := Z * Z.

(** The [for i in range(n)] loop of [point_in_polygon]; [pj] is
    [polygon_pts[j]], the point visited just before. *)
Fixpoint point_in_polygon_loop (x y : Z) (pts : list point) (pj : point)
    (inside : bool) : bool :=
  match pts with
  | [] => inside
  | pi :: rest =>
      let '(xi, yi) := pi in
      let '(xj, yj) := pj in
      let inside' :=
        if xorb (yi >? y) (yj >? y)
           && (x <? (xj - xi) * (y - yi) / (yj - yi) + xi)
        then negb inside else inside in
      point_in_polygon_loop x y rest pi inside'
  end.

Definition point_in_polygon (x y : Z) (polygon_pts : list point) : bool :=
  if (length polygon_pts <? 3)%nat then false
  else point_in_polygon_loop x y polygon_pts (List.last polygon_pts (0, 0)) false.

Definition point_to_segment_distance_sq (px py x1 y1 x2 y2 : Z) : res Z :=
  let dx := x2 - x1 in
  let dy := y2 - y1 in
  let length_sq := dx * dx + dy * dy in
  if length_sq =? 0 then Ok ((px - x1) ^ 2 + (py - y1) ^ 2)
  else
    t ← py_truediv (Int ((px - x1) * dx + (py - y1) * dy)) (Int length_sq);
    let t := py_max (Int 0) (py_min (Int 1) t) in
    tx ← py_mul t (Int dx);
    ix ← py_int tx;
    let closest_x := x1 + ix in
    ty ← py_mul t (Int dy);
    iy ← py_int ty;
    let closest_y := y1 + iy in
    Ok ((px - closest_x) ^ 2 + (py - closest_y) ^ 2).

(** The [for i in range(n)] loop of [distance_to_polygon_edge]. *)
Fixpoint distance_to_polygon_edge_loop (x y : Z) (polygon_pts : list point)
    (indices : list nat) (min_dist_sq : num) : res num :=
  match indices with
  | [] => Ok min_dist_sq
  | i :: rest =>
      let n := length polygon_pts in
      let '(x1, y1) := nth i polygon_pts (0, 0) in
      let '(x2, y2) := nth ((i + 1) mod n) polygon_pts (0, 0) in
      dist_sq ← point_to_segment_distance_sq x y x1 y1 x2 y2;
      distance_to_polygon_edge_loop x y polygon_pts rest
        (py_min min_dist_sq (Int dist_sq))
  end.

Definition distance_to_polygon_edge (x y : Z) (polygon_pts : list point)
    : res num :=
  match polygon_pts with
  | [] => Ok (Flt float_inf)
  | _ =>
      m ← distance_to_polygon_edge_loop x y polygon_pts
            (seq 0 (length polygon_pts)) (Flt float_inf);
      math_sqrt m
  end.

(** ** Board snapshot *)

(** The tuples of [BoardData], one record per kind of tuple. *)
Record TrackData := {
  td_start_x : Z; td_start_y : Z;
  td_end_x : Z; td_end_y : Z;
  td_width : Z;
  td_net : string;
  td_layer_name : string;
  td_is_arc : bool;
  td_mid_x : Z; td_mid_y : Z
}.

Record PadData := {
  pd_x : Z; pd_y : Z;
  pd_half_w : Z; pd_half_h : Z;
  pd_net : string
}.

Record ViaData := {
  vd_x : Z; vd_y : Z;
  vd_radius : Z;
  vd_net : string
}.

Record BoardData := {
  tracks : list TrackData;
  pads : list PadData;
  vias : list ViaData;
  zone_polygons : list (string * list point);
  board_outline : list point;
  copper_layers : gset string
}.

(** ** Clearance validator *)

(** [needle in hay] on strings. *)
Definition str_in (needle hay : string) : bool :=
  match String.index 0 needle hay with
  | Some _ => true
  | None => false
  end.

Definition is_nil {A} (l : list A) : bool :=
  match l with [] => true | _ => false end.

(** The pad loop of [check_position_parallel]: [true] when some pad
    rejects the candidate. *)
Fixpoint check_pads_loop (x y via_radius : Z) (target_nets : gset string)
    (clearance : Z) (pads : list PadData) : bool :=
  match pads with
  | [] => false
  | pad :: rest =>
      let dx_abs := Z.abs (x - pd_x pad) in
      let dy_abs := Z.abs (y - pd_y pad) in
      let max_check_dist :=
        via_radius + clearance + pd_half_w pad + pd_half_h pad in
      if (dx_abs >? max_check_dist) || (dy_abs >? max_check_dist)
      then check_pads_loop x y via_radius target_nets clearance rest
      else
        let is_mounting_hole :=
          (pd_half_w pad >? from_mm_2_5) || (pd_half_h pad >? from_mm_2_5) in
        let req_clearance :=
          if bool_decide (pd_net pad ∈ target_nets) && negb is_mounting_hole
          then clearance / 2 else clearance in
        if (dx_abs <? via_radius + pd_half_w pad + req_clearance)
           && (dy_abs <? via_radius + pd_half_h pad + req_clearance)
        then true
        else check_pads_loop x y via_radius target_nets clearance rest
  end.

(** The via loop: [true] when some existing via rejects the candidate. *)
Fixpoint check_vias_loop (x y via_radius : Z) (target_nets : gset string)
    (clearance same_net_clearance : Z) (vias : list ViaData) : bool :=
  match vias with
  | [] => false
  | via :: rest =>
      let max_check_dist := via_radius + clearance + from_mm_1_5 in
      let dx := x - vd_x via in
      let dy := y - vd_y via in
      if (Z.abs dx >? max_check_dist) || (Z.abs dy >? max_check_dist)
      then check_vias_loop x y via_radius target_nets clearance
             same_net_clearance rest
      else
        let min_dist :=
          via_radius + vd_radius via
          + (if bool_decide (vd_net via ∈ target_nets)
             then same_net_clearance else clearance) in
        if dx * dx + dy * dy <? min_dist * min_dist then true
        else check_vias_loop x y via_radius target_nets clearance
               same_net_clearance rest
  end.

(** The inner loop over the three points of an arc. *)
Fixpoint check_arc_points (x y min_dist : Z) (pts : list point) : bool :=
  match pts with
  | [] => false
  | (px, py) :: rest =>
      let dx := x - px in
      let dy := y - py in
      if dx * dx + dy * dy <? min_dist * min_dist then true
      else check_arc_points x y min_dist rest
  end.

(** The track loop: the reason of the first rejection, if any. *)
Fixpoint check_tracks_loop (x y via_radius : Z) (target_nets : gset string)
    (clearance same_net_clearance : Z) (copper_layers : gset string)
    (tracks : list TrackData) : res (option string) :=
  match tracks with
  | [] => Ok None
  | t :: rest =>
      let continue :=
        check_tracks_loop x y via_radius target_nets clearance
          same_net_clearance copper_layers rest in
      let max_check_dist := via_radius + clearance + from_mm_1_0 in
      if negb (bool_decide (td_layer_name t ∈ copper_layers))
         && negb (str_in "UNKNOWN" (td_layer_name t))
      then continue
      else
        let '(min_tx, max_tx, min_ty, max_ty) :=
          if td_is_arc t then
            (Z.min (Z.min (td_start_x t) (td_mid_x t)) (td_end_x t),
             Z.max (Z.max (td_start_x t) (td_mid_x t)) (td_end_x t),
             Z.min (Z.min (td_start_y t) (td_mid_y t)) (td_end_y t),
             Z.max (Z.max (td_start_y t) (td_mid_y t)) (td_end_y t))
          else
            (Z.min (td_start_x t) (td_end_x t),
             Z.max (td_start_x t) (td_end_x t),
             Z.min (td_start_y t) (td_end_y t),
             Z.max (td_start_y t) (td_end_y t)) in
        if (x <? min_tx - max_check_dist) || (x >? max_tx + max_check_dist)
        then continue
        else if (y <? min_ty - max_check_dist) || (y >? max_ty + max_check_dist)
        then continue
        else
          let track_width_half := td_width t / 2 in
          let req_clearance :=
            if bool_decide (td_net t ∈ target_nets)
            then same_net_clearance else clearance in
          let min_dist := via_radius + track_width_half + req_clearance in
          if td_is_arc t then
            if check_arc_points x y min_dist
                 [(td_start_x t, td_start_y t); (td_mid_x t, td_mid_y t);
                  (td_end_x t, td_end_y t)]
            then Ok (Some "arc")
            else continue
          else
            dist_sq ← point_to_segment_distance_sq x y
                        (td_start_x t) (td_start_y t) (td_end_x t) (td_end_y t);
            if dist_sq <? min_dist * min_dist then Ok (Some "track")
            else continue
  end.

(** The rule-area loop: [true] when the candidate touches a rule area. *)
Fixpoint check_rule_areas_loop (x y via_radius : Z)
    (zone_polygons : list (string * list point)) : res bool :=
  match zone_polygons with
  | [] => Ok false
  | (zone_net, zone_poly) :: rest =>
      if negb (String.eqb zone_net "") then
        check_rule_areas_loop x y via_radius rest
      else if is_nil zone_poly || (length zone_poly <? 3)%nat then
        check_rule_areas_loop x y via_radius rest
      else if point_in_polygon x y zone_poly then Ok true
      else
        dist_to_edge ← distance_to_polygon_edge x y zone_poly;
        if py_lt dist_to_edge (Int via_radius) then Ok true
        else check_rule_areas_loop x y via_radius rest
  end.

Definition verdict : Type := Z * Z * bool * string.

Definition rejected_at (x y : Z) (reason : string) : verdict :=
  (x, y, false, reason).

Definition accepted_at (x y : Z) : verdict := (x, y, true, ""%string).

(** The checks of [check_position_parallel] after the two board-outline
    checks, in the order of the source. *)
Definition check_after_board (x y via_radius : Z) (target_nets : gset string)
    (clearance same_net_clearance boundary_clearance : Z)
    (board_data : BoardData) (is_fence_mode : bool)
    (polygon_pts : option (list point)) : res verdict :=
  zone_edge ←
    (if negb is_fence_mode && negb (is_nil (default [] polygon_pts)) then
       d ← distance_to_polygon_edge x y (default [] polygon_pts);
       Ok (py_lt d (Int (boundary_clearance + via_radius)))
     else Ok false);
  if zone_edge : bool then Ok (rejected_at x y "zone_edge")
  else if check_pads_loop x y via_radius target_nets clearance
            (pads board_data)
  then Ok (rejected_at x y "pad")
  else if check_vias_loop x y via_radius target_nets clearance
            same_net_clearance (vias board_data)
  then Ok (rejected_at x y "via")
  else
    track ← check_tracks_loop x y via_radius target_nets clearance
              same_net_clearance (copper_layers board_data)
              (tracks board_data);
    match track with
    | Some reason => Ok (rejected_at x y reason)
    | None =>
        rule ← check_rule_areas_loop x y via_radius (zone_polygons board_data);
        if rule : bool then Ok (rejected_at x y "rule_area")
        else Ok (accepted_at x y)
    end.

Definition check_position_parallel (x y via_radius : Z)
    (target_nets : gset string)
    (clearance same_net_clearance boundary_clearance : Z)
    (board_data : BoardData) (is_fence_mode : bool)
    (polygon_pts : option (list point)) : res verdict :=
  let outline := board_outline board_data in
  if negb (is_nil outline) && negb (point_in_polygon x y outline)
  then Ok (rejected_at x y "outside_board")
  else
    board_edge ←
      (if negb (is_nil outline) then
         edge_dist ← distance_to_polygon_edge x y outline;
         let min_edge_dist := boundary_clearance + via_radius in
         Ok (py_lt edge_dist (Int min_edge_dist))
       else Ok false);
    if board_edge : bool then Ok (rejected_at x y "board_edge")
    else check_after_board x y via_radius target_nets clearance
           same_net_clearance boundary_clearance board_data is_fence_mode
           polygon_pts.

(** The sequential loop of [check_positions_batch]. *)
Fixpoint check_positions_loop (positions : list point) (via_radius : Z)
    (target_nets : gset string)
    (clearance same_net_clearance boundary_clearance : Z)
    (board_data : BoardData) (is_fence_mode : bool)
    (polygon_pts : option (list point)) : res (list verdict) :=
  match positions with
  | [] => Ok []
  | (x, y) :: rest =>
      result ← check_position_parallel x y via_radius target_nets clearance
                 same_net_clearance boundary_clearance board_data
                 is_fence_mode polygon_pts;
      results ← check_positions_loop rest via_radius target_nets clearance
                  same_net_clearance boundary_clearance board_data
                  is_fence_mode polygon_pts;
      Ok (result :: results)
  end.

Definition check_positions_batch (positions : list point) (via_radius : Z)
    (target_nets : gset string)
    (clearance same_net_clearance boundary_clearance : Z)
    (board_data : BoardData) (is_fence_mode : bool)
    (polygon_pts : option (list point)) : res (list verdict) :=
  check_positions_loop positions via_radius target_nets clearance
    same_net_clearance boundary_clearance board_data is_fence_mode
    polygon_pts.

(** ** Configuration *)

Inductive StitchMode := FILL | FENCE_ZONE | FENCE_TRACE.

Inductive ViaType := VT_THROUGH | VT_BLIND_BURIED | VT_MICRO.

(** A board layer is the integer of the host's layer enumeration. *)
Definition BoardLayer : Type := Z.

Record StitchingConfig := {
  net_names : list string;
  via_diameter_nm : Z;
  via_drill_nm : Z;
  grid_spacing_nm : Z;
  stagger_rows : bool;
  clearance_nm : Z;
  boundary_clearance_nm : Z;
  random_offset : bool;
  random_offset_max_nm : Z;
  mode : StitchMode;
  fence_spacing_nm : Z;
  fence_offset_nm : Z;
  fence_both_sides : bool;
  selected_only : bool;
  via_type : ViaType;
  start_layer : option BoardLayer;
  end_layer : option BoardLayer;
  board_corner_radius_nm : Z
}.

(** ** Random numbers *)

(** The generator is a tape of raw draws and a cursor on it:
    [random.randint(a, b)] reads one draw and maps it into [a..b]. *)
Definition randint (tape : nat -> Z) (cursor : nat) (a b : Z)
    : res (Z * nat) :=
  if a >? b then Raise ValueError
  else Ok (a + tape cursor mod (b - a + 1), S cursor).

(** ** Grid generator *)

(** The inner [while x <= max_x] loop. *)
Fixpoint grid_columns_loop (fuel : nat) (config : StitchingConfig)
    (tape : nat -> Z) (max_x spacing y x : Z) (cursor : nat)
    (positions : list point) : res (list point * nat) :=
  if x <=? max_x then
    match fuel with
    | O => OutOfFuel
    | S fuel' =>
        '(final, cursor') ←
          (if random_offset config then
             let max_offset := random_offset_max_nm config in
             '(ox, c1) ← randint tape cursor (- max_offset) max_offset;
             '(oy, c2) ← randint tape c1 (- max_offset) max_offset;
             Ok ((x + ox, y + oy), c2)
           else Ok ((x, y), cursor));
        grid_columns_loop fuel' config tape max_x spacing y (x + spacing)
          cursor' (positions ++ [final])
    end
  else Ok (positions, cursor).

(** The outer [while y <= max_y] loop; [fuel0] is the fuel of each inner
    loop. *)
Fixpoint grid_rows_loop (fuel fuel0 : nat) (config : StitchingConfig)
    (tape : nat -> Z) (max_x max_y spacing start_x y row : Z) (cursor : nat)
    (positions : list point) : res (list point * nat) :=
  if y <=? max_y then
    match fuel with
    | O => OutOfFuel
    | S fuel' =>
        let row_offset :=
          if stagger_rows config && (row mod 2 =? 1) then spacing / 2
          else 0 in
        let x := start_x + row_offset in
        '(positions', cursor') ←
          grid_columns_loop fuel0 config tape max_x spacing y x cursor
            positions;
        grid_rows_loop fuel' fuel0 config tape max_x max_y spacing start_x
          (y + spacing) (row + 1) cursor' positions'
    end
  else Ok (positions, cursor).

Definition generate_grid_positions (fuel : nat) (tape : nat -> Z)
    (cursor : nat) (min_x min_y max_x max_y : Z) (config : StitchingConfig)
    : res (list point * nat) :=
  let spacing := grid_spacing_nm config in
  qx ← py_floordiv (min_x + spacing - 1) spacing;
  let start_x := qx * spacing in
  qy ← py_floordiv (min_y + spacing - 1) spacing;
  let start_y := qy * spacing in
  grid_rows_loop fuel fuel config tape max_x max_y spacing start_x start_y 0
    cursor [].

(** ** Perimeter-fence generator *)

Definition float_half : float := Eval vm_compute in dyadic 1 (-1).

(** The [for j in range(num_vias)] loop. *)
Fixpoint fence_edge_loop (x1 y1 dx dy num_vias : Z) (js : list nat)
    (positions : list point) : res (list point) :=
  match js with
  | [] => Ok positions
  | j :: rest =>
      j_half ← py_add (Int (Z.of_nat j)) (Flt float_half);
      t ← py_truediv j_half (Int num_vias);
      tdx ← py_mul t (Int dx);
      fx ← py_add (Int x1) tdx;
      px ← py_int fx;
      tdy ← py_mul t (Int dy);
      fy ← py_add (Int y1) tdy;
      py ← py_int fy;
      fence_edge_loop x1 y1 dx dy num_vias rest (positions ++ [(px, py)])
  end.

(** The [for i in range(n)] loop over the polygon's edges. *)
Fixpoint fence_polygon_loop (polygon_pts : list point) (spacing_nm : Z)
    (indices : list nat) (positions : list point) : res (list point) :=
  match indices with
  | [] => Ok positions
  | i :: rest =>
      let n := length polygon_pts in
      let '(x1, y1) := nth i polygon_pts (0, 0) in
      let '(x2, y2) := nth ((i + 1) mod n) polygon_pts (0, 0) in
      let dx := x2 - x1 in
      let dy := y2 - y1 in
      len ← math_sqrt (Int (dx * dx + dy * dy));
      if py_lt len (Int spacing_nm) then
        fence_polygon_loop polygon_pts spacing_nm rest
          (positions ++ [((x1 + x2) / 2, (y1 + y2) / 2)])
      else
        q ← py_truediv len (Int spacing_nm);
        num_vias ← py_int q;
        positions' ← fence_edge_loop x1 y1 dx dy num_vias
                       (seq 0 (Z.to_nat num_vias)) positions;
        fence_polygon_loop polygon_pts spacing_nm rest positions'
  end.

Definition generate_fence_positions (polygon_pts : list point)
    (spacing_nm : Z) : res (list point) :=
  if (length polygon_pts <? 2)%nat then Ok []
  else fence_polygon_loop polygon_pts spacing_nm
         (seq 0 (length polygon_pts)) [].

(** ** Host library *)

(** What the plugin takes from outside the repository and this
    development leaves open: [math.cos], [math.sin] and [math.atan2] of
    the platform's C library, the layer constants of the host's layer
    enumeration, and the text that [layer.name] (or [str(layer)] when the
    layer has no name) yields.  Nothing is assumed about them. *)
Class Host := {
  libm_cos : float -> res float;
  libm_sin : float -> res float;
  libm_atan2 : float -> float -> res float;
  BL_F_Cu : BoardLayer;
  BL_B_Cu : BoardLayer;
  BL_Edge_Cuts : BoardLayer;
  layer_label : BoardLayer -> string
}.

(** [math.pi]. *)
Definition math_pi : float := S754_finite false 7074237752028440 (-51).

Record Net := { net_name : string }.

(** A [Track] or [ArcTrack] of the host library, with what the plugin
    reads from it.  The four [arc_] fields are the values of the methods
    [center()], [radius()], [start_angle()] and [angle()] of an arc. *)
Record Track := {
  is_arc : bool;
  tr_start : point;
  tr_end : point;
  tr_mid : point;
  tr_width : Z;
  tr_net : option Net;
  tr_layer : BoardLayer;
  arc_center : option point;
  arc_radius : float;
  arc_start_angle : option float;
  arc_angle : option float
}.

(** A zone: its net, the outlines of each of its filled polygons, and
    the points of its own outline. *)
Record Zone := {
  zone_net : option Net;
  zone_filled_polygons : list (list (list point));
  zone_outline : list point
}.

(** A pad: its position, the size of its copper on each copper layer of
    its padstack, and its net. *)
Record Pad := {
  pad_position : point;
  pad_copper_layers : list (Z * Z);
  pad_net : option Net
}.

Record Via := {
  via_position : point;
  via_net : option Net;
  via_kind : ViaType;
  via_diameter : Z;
  via_drill_diameter : Z;
  via_start_layer : option BoardLayer;
  via_end_layer : option BoardLayer
}.

Inductive Shape :=
| BoardRectangle (layer : BoardLayer) (top_left bottom_right : point)
| BoardSegment (layer : BoardLayer) (start_pt end_pt : point)
| BoardArc (layer : BoardLayer) (start_pt end_pt : point)
| BoardCircle (layer : BoardLayer) (center radius_point : point)
| BoardOther (layer : BoardLayer).

(** The live board, as the queries of the host answer. *)
Record Board := {
  get_nets : list Net;
  get_zones : list Zone;
  get_tracks : list Track;
  get_pads : list Pad;
  get_vias : list Via;
  get_shapes : list Shape
}.

(** [v or d] for an optional float [v]: [None] and zero are falsy. *)
Definition float_or (v : option float) (d : num) : num :=
  match v with
  | Some f => if is_zero f then d else Flt f
  | None => d
  end.

Definition enumerate {A} (l : list A) : list (nat * A) :=
  combine (seq 0 (length l)) l.

Section Stitcher.
Context `{Host}.

Definition math_cos (x : num) : res num :=
  f ← to_float x; Flt <$> libm_cos f.

Definition math_sin (x : num) : res num :=
  f ← to_float x; Flt <$> libm_sin f.

Definition math_atan2 (y x : num) : res num :=
  fy ← to_float y; fx ← to_float x; Flt <$> libm_atan2 fy fx.

(** [while a < 0: a += 2 * math.pi]. *)
Fixpoint norm_angle_up (fuel : nat) (a : num) : res num :=
  if py_lt a (Int 0) then
    match fuel with
    | O => OutOfFuel
    | S fuel' =>
        two_pi ← py_mul (Int 2) (Flt math_pi);
        a' ← py_add a two_pi;
        norm_angle_up fuel' a'
    end
  else Ok a.

(** [while a >= 2 * math.pi: a -= 2 * math.pi]. *)
Fixpoint norm_angle_down (fuel : nat) (a : num) : res num :=
  two_pi ← py_mul (Int 2) (Flt math_pi);
  if py_ge a two_pi then
    match fuel with
    | O => OutOfFuel
    | S fuel' =>
        two_pi' ← py_mul (Int 2) (Flt math_pi);
        a' ← py_sub a two_pi';
        norm_angle_down fuel' a'
    end
  else Ok a.

Definition norm_angle (fuel : nat) (a : num) : res num :=
  a' ← norm_angle_up fuel a;
  norm_angle_down fuel a'.

(** The sampling loop [for i in range(num_samples + 1)]. *)
Fixpoint arc_samples_loop (center : point) (radius start_angle arc_angle : num)
    (direction num_samples : Z) (indices : list nat) (arc_pts : list point)
    : res (list point) :=
  match indices with
  | [] => Ok arc_pts
  | i :: rest =>
      ai ← py_mul arc_angle (Int (Z.of_nat i));
      q ← py_truediv ai (Int num_samples);
      qd ← py_mul q (Int direction);
      angle ← py_add start_angle qd;
      c ← math_cos angle;
      rc ← py_mul radius c;
      fx ← py_add (Int (fst center)) rc;
      px ← py_int fx;
      s ← math_sin angle;
      rs ← py_mul radius s;
      fy ← py_add (Int (snd center)) rs;
      py ← py_int fy;
      arc_samples_loop center radius start_angle arc_angle direction
        num_samples rest (arc_pts ++ [(px, py)])
  end.

(** The point list that one track contributes to [segments]. *)
Definition track_segment (fuel : nat) (track : Track) : res (list point) :=
  let straight := Ok [tr_start track; tr_end track] in
  if is_arc track then
    match arc_center track with
    | Some center =>
        if py_gt (Flt (arc_radius track)) (Int 0) then
          let radius := Flt (arc_radius track) in
          let start_angle := float_or (arc_start_angle track) (Int 0) in
          let arc_angle := float_or (arc_angle track) (Flt math_pi) in
          let mid_vec_x := fst (tr_mid track) - fst center in
          let mid_vec_y := snd (tr_mid track) - snd center in
          mid_angle ← math_atan2 (Int mid_vec_y) (Int mid_vec_x);
          nm ← norm_angle fuel mid_angle;
          ns ← norm_angle fuel start_angle;
          diff ← py_sub nm ns;
          diff ←
            (if py_gt diff (Flt math_pi) then
               two_pi ← py_mul (Int 2) (Flt math_pi); py_sub diff two_pi
             else if py_lt diff (Flt (SFopp math_pi)) then
               two_pi ← py_mul (Int 2) (Flt math_pi); py_add diff two_pi
             else Ok diff);
          let direction := if py_gt diff (Int 0) then 1 else -1 in
          ra ← py_mul radius arc_angle;
          q ← py_truediv ra (Int from_mm_0_5);
          k ← py_int q;
          let num_samples := Z.max 8 k in
          arc_samples_loop center radius start_angle arc_angle direction
            num_samples (seq 0 (Z.to_nat (num_samples + 1))) []
        else straight
    | None => straight
    end
  else straight.

(** The loop that builds [segments] from the tracks. *)
Fixpoint track_segments (fuel : nat) (tracks : list Track)
    : res (list (list point)) :=
  match tracks with
  | [] => Ok []
  | track :: rest =>
      seg ← track_segment fuel track;
      segs ← track_segments fuel rest;
      Ok (seg :: segs)
  end.

Definition points_close (p1 p2 : point) : bool :=
  (Z.abs (fst p1 - fst p2) <? from_mm_0_01)
  && (Z.abs (snd p1 - snd p2) <? from_mm_0_01).

(** [l[0]] and [l[-1]]. *)
Definition first_pt (l : list point) : res point :=
  match l with
  | [] => Raise IndexError
  | p :: _ => Ok p
  end.

Definition last_pt (l : list point) : res point :=
  match last l with
  | None => Raise IndexError
  | Some p => Ok p
  end.

Definition used_at (used : list bool) (j : nat) : res bool :=
  match used !! j with
  | None => Raise IndexError
  | Some b => Ok b
  end.

(** One pass of [for j, other_seg in enumerate(segments)] inside the
    [while changed] loop. *)
Fixpoint chain_sweep (items : list (nat * list point)) (path : list point)
    (used : list bool) (changed : bool)
    : res (list point * list bool * bool) :=
  match items with
  | [] => Ok (path, used, changed)
  | (j, other_seg) :: rest =>
      u ← used_at used j;
      if u : bool then chain_sweep rest path used changed
      else
        o_last ← last_pt other_seg;
        p_first ← first_pt path;
        if points_close o_last p_first then
          chain_sweep rest (removelast other_seg ++ path)
            (<[j:=true]> used) true
        else
          o_first ← first_pt other_seg;
          if points_close o_first p_first then
            chain_sweep rest (rev (tail other_seg) ++ path)
              (<[j:=true]> used) true
          else
            p_last ← last_pt path;
            if points_close o_first p_last then
              chain_sweep rest (path ++ tail other_seg)
                (<[j:=true]> used) true
            else if points_close o_last p_last then
              chain_sweep rest (path ++ rev (removelast other_seg))
                (<[j:=true]> used) true
            else chain_sweep rest path used changed
  end.

(** [while changed: ...]. *)
Fixpoint chain_extend (fuel : nat) (segments : list (list point))
    (path : list point) (used : list bool)
    : res (list point * list bool) :=
  match fuel with
  | O => OutOfFuel
  | S fuel' =>
      '(path', used', changed) ←
        chain_sweep (enumerate segments) path used false;
      if changed : bool then chain_extend fuel' segments path' used'
      else Ok (path', used')
  end.

(** [for i, seg in enumerate(segments)]. *)
Fixpoint chain_outer (fuel : nat) (segments : list (list point))
    (items : list (nat * list point)) (used : list bool)
    (paths : list (list point)) : res (list (list point)) :=
  match items with
  | [] => Ok paths
  | (i, seg) :: rest =>
      u ← used_at used i;
      if u : bool then chain_outer fuel segments rest used paths
      else
        '(path, used') ←
          chain_extend fuel segments seg (<[i:=true]> used);
        chain_outer fuel segments rest used' (paths ++ [path])
  end.

(** The chaining half of [chain_tracks_into_paths], on the segment
    point lists. *)
Definition chain_segments (fuel : nat) (segments : list (list point))
    : res (list (list point)) :=
  chain_outer fuel segments (enumerate segments)
    (replicate (length segments) false) [].

Definition chain_tracks_into_paths (fuel : nat) (tracks : list Track)
    : res (list (list point)) :=
  if is_nil tracks then Ok []
  else
    segments ← track_segments fuel tracks;
    chain_segments fuel segments.

(** ** Path-offset fence generator *)

Definition py_neg (x : num) : num :=
  match x with
  | Int z => Int (- z)
  | Flt f => Flt (SFopp f)
  end.

Definition pt_at (path : list point) (i : nat) : point := nth i path (0, 0).

(** The direction [(dx, dy)] that [generate_offset_path] computes at
    vertex [i]. *)
Definition offset_direction (path : list point) (i : nat) : res (num * num) :=
  let '(x, y) := pt_at path i in
  if (i =? 0)%nat then
    Ok (Int (fst (pt_at path (i + 1)) - x), Int (snd (pt_at path (i + 1)) - y))
  else if (i =? length path - 1)%nat then
    Ok (Int (x - fst (pt_at path (i - 1))), Int (y - snd (pt_at path (i - 1))))
  else
    let dx1 := x - fst (pt_at path (i - 1)) in
    let dy1 := y - snd (pt_at path (i - 1)) in
    let dx2 := fst (pt_at path (i + 1)) - x in
    let dy2 := snd (pt_at path (i + 1)) - y in
    len1 ← math_sqrt (Int (dx1 * dx1 + dy1 * dy1));
    len2 ← math_sqrt (Int (dx2 * dx2 + dy2 * dy2));
    if py_gt len1 (Int 0) && py_gt len2 (Int 0) then
      a1 ← py_truediv (Int dx1) len1;
      a2 ← py_truediv (Int dx2) len2;
      dx ← py_add a1 a2;
      b1 ← py_truediv (Int dy1) len1;
      b2 ← py_truediv (Int dy2) len2;
      dy ← py_add b1 b2;
      Ok (dx, dy)
    else if py_gt len1 (Int 0) then Ok (Int dx1, Int dy1)
    else Ok (Int dx2, Int dy2).

(** One iteration of the loop of [generate_offset_path]: the offset point
    of vertex [i], or [None] when the iteration ends in [continue]. *)
Definition offset_vertex (path : list point) (offset side : Z) (i : nat)
    : res (option point) :=
  let '(x, y) := pt_at path i in
  '(dx, dy) ← offset_direction path i;
  dx2 ← py_mul dx dx;
  dy2 ← py_mul dy dy;
  sq ← py_add dx2 dy2;
  len ← math_sqrt sq;
  if py_eq len (Int 0) then Ok None
  else
    ndy ← py_truediv (py_neg dy) len;
    px ← py_mul ndy (Int side);
    ndx ← py_truediv dx len;
    py ← py_mul ndx (Int side);
    opx ← py_mul (Int offset) px;
    fx ← py_add (Int x) opx;
    ox ← py_int fx;
    opy ← py_mul (Int offset) py;
    fy ← py_add (Int y) opy;
    oy ← py_int fy;
    Ok (Some (ox, oy)).

(** [for i in range(len(path))]. *)
Fixpoint offset_path_loop (path : list point) (offset side : Z)
    (indices : list nat) (offset_pts : list point) : res (list point) :=
  match indices with
  | [] => Ok offset_pts
  | i :: rest =>
      v ← offset_vertex path offset side i;
      match v with
      | None => offset_path_loop path offset side rest offset_pts
      | Some p => offset_path_loop path offset side rest (offset_pts ++ [p])
      end
  end.

Definition generate_offset_path (path : list point) (offset side : Z)
    : res (list point) :=
  if (length path <? 2)%nat then Ok []
  else offset_path_loop path offset side (seq 0 (length path)) [].

(** The [while pos <= seg_len] loop of [sample_path_at_intervals]. *)
Fixpoint sample_segment_loop (fuel : nat) (x1 y1 dx dy spacing : Z)
    (seg_len pos : num) (samples : list point) : res (list point) :=
  if py_le pos seg_len then
    match fuel with
    | O => OutOfFuel
    | S fuel' =>
        t ← py_truediv pos seg_len;
        tdx ← py_mul t (Int dx);
        fx ← py_add (Int x1) tdx;
        sx ← py_int fx;
        tdy ← py_mul t (Int dy);
        fy ← py_add (Int y1) tdy;
        sy ← py_int fy;
        pos' ← py_add pos (Int spacing);
        sample_segment_loop fuel' x1 y1 dx dy spacing seg_len pos'
          (samples ++ [(sx, sy)])
    end
  else Ok samples.

(** [for i in range(1, len(path))]. *)
Fixpoint sample_path_loop (fuel : nat) (path : list point) (spacing : Z)
    (indices : list nat) (accumulated_dist : num) (samples : list point)
    : res (list point) :=
  match indices with
  | [] => Ok samples
  | i :: rest =>
      let '(x1, y1) := pt_at path (i - 1) in
      let '(x2, y2) := pt_at path i in
      let dx := x2 - x1 in
      let dy := y2 - y1 in
      seg_len ← math_sqrt (Int (dx * dx + dy * dy));
      if py_eq seg_len (Int 0) then
        sample_path_loop fuel path spacing rest accumulated_dist samples
      else
        remaining ← py_sub (Int spacing) accumulated_dist;
        samples' ← sample_segment_loop fuel x1 y1 dx dy spacing seg_len
                     remaining samples;
        total ← py_add accumulated_dist seg_len;
        accumulated_dist' ← py_float_mod total (Int spacing);
        sample_path_loop fuel path spacing rest accumulated_dist' samples'
  end.

Definition point_eqb (p q : point) : bool :=
  (fst p =? fst q) && (snd p =? snd q).

Definition sample_path_at_intervals (fuel : nat) (path : list point)
    (spacing : Z) : res (list point) :=
  if (length path <? 2)%nat then Ok path
  else
    samples ← sample_path_loop fuel path spacing
                (seq 1 (length path - 1)) (Int 0) [pt_at path 0];
    s_last ← last_pt samples;
    p_last ← last_pt path;
    if negb (point_eqb s_last p_last) then Ok (samples ++ [p_last])
    else Ok samples.

(** [for side in sides] inside [generate_path_fence_positions]. *)
Fixpoint fence_sides_loop (fuel : nat) (path : list point)
    (spacing_nm offset_nm : Z) (sides : list Z) (positions : list point)
    : res (list point) :=
  match sides with
  | [] => Ok positions
  | side :: rest =>
      offset_path ← generate_offset_path path offset_nm side;
      if (length offset_path <? 2)%nat then
        fence_sides_loop fuel path spacing_nm offset_nm rest positions
      else
        sampled ← sample_path_at_intervals fuel offset_path spacing_nm;
        fence_sides_loop fuel path spacing_nm offset_nm rest
          (positions ++ sampled)
  end.

(** [for path in paths]. *)
Fixpoint fence_paths_loop (fuel : nat) (paths : list (list point))
    (spacing_nm offset_nm : Z) (sides : list Z) (positions : list point)
    : res (list point) :=
  match paths with
  | [] => Ok positions
  | path :: rest =>
      if (length path <? 2)%nat then
        fence_paths_loop fuel rest spacing_nm offset_nm sides positions
      else
        positions' ← fence_sides_loop fuel path spacing_nm offset_nm sides
                       positions;
        fence_paths_loop fuel rest spacing_nm offset_nm sides positions'
  end.

Definition generate_path_fence_positions (fuel : nat) (tracks : list Track)
    (spacing_nm offset_nm : Z) (both_sides : bool) : res (list point) :=
  paths ← chain_tracks_into_paths fuel tracks;
  let sides := if both_sides then [1; -1] else [1] in
  fence_paths_loop fuel paths spacing_nm offset_nm sides [].

(** ** Snapshot extraction *)

Definition get_zone_polygon_pts (zone : Zone) : list point :=
  zone_outline zone.

Definition get_zone_filled_polygons (zone : Zone) : list (list point) :=
  let polygons :=
    filter (fun pts => negb (is_nil pts)) (concat (zone_filled_polygons zone)) in
  if is_nil polygons then
    let outline_pts := get_zone_polygon_pts zone in
    if is_nil outline_pts then [] else [outline_pts]
  else polygons.

(** The start angle of the [k]-th rounded corner of a rectangle. *)
Definition corner_base (k : nat) : res num :=
  match k with
  | 0%nat => py_truediv (Flt (SFopp math_pi)) (Int 2)
  | 1%nat => Ok (Int 0)
  | 2%nat => py_truediv (Flt math_pi) (Int 2)
  | _ => Ok (Flt math_pi)
  end.

(** [for i in range(8)] of one rounded corner with centre [(cx, cy)]. *)
Fixpoint corner_arc_loop (k : nat) (cx cy r : Z) (indices : list nat)
    (outline_pts : list point) : res (list point) :=
  match indices with
  | [] => Ok outline_pts
  | i :: rest =>
      base ← corner_base k;
      quarter ← py_truediv (Flt math_pi) (Int 2);
      qi ← py_mul quarter (Int (Z.of_nat i));
      step ← py_truediv qi (Int 8);
      angle ← py_add base step;
      c ← math_cos angle;
      rc ← py_mul (Int r) c;
      fx ← py_add (Int cx) rc;
      px ← py_int fx;
      s ← math_sin angle;
      rs ← py_mul (Int r) s;
      fy ← py_add (Int cy) rs;
      py ← py_int fy;
      corner_arc_loop k cx cy r rest (outline_pts ++ [(px, py)])
  end.

(** [for i in range(32)] of a circle. *)
Fixpoint circle_loop (cx cy : Z) (r : num) (indices : list nat)
    (outline_pts : list point) : res (list point) :=
  match indices with
  | [] => Ok outline_pts
  | i :: rest =>
      two_pi ← py_mul (Int 2) (Flt math_pi);
      ti ← py_mul two_pi (Int (Z.of_nat i));
      angle ← py_truediv ti (Int 32);
      c ← math_cos angle;
      rc ← py_mul r c;
      ix ← py_int rc;
      s ← math_sin angle;
      rs ← py_mul r s;
      iy ← py_int rs;
      circle_loop cx cy r rest (outline_pts ++ [(cx + ix, cy + iy)])
  end.

(** [for shape in shapes] of [get_board_outline]. *)
Fixpoint board_outline_loop (corner_radius : Z) (shapes : list Shape)
    (outline_pts : list point) : res (list point) :=
  match shapes with
  | [] => Ok outline_pts
  | shape :: rest =>
      match shape with
      | BoardRectangle layer tl br =>
          if negb (layer =? BL_Edge_Cuts) then
            board_outline_loop corner_radius rest outline_pts
          else if corner_radius >? 0 then
            let r := corner_radius in
            let '(x1, y1) := tl in
            let '(x2, y2) := br in
            let p0 := outline_pts ++ [(x1 + r, y1); (x2 - r, y1)] in
            p1 ← corner_arc_loop 0 (x2 - r) (y1 + r) r (seq 0 8) p0;
            let p2 := p1 ++ [(x2, y1 + r); (x2, y2 - r)] in
            p3 ← corner_arc_loop 1 (x2 - r) (y2 - r) r (seq 0 8) p2;
            let p4 := p3 ++ [(x2 - r, y2); (x1 + r, y2)] in
            p5 ← corner_arc_loop 2 (x1 + r) (y2 - r) r (seq 0 8) p4;
            let p6 := p5 ++ [(x1, y2 - r); (x1, y1 + r)] in
            p7 ← corner_arc_loop 3 (x1 + r) (y1 + r) r (seq 0 8) p6;
            board_outline_loop corner_radius rest p7
          else
            board_outline_loop corner_radius rest
              (outline_pts
               ++ [(fst tl, snd tl); (fst br, snd tl); (fst br, snd br);
                   (fst tl, snd br)])
      | BoardSegment layer s e =>
          if negb (layer =? BL_Edge_Cuts) then
            board_outline_loop corner_radius rest outline_pts
          else board_outline_loop corner_radius rest (outline_pts ++ [s; e])
      | BoardArc layer s e =>
          if negb (layer =? BL_Edge_Cuts) then
            board_outline_loop corner_radius rest outline_pts
          else board_outline_loop corner_radius rest (outline_pts ++ [s; e])
      | BoardCircle layer c rp =>
          if negb (layer =? BL_Edge_Cuts) then
            board_outline_loop corner_radius rest outline_pts
          else
            let '(cx, cy) := c in
            r ← math_sqrt (Int ((fst rp - cx) ^ 2 + (snd rp - cy) ^ 2));
            pts ← circle_loop cx cy r (seq 0 32) outline_pts;
            board_outline_loop corner_radius rest pts
      | BoardOther layer =>
          board_outline_loop corner_radius rest outline_pts
      end
  end.

Definition get_board_outline (board : Board) (corner_radius : Z)
    : res (list point) :=
  board_outline_loop corner_radius (get_shapes board) [].

(** A layer is truthy unless it is the zero of the enumeration. *)
Definition layer_truthy (l : BoardLayer) : bool := negb (l =? 0).

Definition is_copper_label (layer_name : string) : bool :=
  (str_in "F_Cu" layer_name || str_in "B_Cu" layer_name
   || str_in "In" layer_name)
  && str_in "Cu" layer_name.

Definition get_all_copper_layers (board : Board) : list BoardLayer :=
  let layers := [BL_F_Cu; BL_B_Cu] in
  let used_layers : gset Z :=
    foldl (fun acc track =>
             if layer_truthy (tr_layer track) then acc ∪ {[tr_layer track]}
             else acc)
          (list_to_set layers) (get_tracks board) in
  let result :=
    filter (fun layer => is_copper_label (layer_label layer))
           (elements used_layers) in
  if is_nil result then layers else result.

Definition net_name_of (net : option Net) : string :=
  match net with
  | Some n => net_name n
  | None => ""
  end.

Definition extract_track (track : Track) : TrackData :=
  let layer_name := layer_label (tr_layer track) in
  let net := net_name_of (tr_net track) in
  if is_arc track then
    {| td_start_x := fst (tr_start track); td_start_y := snd (tr_start track);
       td_end_x := fst (tr_end track); td_end_y := snd (tr_end track);
       td_width := tr_width track; td_net := net;
       td_layer_name := layer_name; td_is_arc := true;
       td_mid_x := fst (tr_mid track); td_mid_y := snd (tr_mid track) |}
  else
    {| td_start_x := fst (tr_start track); td_start_y := snd (tr_start track);
       td_end_x := fst (tr_end track); td_end_y := snd (tr_end track);
       td_width := tr_width track; td_net := net;
       td_layer_name := layer_name; td_is_arc := false;
       td_mid_x := 0; td_mid_y := 0 |}.

(** The pad loop of [extract_board_data]: pads without copper layers are
    left out; the half extents are the largest over the copper layers. *)
Fixpoint extract_pads (pads : list Pad) : list PadData :=
  match pads with
  | [] => []
  | pad :: rest =>
      if is_nil (pad_copper_layers pad) then extract_pads rest
      else
        let pad_half_w :=
          foldl (fun acc size => Z.max acc (fst size / 2)) 0
                (pad_copper_layers pad) in
        let pad_half_h :=
          foldl (fun acc size => Z.max acc (snd size / 2)) 0
                (pad_copper_layers pad) in
        {| pd_x := fst (pad_position pad); pd_y := snd (pad_position pad);
           pd_half_w := pad_half_w; pd_half_h := pad_half_h;
           pd_net := net_name_of (pad_net pad) |}
        :: extract_pads rest
  end.

Definition extract_via (via : Via) : ViaData :=
  {| vd_x := fst (via_position via); vd_y := snd (via_position via);
     vd_radius := via_diameter via / 2;
     vd_net := net_name_of (via_net via) |}.

Definition extract_zone (zone : Zone) : list (string * list point) :=
  map (fun polygon_pts => (net_name_of (zone_net zone), polygon_pts))
      (get_zone_filled_polygons zone).

Definition extract_board_data (board : Board) (corner_radius : Z)
    : res BoardData :=
  let tracks_data := map extract_track (get_tracks board) in
  let pads_data := extract_pads (get_pads board) in
  let vias_data := map extract_via (get_vias board) in
  let zone_polygons_data := concat (map extract_zone (get_zones board)) in
  outline ← get_board_outline board corner_radius;
  let layers : gset string :=
    list_to_set (map layer_label (get_all_copper_layers board)) in
  Ok {| tracks := tracks_data; pads := pads_data; vias := vias_data;
        zone_polygons := zone_polygons_data; board_outline := outline;
        copper_layers := layers |}.

(** ** Stitching orchestrator *)

(** A value of the [rejected_reasons] dictionary: the count of a
    rejection reason, or the message of a run that stopped early. *)
Inductive reason_value :=
| Count (n : Z)
| Message (text : string).

Record StitchingResult := {
  zones_found : Z;
  tracks_found : Z;
  candidates : Z;
  valid : Z;
  rejected : Z;
  rejected_reasons : gmap string reason_value;
  result_vias : list Via
}.

Definition empty_result : StitchingResult :=
  {| zones_found := 0; tracks_found := 0; candidates := 0; valid := 0;
     rejected := 0; rejected_reasons := ∅; result_vias := [] |}.

Definition with_reason (result : StitchingResult) (key : string)
    (v : reason_value) : StitchingResult :=
  {| zones_found := zones_found result; tracks_found := tracks_found result;
     candidates := candidates result; valid := valid result;
     rejected := rejected result;
     rejected_reasons := <[key:=v]> (rejected_reasons result);
     result_vias := result_vias result |}.

(** [target_nets] and [net_objects]. *)
Definition target_net_set (config : StitchingConfig) : gset string :=
  list_to_set (net_names config).

Definition find_net_objects (nets : list Net) (target_nets : gset string)
    : gmap string Net :=
  foldl (fun net_objects net =>
           if bool_decide (net_name net ∈ target_nets)
           then <[net_name net:=net]> net_objects else net_objects)
        ∅ nets.

(** [not d] for a dictionary [d]. *)
Definition dict_is_empty {V} (m : gmap string V) : bool :=
  is_nil (map_to_list m).

Definition is_through (t : ViaType) : bool :=
  match t with VT_THROUGH => true | _ => false end.

(** [layer] when [if layer:] holds, else nothing. *)
Definition layer_if_set (layer : option BoardLayer) : option BoardLayer :=
  match layer with
  | Some l => if layer_truthy l then Some l else None
  | None => None
  end.

(** The via that the result loop builds for an accepted position. *)
Definition new_via (x y : Z) (net : Net) (config : StitchingConfig) : Via :=
  {| via_position := (x, y);
     via_net := Some net;
     via_kind := via_type config;
     via_diameter := via_diameter_nm config;
     via_drill_diameter := via_drill_nm config;
     via_start_layer :=
       if negb (is_through (via_type config))
       then layer_if_set (start_layer config) else None;
     via_end_layer :=
       if negb (is_through (via_type config))
       then layer_if_set (end_layer config) else None |}.

(** [reasons[reason] = reasons.get(reason, 0) + 1]. *)
Definition bump_reason (reasons : gmap string reason_value) (reason : string)
    : res (gmap string reason_value) :=
  match reasons !! reason with
  | None => Ok (<[reason:=Count 1]> reasons)
  | Some (Count n) => Ok (<[reason:=Count (n + 1)]> reasons)
  | Some (Message _) => Raise TypeError
  end.

(** The loop [for x, y, is_valid, rejection_reason in check_results]. *)
Fixpoint process_results (check_results : list verdict) (net : Net)
    (config : StitchingConfig) (result : StitchingResult)
    : res StitchingResult :=
  match check_results with
  | [] => Ok result
  | (x, y, is_valid, rejection_reason) :: rest =>
      if is_valid : bool then
        process_results rest net config
          {| zones_found := zones_found result;
             tracks_found := tracks_found result;
             candidates := candidates result;
             valid := valid result + 1;
             rejected := rejected result;
             rejected_reasons := rejected_reasons result;
             result_vias := result_vias result ++ [new_via x y net config] |}
      else
        reasons ← bump_reason (rejected_reasons result) rejection_reason;
        process_results rest net config
          {| zones_found := zones_found result;
             tracks_found := tracks_found result;
             candidates := candidates result;
             valid := valid result;
             rejected := rejected result + 1;
             rejected_reasons := reasons;
             result_vias := result_vias result |}
  end.

Definition generate_trace_fencing (fuel : nat) (board : Board)
    (config : StitchingConfig) (selected_tracks : option (list Track))
    : res StitchingResult :=
  let result := empty_result in
  let target_nets := target_net_set config in
  let net_objects := find_net_objects (get_nets board) target_nets in
  if dict_is_empty net_objects then
    Ok (with_reason result "no_nets"
          (Message "No matching nets found for fence vias"))
  else
    let fence_net :=
      match net_names config with
      | first :: _ => net_objects !! first
      | [] => None
      end in
    match fence_net with
    | None =>
        Ok (with_reason result "no_fence_net"
              (Message "No net found for fence vias"))
    | Some fence_net =>
        if is_nil (default [] selected_tracks) then
          Ok (with_reason result "no_tracks"
                (Message "No tracks selected. Select the traces you want to fence in KiCad first."))
        else
          let tracks_to_fence := default [] selected_tracks in
          let via_radius := via_diameter_nm config / 2 in
          let same_net_clearance := from_mm_0_127 in
          board_data ← extract_board_data board (board_corner_radius_nm config);
          all_positions ←
            generate_path_fence_positions fuel tracks_to_fence
              (fence_spacing_nm config) (fence_offset_nm config)
              (fence_both_sides config);
          check_results ←
            check_positions_batch all_positions via_radius target_nets
              (clearance_nm config) same_net_clearance
              (boundary_clearance_nm config) board_data true None;
          process_results check_results fence_net config
            {| zones_found := 0;
               tracks_found := Z.of_nat (length tracks_to_fence);
               candidates := Z.of_nat (length all_positions);
               valid := 0; rejected := 0; rejected_reasons := ∅;
               result_vias := [] |}
    end.

Definition list_min (l : list Z) : Z :=
  match l with [] => 0 | a :: rest => foldl Z.min a rest end.

Definition list_max (l : list Z) : Z :=
  match l with [] => 0 | a :: rest => foldl Z.max a rest end.

(** [for polygon_pts in polygons]; the state is the result so far and
    the cursor on the random tape. *)
Fixpoint polygons_loop (fuel : nat) (tape : nat -> Z)
    (config : StitchingConfig) (target_nets : gset string)
    (via_radius same_net_clearance : Z) (board_data : BoardData)
    (is_fence_mode : bool) (target_net : Net) (polygons : list (list point))
    (result : StitchingResult) (cursor : nat)
    : res (StitchingResult * nat) :=
  match polygons with
  | [] => Ok (result, cursor)
  | polygon_pts :: rest =>
      let continue r c :=
        polygons_loop fuel tape config target_nets via_radius
          same_net_clearance board_data is_fence_mode target_net rest r c in
      if is_nil polygon_pts then continue result cursor
      else
        '(grid_positions, cursor') ←
          match mode config with
          | FILL =>
              let all_x := map fst polygon_pts in
              let all_y := map snd polygon_pts in
              let min_x := list_min all_x in
              let max_x := list_max all_x in
              let min_y := list_min all_y in
              let max_y := list_max all_y in
              '(grid, c) ← generate_grid_positions fuel tape cursor
                             min_x min_y max_x max_y config;
              Ok (filter (fun p => point_in_polygon (fst p) (snd p) polygon_pts)
                         grid, c)
          | _ =>
              fence ← generate_fence_positions polygon_pts
                        (fence_spacing_nm config);
              Ok (fence, cursor)
          end;
        let result1 :=
          {| zones_found := zones_found result;
             tracks_found := tracks_found result;
             candidates :=
               candidates result + Z.of_nat (length grid_positions);
             valid := valid result;
             rejected := rejected result;
             rejected_reasons := rejected_reasons result;
             result_vias := result_vias result |} in
        if is_nil grid_positions then continue result1 cursor'
        else
          check_results ←
            check_positions_batch grid_positions via_radius target_nets
              (clearance_nm config) same_net_clearance
              (boundary_clearance_nm config) board_data is_fence_mode
              (Some polygon_pts);
          result2 ← process_results check_results target_net config result1;
          continue result2 cursor'
  end.

(** [for zone_idx, zone in enumerate(target_zones)]. *)
Fixpoint zones_loop (fuel : nat) (tape : nat -> Z)
    (config : StitchingConfig) (target_nets : gset string)
    (net_objects : gmap string Net)
    (via_radius same_net_clearance : Z) (board_data : BoardData)
    (is_fence_mode : bool) (target_zones : list Zone)
    (result : StitchingResult) (cursor : nat)
    : res (StitchingResult * nat) :=
  match target_zones with
  | [] => Ok (result, cursor)
  | zone :: rest =>
      let zone_net := net_name_of (zone_net zone) in
      match net_objects !! zone_net with
      | None =>
          zones_loop fuel tape config target_nets net_objects via_radius
            same_net_clearance board_data is_fence_mode rest result cursor
      | Some target_net =>
          let polygons := get_zone_filled_polygons zone in
          '(result', cursor') ←
            polygons_loop fuel tape config target_nets via_radius
              same_net_clearance board_data is_fence_mode target_net
              polygons result cursor;
          zones_loop fuel tape config target_nets net_objects via_radius
            same_net_clearance board_data is_fence_mode rest result' cursor'
      end
  end.

(** [z.net and z.net.name in target_nets]. *)
Definition zone_matches (target_nets : gset string) (z : Zone) : bool :=
  match zone_net z with
  | Some n => bool_decide (net_name n ∈ target_nets)
  | None => false
  end.

Definition is_fence_zone (m : StitchMode) : bool :=
  match m with FENCE_ZONE => true | _ => false end.

(** One stitching run.  [tape] and [cursor] are the state of the random
    generator when the run starts; the state it leaves is not part of the
    returned value. *)
Definition generate_via_stitching (fuel : nat) (tape : nat -> Z)
    (cursor : nat) (board : Board) (config : StitchingConfig)
    (selected_zones : option (list Zone))
    (selected_tracks : option (list Track)) : res StitchingResult :=
  match mode config with
  | FENCE_TRACE => generate_trace_fencing fuel board config selected_tracks
  | _ =>
      let result := empty_result in
      let zones := get_zones board in
      let nets := get_nets board in
      let target_nets := target_net_set config in
      let net_objects := find_net_objects nets target_nets in
      if dict_is_empty net_objects then
        Ok (with_reason result "no_nets" (Message "No matching nets found"))
      else
        let target_zones :=
          if selected_only config && negb (is_nil (default [] selected_zones))
          then filter (zone_matches target_nets) (default [] selected_zones)
          else filter (zone_matches target_nets) zones in
        let result :=
          {| zones_found := Z.of_nat (length target_zones);
             tracks_found := 0; candidates := 0; valid := 0; rejected := 0;
             rejected_reasons := ∅; result_vias := [] |} in
        if is_nil target_zones then
          Ok (with_reason result "no_zones"
                (Message "No zones found for target nets"))
        else
          let via_radius := via_diameter_nm config / 2 in
          let same_net_clearance := from_mm_0_127 in
          board_data ← extract_board_data board (board_corner_radius_nm config);
          let is_fence_mode := is_fence_zone (mode config) in
          '(result', _) ←
            zones_loop fuel tape config target_nets net_objects via_radius
              same_net_clearance board_data is_fence_mode target_zones
              result cursor;
          Ok result'
  end.

End Stitcher.

(** ** Checks on the board's own objects *)

(** The result [(ok, reason)] of the object-level checks. *)
Definition clearance_result : Type := bool * string.

(** The largest half extents of a pad over its copper layers. *)
Definition pad_half_extents (copper : list (Z * Z)) : Z * Z :=
  (foldl (fun acc size => Z.max acc (fst size / 2)) 0 copper,
   foldl (fun acc size => Z.max acc (snd size / 2)) 0 copper).

(** [check_clearance_to_pads]: the pads are the host's objects, and no
    bounding check comes before the box test. *)
Fixpoint check_clearance_to_pads (x y via_radius : Z) (pads : list Pad)
    (target_nets : gset string) (clearance : Z) : clearance_result :=
  match pads with
  | [] => (true, ""%string)
  | pad :: rest =>
      let pad_x := fst (pad_position pad) in
      let pad_y := snd (pad_position pad) in
      let dx_abs := Z.abs (x - pad_x) in
      let dy_abs := Z.abs (y - pad_y) in
      let copper := pad_copper_layers pad in
      if is_nil copper then
        check_clearance_to_pads x y via_radius rest target_nets clearance
      else
        let '(pad_half_w, pad_half_h) := pad_half_extents copper in
        let net := net_name_of (pad_net pad) in
        let is_mounting_hole :=
          (pad_half_w >? from_mm_2_5) || (pad_half_h >? from_mm_2_5) in
        let req_clearance :=
          if bool_decide (net ∈ target_nets) && negb is_mounting_hole
          then clearance / 2 else clearance in
        if (dx_abs <? via_radius + pad_half_w + req_clearance)
           && (dy_abs <? via_radius + pad_half_h + req_clearance)
        then (false, ("pad (" ++ net ++ ")")%string)
        else check_clearance_to_pads x y via_radius rest target_nets clearance
  end.

(** [check_clearance_to_vias]. *)
Fixpoint check_clearance_to_vias (x y via_radius : Z) (vias : list Via)
    (target_nets : gset string) (clearance same_net_clearance : Z)
    : clearance_result :=
  match vias with
  | [] => (true, ""%string)
  | via :: rest =>
      let max_check_dist := via_radius + clearance + from_mm_1_5 in
      let via_x := fst (via_position via) in
      let via_y := snd (via_position via) in
      let dx := x - via_x in
      let dy := y - via_y in
      if (Z.abs dx >? max_check_dist) || (Z.abs dy >? max_check_dist)
      then check_clearance_to_vias x y via_radius rest target_nets clearance
             same_net_clearance
      else
        let existing_radius := via_diameter via / 2 in
        let dist_sq := dx * dx + dy * dy in
        let net := net_name_of (via_net via) in
        let min_dist :=
          via_radius + existing_radius
          + (if bool_decide (net ∈ target_nets)
             then same_net_clearance else clearance) in
        if dist_sq <? min_dist * min_dist
        then (false, ("via (" ++ net ++ ")")%string)
        else check_clearance_to_vias x y via_radius rest target_nets clearance
               same_net_clearance
  end.

(** ** Existing stitching vias *)

(** The loop of [find_stitching_vias]. *)
Fixpoint find_stitching_vias_loop (vias : list Via) (target_nets : gset string)
    (via_diameter_nm via_drill_nm : Z) (matching_vias : list Via)
    : list Via :=
  match vias with
  | [] => matching_vias
  | via :: rest =>
      let net := net_name_of (via_net via) in
      if negb (bool_decide (net ∈ target_nets)) then
        find_stitching_vias_loop rest target_nets via_diameter_nm
          via_drill_nm matching_vias
      else if (Z.abs (via_diameter via - via_diameter_nm) <? from_mm_0_01)
              && (Z.abs (via_drill_diameter via - via_drill_nm)
                  <? from_mm_0_01)
      then find_stitching_vias_loop rest target_nets via_diameter_nm
             via_drill_nm (matching_vias ++ [via])
      else find_stitching_vias_loop rest target_nets via_diameter_nm
             via_drill_nm matching_vias
  end.

Definition find_stitching_vias (board : Board) (net_names : list string)
    (via_diameter_nm via_drill_nm : Z) : list Via :=
  find_stitching_vias_loop (get_vias board) (list_to_set net_names)
    via_diameter_nm via_drill_nm [].

(** ** Specification-side definitions *)

(** *** Ray casting *)

(** Edge [i] of a polygon joins point [i] to point [(i + 1) mod n]. *)
Definition polygon_edge (polygon_pts : list point) (i : nat) : point * point :=
  (nth i polygon_pts (0, 0),
   nth ((i + 1) mod length polygon_pts) polygon_pts (0, 0)).

(** The horizontal ray from [(x, y)] toward [+x] crosses the edge from
    [a] to [b]: the end points lie on different sides of the line of the
    ray, and [x] is strictly less than the abscissa at which the edge
    meets that line.  Coordinates are integers, and so is that abscissa:
    the quotient is the floor. *)
Definition ray_crosses (x y : Z) (e : point * point) : bool :=
  let '((xa, ya), (xb, yb)) := e in
  xorb (ya >? y) (yb >? y)
  && (x <? xa + (xb - xa) * (y - ya) / (yb - ya)).

Definition crossing_count (x y : Z) (polygon_pts : list point) : nat :=
  length (List.filter (ray_crosses x y)
            (map (polygon_edge polygon_pts) (seq 0 (length polygon_pts)))).

(** The pairs [(polygon_pts[j], polygon_pts[i])] in the order in which
    the loop of [point_in_polygon] meets them, [pj] being the first [j]. *)
Fixpoint adjacent (pj : point) (pts : list point) : list (point * point) :=
  match pts with
  | [] => []
  | pi :: rest => (pj, pi) :: adjacent pi rest
  end.

(** *** Example boards *)

(** The snapshot [board_data] with its via list replaced. *)
Definition with_vias (board_data : BoardData) (vs : list ViaData) : BoardData :=
  {| tracks := tracks board_data; pads := pads board_data; vias := vs;
     zone_polygons := zone_polygons board_data;
     board_outline := board_outline board_data;
     copper_layers := copper_layers board_data |}.

Definition bare_board : BoardData :=
  {| tracks := []; pads := []; vias := []; zone_polygons := [];
     board_outline := []; copper_layers := ∅ |}.

(** A via of diameter 4mm on net VCC at the origin. *)
Definition large_via : ViaData :=
  {| vd_x := 0; vd_y := 0; vd_radius := 2000000; vd_net := "VCC" |}.

(** A via of diameter 0.6mm on net VCC at the origin. *)
Definition small_via : ViaData :=
  {| vd_x := 0; vd_y := 0; vd_radius := 300000; vd_net := "VCC" |}.

Definition gnd : gset string := {["GND"%string]}.

(** The centre distance that the clearance rule asks between a candidate
    of radius [via_radius] and the existing via [via]. *)
Definition required_via_distance (via_radius : Z) (target_nets : gset string)
    (clearance same_net_clearance : Z) (via : ViaData) : Z :=
  via_radius + vd_radius via
  + (if bool_decide (vd_net via ∈ target_nets)
     then same_net_clearance else clearance).

(** The bounding-box pre-filter of the via loop lets [via] through to the
    distance test. *)
Definition via_prefilter_passes (x y via_radius clearance : Z) (via : ViaData)
    : bool :=
  let max_check_dist := via_radius + clearance + from_mm_1_5 in
  negb ((Z.abs (x - vd_x via) >? max_check_dist)
        || (Z.abs (y - vd_y via) >? max_check_dist)).

Definition via_distance_sq (x y : Z) (via : ViaData) : Z :=
  (x - vd_x via) * (x - vd_x via) + (y - vd_y via) * (y - vd_y via).

(** *** Grid *)

(** Ceiling of [a / s] for a positive [s]. *)
Definition cdiv (a s : Z) : Z := (a + s - 1) / s.

(** The number of multiples of [s] between [lo] and [hi]. *)
Definition axis_count (lo hi s : Z) : nat := Z.to_nat (hi / s - cdiv lo s + 1).

(** The regular grid of [cols] by [rows] points from [(x0, y0)], row by
    row. *)
Definition grid_points (x0 y0 s : Z) (cols rows : nat) : list point :=
  flat_map (fun j => map (fun i => (x0 + Z.of_nat i * s, y0 + Z.of_nat j * s))
                         (seq 0 cols))
           (seq 0 rows).

(** A configuration for a plain grid of spacing [s]: no stagger, no
    jitter. *)
Definition plain_grid_config (s : Z) : StitchingConfig :=
  {| net_names := ["GND"%string];
     via_diameter_nm := 600000; via_drill_nm := 300000;
     grid_spacing_nm := s; stagger_rows := false;
     clearance_nm := 200000; boundary_clearance_nm := 300000;
     random_offset := false; random_offset_max_nm := 200000;
     mode := FILL;
     fence_spacing_nm := 1000000; fence_offset_nm := 500000;
     fence_both_sides := true; selected_only := false;
     via_type := VT_THROUGH; start_layer := None; end_layer := None;
     board_corner_radius_nm := 0 |}.

Definition zero_tape : nat -> Z := fun _ => 0.

(** *** Offset path *)

(** The length of a direction [(dx, dy)]: the square root of the sum of
    the squares, in the arithmetic of the program. *)
Definition direction_length (dx dy : num) : res num :=
  dx2 ← py_mul dx dx;
  dy2 ← py_mul dy dy;
  sq ← py_add dx2 dy2;
  math_sqrt sq.

(** The direction computed at vertex [i] has length zero. *)
Definition zero_length_direction (path : list point) (i : nat) : bool :=
  match offset_direction path i with
  | Ok (dx, dy) =>
      match direction_length dx dy with
      | Ok len => py_eq len (Int 0)
      | _ => false
      end
  | _ => false
  end.

(** The number of vertices of the path whose direction has length
    zero. *)
Definition zero_length_among (path : list point) (indices : list nat) : nat :=
  length (List.filter (zero_length_direction path) indices).

Definition zero_length_vertices (path : list point) : nat :=
  zero_length_among path (seq 0 (length path)).

(** Every neighbour of vertex [i] on the path is at the same point as
    the vertex. *)
Definition neighbours_coincide (path : list point) (i : nat) : Prop :=
  ((0 < i)%nat -> pt_at path (i - 1) = pt_at path i)
  /\ ((i < length path - 1)%nat -> pt_at path (i + 1) = pt_at path i).

(** Vertex [i] is an end of the path, or one of its neighbours is at the
    same point as the vertex. *)
Definition end_or_repeated (path : list point) (i : nat) : Prop :=
  i = 0%nat \/ i = (length path - 1)%nat
  \/ pt_at path (i - 1) = pt_at path i \/ pt_at path (i + 1) = pt_at path i.

(** A polyline with one right-angle corner, and one that doubles back. *)
Definition corner_path : list point :=
  [(0, 0); (1000000, 0); (1000000, 1000000)].

Definition doubled_back_path : list point :=
  [(0, 0); (1000000, 0); (0, 0)].

(** *** Track chainer *)

Section Built.
Variable segments : list (list point).

(** [built_from members path]: the polyline [path] is assembled from
    exactly the segments whose indices are in [members], each used once,
    by the four merges of the chainer; the newest member is first. *)
Inductive built_from : list nat -> list point -> Prop :=
| built_start (i : nat) (seg : list point) :
    segments !! i = Some seg ->
    built_from [i] seg
| built_prepend (j : nat) (other : list point) (members : list nat)
    (path : list point) (o p : point) :
    segments !! j = Some other -> j ∉ members ->
    built_from members path ->
    last_pt other = Ok o -> first_pt path = Ok p -> points_close o p = true ->
    built_from (j :: members) (removelast other ++ path)
| built_prepend_reversed (j : nat) (other : list point) (members : list nat)
    (path : list point) (o p : point) :
    segments !! j = Some other -> j ∉ members ->
    built_from members path ->
    first_pt other = Ok o -> first_pt path = Ok p -> points_close o p = true ->
    built_from (j :: members) (rev (tail other) ++ path)
| built_append (j : nat) (other : list point) (members : list nat)
    (path : list point) (o p : point) :
    segments !! j = Some other -> j ∉ members ->
    built_from members path ->
    first_pt other = Ok o -> last_pt path = Ok p -> points_close o p = true ->
    built_from (j :: members) (path ++ tail other)
| built_append_reversed (j : nat) (other : list point) (members : list nat)
    (path : list point) (o p : point) :
    segments !! j = Some other -> j ∉ members ->
    built_from members path ->
    last_pt other = Ok o -> last_pt path = Ok p -> points_close o p = true ->
    built_from (j :: members) (path ++ rev (removelast other)).

(** The number of segments not yet used. *)
Definition count_unused (used : list bool) : nat :=
  length (List.filter negb used).

(** The [used] flags mark exactly the indices in [consumed], each of
    which occurs once. *)
Definition chain_inv (used : list bool) (consumed : list nat) : Prop :=
  length used = length segments
  /\ NoDup consumed
  /\ forall j, used !! j = Some true <-> j ∈ consumed.

End Built.

(** A host whose mathematics library is never called. *)
Definition plain_host : Host :=
  {| libm_cos := fun _ => Raise ValueError;
     libm_sin := fun _ => Raise ValueError;
     libm_atan2 := fun _ _ => Raise ValueError;
     BL_F_Cu := 3; BL_B_Cu := 34; BL_Edge_Cuts := 25;
     layer_label := fun l =>
       if l =? 3 then "BL_F_Cu" else if l =? 34 then "BL_B_Cu"
       else "BL_UNKNOWN" |}.

Definition straight_track (a b : point) : Track :=
  {| is_arc := false; tr_start := a; tr_end := b; tr_mid := (0, 0);
     tr_width := 200000; tr_net := Some {| net_name := "SIG" |};
     tr_layer := 3;
     arc_center := None; arc_radius := S754_zero false;
     arc_start_angle := None; arc_angle := None |}.

(** Three tracks: an L made of two, given out of order, and one apart. *)
Definition three_tracks : list Track :=
  [straight_track (1000000, 0) (1000000, 1000000);
   straight_track (5000000, 5000000) (6000000, 5000000);
   straight_track (1000000, 0) (0, 0)].

(** *** Stitching results *)

(** [sum(rejected_reasons.values())]: the sum of the values when all of
    them are counts, and nothing when a value is a message. *)
Definition add_value (key : string) (v : reason_value) (acc : option Z)
    : option Z :=
  match v, acc with
  | Count n, Some a => Some (a + n)
  | _, _ => None
  end.

Definition values_sum (reasons : gmap string reason_value) : option Z :=
  map_fold add_value (Some 0) reasons.



(** A board with the net GND and one square zone of 10mm on it. *)
Definition gnd_net : Net := {| net_name := "GND" |}.

Definition square_zone : Zone :=
  {| zone_net := Some gnd_net;
     zone_filled_polygons :=
       [[[(0, 0); (10000000, 0); (10000000, 10000000); (0, 10000000)]]];
     zone_outline := [] |}.

Definition square_board : Board :=
  {| get_nets := [gnd_net]; get_zones := [square_zone]; get_tracks := [];
     get_pads := []; get_vias := []; get_shapes := [] |}.


(** The configuration of the end-to-end scenario: grid of 2mm. *)
Definition fill_config : StitchingConfig := plain_grid_config 2000000.

Definition trace_config : StitchingConfig :=
  {| net_names := ["GND"%string];
     via_diameter_nm := 600000; via_drill_nm := 300000;
     grid_spacing_nm := 2000000; stagger_rows := false;
     clearance_nm := 200000; boundary_clearance_nm := 300000;
     random_offset := false; random_offset_max_nm := 200000;
     mode := FENCE_TRACE;
     fence_spacing_nm := 1000000; fence_offset_nm := 500000;
     fence_both_sides := true; selected_only := false;
     via_type := VT_THROUGH; start_layer := None; end_layer := None;
     board_corner_radius_nm := 0 |}.

(** The result of a run, for the examples that are known to return. *)
Definition returned (run : res StitchingResult) : StitchingResult :=
  match run with
  | Ok result => result
  | _ => empty_result
  end.

(** The end-to-end scenario, a run on a board without nets, and a trace
    fencing run with nothing selected. *)
Definition fill_run : res StitchingResult :=
  generate_via_stitching (H:=plain_host) 20 zero_tape 0 square_board
    fill_config None None.


Definition no_selection_run : res StitchingResult :=
  generate_via_stitching (H:=plain_host) 20 zero_tape 0 square_board
    trace_config None (Some []).

(** ** Definitions for the further properties *)

(** *** Floats by sign *)

(** [f] is a number (not NaN) whose sign bit is [s]. *)
Definition has_sign (s : bool) (f : float) : Prop :=
  match f with
  | S754_zero s' | S754_infinity s' | S754_finite s' _ _ => s' = s
  | S754_nan => False
  end.

(** [f] is zero or finite: neither an infinity nor NaN. *)
Definition is_number (f : float) : bool :=
  match f with
  | S754_zero _ | S754_finite _ _ _ => true
  | _ => false
  end.

(** [f] is a positive binary64 number or plus infinity. *)
Definition is_positive (f : float) : Prop :=
  match f with
  | S754_finite false _ e => -1074 <= e
  | S754_infinity false => True
  | _ => False
  end.

(** *** Rectangles *)

(** The four corners of the rectangle from [(x1, y1)] to [(x2, y2)], in
    the order in which [get_board_outline] lists them. *)
Definition rectangle (x1 y1 x2 y2 : Z) : list point :=
  [(x1, y1); (x2, y1); (x2, y2); (x1, y2)].

(** The points that a shape adds to the outline when no corner is
    rounded and the shape is no circle. *)
Definition straight_outline_points `{Host} (shape : Shape) : list point :=
  match shape with
  | BoardRectangle layer tl br =>
      if layer =? BL_Edge_Cuts
      then [(fst tl, snd tl); (fst br, snd tl); (fst br, snd br);
            (fst tl, snd br)]
      else []
  | BoardSegment layer s e | BoardArc layer s e =>
      if layer =? BL_Edge_Cuts then [s; e] else []
  | _ => []
  end.

Definition is_edge_circle `{Host} (shape : Shape) : bool :=
  match shape with
  | BoardCircle layer _ _ => layer =? BL_Edge_Cuts
  | _ => false
  end.

(** ** Verdicts of the validator *)

(** The reasons with which [check_position_parallel] rejects. *)
Definition rejection_reasons : list string :=
  ["outside_board"; "board_edge"; "zone_edge"; "pad"; "via"; "arc"; "track";
   "rule_area"]%string.

(** A verdict for the candidate [(x, y)]: accepted with the empty reason,
    or rejected with one of the reasons. *)
Definition verdict_for (p : point) (v : verdict) : Prop :=
  v = accepted_at (fst p) (snd p)
  \/ exists reason, reason ∈ rejection_reasons
                    /\ v = rejected_at (fst p) (snd p) reason.

(** The box test of the pad loop, without the bounding check before it. *)
Definition pad_too_close (x y via_radius : Z) (target_nets : gset string)
    (clearance : Z) (pad : PadData) : bool :=
  let is_mounting_hole :=
    (pd_half_w pad >? from_mm_2_5) || (pd_half_h pad >? from_mm_2_5) in
  let req_clearance :=
    if bool_decide (pd_net pad ∈ target_nets) && negb is_mounting_hole
    then clearance / 2 else clearance in
  (Z.abs (x - pd_x pad) <? via_radius + pd_half_w pad + req_clearance)
  && (Z.abs (y - pd_y pad) <? via_radius + pd_half_h pad + req_clearance).

Definition nonneg_extents (pad : PadData) : Prop :=
  0 <= pd_half_w pad /\ 0 <= pd_half_h pad.

(** The entries of [zone_polygons] that the rule-area loop looks at: no
    net name and at least three points. *)
Definition is_rule_area (zone : string * list point) : bool :=
  String.eqb (fst zone) "" && (3 <=? length (snd zone))%nat.

(** A pad of 1mm by 2mm on GND at (5mm, 0), and a via of 0.6mm on GND. *)
Definition gnd_pad : Pad :=
  {| pad_position := (5000000, 0); pad_copper_layers := [(1000000, 2000000)];
     pad_net := Some gnd_net |}.

Definition gnd_via : Via :=
  {| via_position := (0, 0); via_net := Some gnd_net; via_kind := VT_THROUGH;
     via_diameter := 600000; via_drill_diameter := 300000;
     via_start_layer := None; via_end_layer := None |}.

(** ** Vias of a run *)

(** A via as the result loop builds it for the configuration: on a net of
    the board that the configuration names, with the configured type,
    diameter and drill, and without a layer pair when it is a through
    via. *)
Definition made_by (nets : list Net) (config : StitchingConfig) (via : Via)
    : Prop :=
  exists net,
    via_net via = Some net /\ net ∈ nets
    /\ net_name net ∈ net_names config
    /\ via_kind via = via_type config
    /\ via_diameter via = via_diameter_nm config
    /\ via_drill_diameter via = via_drill_nm config
    /\ (via_type config = VT_THROUGH ->
        via_start_layer via = None /\ via_end_layer via = None).

(** The test of the loop of [find_stitching_vias]. *)
Definition is_stitching_via (target_nets : gset string)
    (via_diameter_nm via_drill_nm : Z) (via : Via) : bool :=
  bool_decide (net_name_of (via_net via) ∈ target_nets)
  && ((Z.abs (via_diameter via - via_diameter_nm) <? from_mm_0_01)
      && (Z.abs (via_drill_diameter via - via_drill_nm) <? from_mm_0_01)).

(** The board once the vias [vs] have been added to it. *)
Definition with_more_vias (board : Board) (vs : list Via) : Board :=
  {| get_nets := get_nets board; get_zones := get_zones board;
     get_tracks := get_tracks board; get_pads := get_pads board;
     get_vias := get_vias board ++ vs; get_shapes := get_shapes board |}.

(** The zones that a zone run considers. *)
Definition considered_zones (board : Board) (config : StitchingConfig)
    (selected_zones : option (list Zone)) : list Zone :=
  if selected_only config && negb (is_nil (default [] selected_zones))
  then default [] selected_zones else get_zones board.

Definition no_nets_message (m : StitchMode) : string :=
  match m with
  | FENCE_TRACE => "No matching nets found for fence vias"
  | _ => "No matching nets found"
  end.

(** A board whose only net is VCC. *)
Definition vcc_board : Board :=
  {| get_nets := [{| net_name := "VCC" |}]; get_zones := [square_zone];
     get_tracks := []; get_pads := []; get_vias := []; get_shapes := [] |}.

(** ** Board outline and snapshot *)

(** The number of points that a shape adds to the outline. *)
Definition outline_point_count `{Host} (corner_radius : Z) (shape : Shape)
    : nat :=
  match shape with
  | BoardRectangle layer _ _ =>
      if layer =? BL_Edge_Cuts
      then (if corner_radius >? 0 then 40 else 4)%nat else 0%nat
  | BoardSegment layer _ _ | BoardArc layer _ _ =>
      if layer =? BL_Edge_Cuts then 2%nat else 0%nat
  | BoardCircle layer _ _ => if layer =? BL_Edge_Cuts then 32%nat else 0%nat
  | BoardOther _ => 0%nat
  end.

(** A board of 10mm by 10mm cut as one rectangle, with a silk line. *)
Definition rectangle_board : Board :=
  {| get_nets := [gnd_net]; get_zones := [square_zone]; get_tracks := [];
     get_pads := [gnd_pad]; get_vias := [gnd_via];
     get_shapes := [BoardSegment 37 (0, 0) (5, 5);
                    BoardRectangle 25 (0, 0) (10000000, 10000000)] |}.

(** ** Tracks that the validator looks at *)

(** A track is on a checked layer when its layer name is one of the
    copper layers of the snapshot, or holds the text UNKNOWN. *)
Definition on_checked_layer (copper_layers : gset string) (t : TrackData)
    : bool :=
  bool_decide (td_layer_name t ∈ copper_layers)
  || str_in "UNKNOWN" (td_layer_name t).

(** ** Staggered and jittered grids *)

(** The largest random offset of a configuration, and the number of
    random draws for each position. *)
Definition jitter (config : StitchingConfig) : Z :=
  if random_offset config then random_offset_max_nm config else 0.

Definition draws (config : StitchingConfig) : nat :=
  if random_offset config then 2%nat else 0%nat.

(** [p] is within [d] of [q] along each axis. *)
Definition near (d : Z) (p q : point) : Prop :=
  Z.abs (fst p - fst q) <= d /\ Z.abs (snd p - snd q) <= d.

(** [n] points from [(x0, y)] in steps of [s] along the row. *)
Definition lattice_row (x0 y s : Z) (n : nat) : list point :=
  map (fun i => (x0 + Z.of_nat i * s, y)) (seq 0 n).

(** Where row [j] starts: odd rows are shifted by half the spacing when
    the rows are staggered. *)
Definition row_start (config : StitchingConfig) (start_x s : Z) (j : nat)
    : Z :=
  start_x + (if stagger_rows config && Nat.odd j then s / 2 else 0).

(** The number of steps of [s] from [x0] that do not pass [max_x]. *)
Definition row_count (x0 max_x s : Z) : nat :=
  Z.to_nat ((max_x - x0) / s + 1).

(** The lattice of [rows] rows from [start_y], the first of which has
    the index [j0]. *)
Definition staggered_lattice (config : StitchingConfig)
    (start_x start_y s max_x : Z) (j0 rows : nat) : list point :=
  flat_map (fun k =>
              lattice_row (row_start config start_x s (j0 + k))
                (start_y + Z.of_nat k * s) s
                (row_count (row_start config start_x s (j0 + k)) max_x s))
           (seq 0 rows).

(** A grid of spacing [s] with staggered rows and offsets up to [m]. *)
Definition staggered_config (s m : Z) : StitchingConfig :=
  {| net_names := ["GND"%string];
     via_diameter_nm := 600000; via_drill_nm := 300000;
     grid_spacing_nm := s; stagger_rows := true;
     clearance_nm := 200000; boundary_clearance_nm := 300000;
     random_offset := true; random_offset_max_nm := m;
     mode := FILL;
     fence_spacing_nm := 1000000; fence_offset_nm := 500000;
     fence_both_sides := true; selected_only := false;
     via_type := VT_THROUGH; start_layer := None; end_layer := None;
     board_corner_radius_nm := 0 |}.

(** A tape of draws that are not all alike. *)
Definition counting_tape : nat -> Z := fun n => Z.of_nat n * 7919.

(** ** Points of the chained polylines *)

(** The points that a segment brings beside the one it shares. *)
Definition spare_points (seg : list point) : nat := (length seg - 1)%nat.

(** ** Snapshots with more or fewer obstacles *)

Definition with_outline (board_data : BoardData) (outline : list point)
    : BoardData :=
  {| tracks := tracks board_data; pads := pads board_data;
     vias := vias board_data; zone_polygons := zone_polygons board_data;
     board_outline := outline; copper_layers := copper_layers board_data |}.

(** [less] has the outline and the copper layers of [more], and its
    tracks, pads, vias and zone entries are among those of [more], in
    the same order. *)
Definition fewer_obstacles (less more : BoardData) : Prop :=
  sublist (tracks less) (tracks more)
  /\ sublist (pads less) (pads more)
  /\ sublist (vias less) (vias more)
  /\ sublist (zone_polygons less) (zone_polygons more)
  /\ board_outline less = board_outline more
  /\ copper_layers less = copper_layers more.

(** ** The selection switch *)

Definition with_selected_only (config : StitchingConfig) (b : bool)
    : StitchingConfig :=
  {| net_names := net_names config;
     via_diameter_nm := via_diameter_nm config;
     via_drill_nm := via_drill_nm config;
     grid_spacing_nm := grid_spacing_nm config;
     stagger_rows := stagger_rows config;
     clearance_nm := clearance_nm config;
     boundary_clearance_nm := boundary_clearance_nm config;
     random_offset := random_offset config;
     random_offset_max_nm := random_offset_max_nm config;
     mode := mode config;
     fence_spacing_nm := fence_spacing_nm config;
     fence_offset_nm := fence_offset_nm config;
     fence_both_sides := fence_both_sides config;
     selected_only := b;
     via_type := via_type config;
     start_layer := start_layer config;
     end_layer := end_layer config;
     board_corner_radius_nm := board_corner_radius_nm config |}.

(** The snapshot of [rectangle_board] on the plain host. *)
Definition rectangle_snapshot : BoardData :=
  {| tracks := []; pads := extract_pads [gnd_pad];
     vias := [extract_via gnd_via];
     zone_polygons := extract_zone square_zone;
     board_outline := rectangle 0 0 10000000 10000000;
     copper_layers := {["BL_F_Cu"; "BL_B_Cu"]}%string |}.

(** ** Where the vias of a run come from *)

(** The validator accepts the position of the via on the snapshot, with
    the parameters that a run of the configuration passes to it. *)
Definition validated (board_data : BoardData) (config : StitchingConfig)
    (is_fence_mode : bool) (polygon_pts : option (list point)) (via : Via)
    : Prop :=
  check_position_parallel (fst (via_position via)) (snd (via_position via))
    (via_diameter_nm config / 2) (target_net_set config) (clearance_nm config)
    from_mm_0_127 (boundary_clearance_nm config) board_data is_fence_mode
    polygon_pts
  = Ok (accepted_at (fst (via_position via)) (snd (via_position via))).

(** The via was placed for a filled polygon of one of the zones: it is
    on the net of the zone, the validator accepts it against the
    polygon, and in fill mode it lies inside the polygon. *)
Definition placed_in_zone (board_data : BoardData) (config : StitchingConfig)
    (zones : list Zone) (via : Via) : Prop :=
  exists (zone : Zone) (polygon_pts : list point),
    zone ∈ zones
    /\ polygon_pts ∈ get_zone_filled_polygons zone
    /\ net_name_of (via_net via) = net_name_of (zone_net zone)
    /\ validated board_data config (is_fence_zone (mode config))
         (Some polygon_pts) via
    /\ (mode config = FILL ->
        point_in_polygon (fst (via_position via)) (snd (via_position via))
          polygon_pts = true).

(** The positions of the accepted verdicts, and the rejected verdicts. *)
Definition is_accepted (v : verdict) : bool := snd (fst v).

Definition two_verdicts : list verdict :=
  [accepted_at 1000000 0; rejected_at 0 0 "via"].

(** ** Nets of the board that a run can use *)

(** Some net of the board has one of the configured names. *)
Definition some_net_matches (board : Board) (config : StitchingConfig) : bool :=
  existsb (fun n => bool_decide (net_name n ∈ net_names config))
          (get_nets board).

(** Some net of the board has the first configured name. *)
Definition fence_net_on_board (board : Board) (config : StitchingConfig)
    : bool :=
  match net_names config with
  | first :: _ => existsb (fun n => String.eqb (net_name n) first)
                          (get_nets board)
  | [] => false
  end.

(** * Properties *)

(** ** Outcomes *)

(** Membership in a list that is written out. *)
Ltac in_list := apply list_elem_of_In; cbn; auto 10.

(** Splits the conjunctions that are written in the goal, and no
    definition that unfolds to one. *)
Ltac split_goal := repeat match goal with |- _ /\ _ => split end.

Lemma bind_Ok {A B} (m : res A) (f : A -> res B) (b : B) :
  (m ≫= f) = Ok b -> exists a, m = Ok a /\ f a = Ok b.
Proof. destruct m as [a| |]; simpl; intros E; try discriminate; eauto. Qed.

(** ** Python numbers *)

(** The decimal literal [n/d] of the source is the float nearest to the
    quotient, which is what the true division of the two integers gives. *)
Lemma from_mm_literals :
  from_mm_binary64 1 100 = Ok from_mm_0_01
  /\ from_mm_binary64 127 1000 = Ok from_mm_0_127
  /\ from_mm_binary64 1 2 = Ok from_mm_0_5
  /\ from_mm_binary64 1 1 = Ok from_mm_1_0
  /\ from_mm_binary64 3 2 = Ok from_mm_1_5
  /\ from_mm_binary64 5 2 = Ok from_mm_2_5.
Proof. repeat split; vm_compute; reflexivity. Qed.

(** In binary64, [1/49 * 49] is the float just below one, and [int] of
    it is zero. *)
Lemma forty_nine_times_its_inverse :
  (t ← py_truediv (Int 1) (Int 49); p ← py_mul t (Int 49); py_int p) = Ok 0
  /\ (t ← py_truediv (Int 1) (Int 49); py_mul t (Int 49))
     = Ok (Flt (dyadic (2 ^ 53 - 1) (-53))).
Proof. split; vm_compute; reflexivity. Qed.

(** ** Geometry primitives *)

Section RayCasting.
Variables x y : Z.

(** The floor of the meeting abscissa does not depend on which end point
    of the edge it is computed from. *)
Lemma meeting_abscissa_sym (xa ya xb yb : Z) :
  ya <> yb ->
  (xa - xb) * (y - yb) / (ya - yb) + xb = xa + (xb - xa) * (y - ya) / (yb - ya).
Proof.
  intros Hne.
  replace ((xa - xb) * (y - yb)) with (- ((xb - xa) * (y - yb))) by ring.
  replace (ya - yb) with (- (yb - ya)) by ring.
  rewrite Z.div_opp_opp by lia.
  replace ((xb - xa) * (y - yb))
    with ((xb - xa) * (y - ya) + (- (xb - xa)) * (yb - ya)) by ring.
  rewrite Z.div_add by lia. ring.
Qed.

Lemma loop_test_is_crossing (pj pi : point) :
  (let '(xi, yi) := pi in
   let '(xj, yj) := pj in
   xorb (yi >? y) (yj >? y) && (x <? (xj - xi) * (y - yi) / (yj - yi) + xi))
  = ray_crosses x y (pj, pi).
Proof.
  destruct pi as [xi yi], pj as [xj yj]. unfold ray_crosses.
  rewrite (xorb_comm (yi >? y)).
  destruct (xorb (yj >? y) (yi >? y)) eqn:Hx; [|reflexivity].
  simpl. f_equal.
  apply meeting_abscissa_sym.
  intros ->. rewrite xorb_nilpotent in Hx. discriminate.
Qed.

Lemma point_in_polygon_loop_parity (pts : list point) :
  forall (pj : point) (inside : bool),
    point_in_polygon_loop x y pts pj inside
    = xorb inside
        (Nat.odd (length (List.filter (ray_crosses x y) (adjacent pj pts)))).
Proof.
  induction pts as [|pi rest IH]; intros pj inside.
  - simpl. now rewrite xorb_false_r.
  - cbn [point_in_polygon_loop adjacent List.filter].
    pose proof (loop_test_is_crossing pj pi) as Ht.
    destruct pi as [xi yi], pj as [xj yj].
    rewrite Ht, IH.
    destruct (ray_crosses x y _).
    + cbn [length]. rewrite Nat.odd_succ, <- Nat.negb_odd.
      now destruct inside, (Nat.odd _).
    + reflexivity.
Qed.

End RayCasting.

Lemma adjacent_nth (pts : list point) (p : point) :
  adjacent p pts
  = map (fun i => (nth i (p :: pts) (0, 0), nth (S i) (p :: pts) (0, 0)))
        (seq 0 (length pts)).
Proof.
  revert p. induction pts as [|q rest IH]; intros p; [reflexivity|].
  cbn [adjacent length seq map]. f_equal.
  rewrite IH, <- seq_shift, map_map. reflexivity.
Qed.

Lemma nth_length_last (p : point) (pts : list point) :
  nth (length pts) (p :: pts) (0, 0) = List.last (p :: pts) (0, 0).
Proof.
  revert p. induction pts as [|q rest IH]; intros p; [reflexivity|].
  change (nth (length rest) (q :: rest) (0, 0) = List.last (q :: rest) (0, 0)).
  apply IH.
Qed.

(** The edges by index are the pairs met by the loop, rotated by one. *)
Lemma polygon_edges_rotate (p : point) (pts : list point) :
  map (polygon_edge (p :: pts)) (seq 0 (length (p :: pts)))
  = adjacent p pts ++ [(List.last (p :: pts) (0, 0), p)].
Proof.
  assert (Hn : length (p :: pts) = S (length pts)) by reflexivity.
  rewrite Hn, seq_S, map_app, adjacent_nth. cbn [map]. f_equal.
  - apply map_ext_in. intros i Hi. apply in_seq in Hi.
    unfold polygon_edge. rewrite Hn. f_equal.
    rewrite Nat.mod_small by lia. now rewrite Nat.add_1_r.
  - unfold polygon_edge. rewrite Hn, Nat.add_0_l, Nat.add_1_r.
    rewrite Nat.Div0.mod_same. f_equal. f_equal. apply nth_length_last.
Qed.

Lemma crossing_count_adjacent (x y : Z) (p : point) (pts : list point) :
  crossing_count x y (p :: pts)
  = length (List.filter (ray_crosses x y)
              (adjacent (List.last (p :: pts) (0, 0)) (p :: pts))).
Proof.
  unfold crossing_count. rewrite polygon_edges_rotate.
  cbn [adjacent]. rewrite List.filter_app, length_app.
  cbn [List.filter].
  destruct (ray_crosses x y _); cbn [length]; lia.
Qed.

(** C8. [point_in_polygon] answers [False] for a polygon of fewer than
    three points, and otherwise the parity of the number of polygon
    edges (edge [i] from point [i] to point [(i+1) mod n]) that the
    horizontal ray from the point toward [+x] crosses, the point's
    abscissa being compared strictly with that of the crossing. *)
Theorem point_in_polygon_is_ray_casting (x y : Z) (polygon_pts : list point) :
  point_in_polygon x y polygon_pts
  = if (length polygon_pts <? 3)%nat then false
    else Nat.odd (crossing_count x y polygon_pts).
Proof.
  unfold point_in_polygon.
  destruct (length polygon_pts <? 3)%nat; [reflexivity|].
  destruct polygon_pts as [|p pts].
  - reflexivity.
  - rewrite point_in_polygon_loop_parity, crossing_count_adjacent.
    reflexivity.
Qed.

(** The crossing test in terms of products only: the ray from [(x, y)]
    is counted exactly when the edge straddles the line of the ray and
    the point one unit to the right of [x] is still not past the edge. *)
Lemma ray_crosses_products (x y xa ya xb yb : Z) :
  ray_crosses x y ((xa, ya), (xb, yb)) = true <->
  (ya <= y < yb /\ (x + 1 - xa) * (yb - ya) <= (xb - xa) * (y - ya))
  \/ (yb <= y < ya /\ (xb - xa) * (y - ya) <= (x + 1 - xa) * (yb - ya)).
Proof.
  unfold ray_crosses. rewrite andb_true_iff, Z.ltb_lt.
  split.
  - intros [Hx Hlt].
    destruct (Z.gtb_spec ya y), (Z.gtb_spec yb y); try discriminate.
    + right. split; [lia|].
      assert (Hq : x + 1 - xa <= (xb - xa) * (y - ya) / (yb - ya)) by lia.
      replace ((xb - xa) * (y - ya) / (yb - ya))
        with (- ((xb - xa) * (y - ya)) / (ya - yb)) in Hq
        by (rewrite <- Z.div_opp_opp by lia; f_equal; ring).
      pose proof (Z.mul_div_le (- ((xb - xa) * (y - ya))) (ya - yb)) as Hm.
      nia.
    + left. split; [lia|].
      assert (Hq : x + 1 - xa <= (xb - xa) * (y - ya) / (yb - ya)) by lia.
      pose proof (Z.mul_div_le ((xb - xa) * (y - ya)) (yb - ya)) as Hm.
      nia.
  - intros [[Hy Hp]|[Hy Hp]].
    + split.
      * destruct (Z.gtb_spec ya y), (Z.gtb_spec yb y); try reflexivity; lia.
      * assert (x + 1 - xa <= (xb - xa) * (y - ya) / (yb - ya)); [|lia].
        apply Z.div_le_lower_bound; lia.
    + split.
      * destruct (Z.gtb_spec ya y), (Z.gtb_spec yb y); try reflexivity; lia.
      * assert (x + 1 - xa <= (xb - xa) * (y - ya) / (yb - ya)); [|lia].
        replace ((xb - xa) * (y - ya) / (yb - ya))
          with (- ((xb - xa) * (y - ya)) / (ya - yb))
          by (rewrite <- Z.div_opp_opp by lia; f_equal; ring).
        apply Z.div_le_lower_bound; lia.
Qed.

(** C4 (amended). On a segment of zero length (start = end)
    [point_to_segment_distance_sq] returns exactly the squared distance
    from the point to that end point, whichever end is given first.
    (For a segment of non-zero length the closest point is truncated
    toward the first end point, and the value may change when the end
    points are swapped.) *)
Theorem point_to_segment_distance_sq_zero_length (px py x y : Z) :
  point_to_segment_distance_sq px py x y x y
  = Ok ((px - x) ^ 2 + (py - y) ^ 2).
Proof.
  unfold point_to_segment_distance_sq.
  replace ((x - x) * (x - x) + (y - y) * (y - y)) with 0 by ring.
  reflexivity.
Qed.

(** C4 as stated fails: the point (1, 0) lies on the segment from (0, 0)
    to (49, 0); its squared distance is computed as 1 from one end and
    as 0 from the other. *)
Lemma point_to_segment_distance_sq_not_symmetric :
  point_to_segment_distance_sq 1 0 0 0 49 0 = Ok 1
  /\ point_to_segment_distance_sq 1 0 49 0 0 0 = Ok 0.
Proof. split; vm_compute; reflexivity. Qed.

(** The same on a slanted segment. *)
Lemma slanted_segment_distance_differs :
  point_to_segment_distance_sq 2 2 0 0 3 1 = Ok 4
  /\ point_to_segment_distance_sq 2 2 3 1 0 0 = Ok 2.
Proof. split; vm_compute; reflexivity. Qed.

(** ** Clearance validator *)

Lemma check_tracks_loop_reason x y via_radius target_nets clearance
    same_net_clearance layers (ts : list TrackData) (reason : string) :
  check_tracks_loop x y via_radius target_nets clearance same_net_clearance
    layers ts = Ok (Some reason) ->
  reason = "arc"%string \/ reason = "track"%string.
Proof.
  induction ts as [|t rest IH]; cbn [check_tracks_loop]; [discriminate|].
  destruct (negb _ && negb _); [exact IH|].
  destruct (if td_is_arc t then _ else _) as [[[min_tx max_tx] min_ty] max_ty].
  destruct (_ || _); [exact IH|].
  destruct (_ || _); [exact IH|].
  destruct (td_is_arc t).
  - destruct (check_arc_points _ _ _ _); [|exact IH].
    intros [= <-]. now left.
  - destruct (point_to_segment_distance_sq _ _ _ _ _ _) as [d| |];
      cbn; try discriminate.
    destruct (d <? _); [|exact IH].
    intros [= <-]. now right.
Qed.

(** The reasons that the checks after the board outline can give. *)
Lemma check_after_board_reason x y via_radius target_nets clearance
    same_net_clearance boundary_clearance board_data is_fence_mode
    polygon_pts (v : verdict) :
  check_after_board x y via_radius target_nets clearance same_net_clearance
    boundary_clearance board_data is_fence_mode polygon_pts = Ok v ->
  v.2 ∈ ["zone_edge"; "pad"; "via"; "arc"; "track"; "rule_area"; ""]%string.
Proof.
  unfold check_after_board. intros E.
  apply bind_Ok in E as (zone_edge & _ & E).
  destruct zone_edge; [injection E as <-; in_list|].
  destruct (check_pads_loop _ _ _ _ _ _); [injection E as <-; in_list|].
  destruct (check_vias_loop _ _ _ _ _ _ _); [injection E as <-; in_list|].
  apply bind_Ok in E as (track & Ht & E).
  destruct track as [reason|].
  - injection E as <-. apply check_tracks_loop_reason in Ht as [-> | ->];
      in_list.
  - apply bind_Ok in E as (rule & _ & E).
    destruct rule; injection E as <-; in_list.
Qed.

(** C9. With an empty board outline the validator skips both board
    checks: it does exactly what the remaining checks do, and whatever
    verdict it returns has neither the reason [outside_board] nor the
    reason [board_edge]. *)
Theorem empty_outline_skips_board_checks x y via_radius target_nets clearance
    same_net_clearance boundary_clearance board_data is_fence_mode
    polygon_pts :
  board_outline board_data = [] ->
  check_position_parallel x y via_radius target_nets clearance
    same_net_clearance boundary_clearance board_data is_fence_mode polygon_pts
  = check_after_board x y via_radius target_nets clearance
      same_net_clearance boundary_clearance board_data is_fence_mode
      polygon_pts
  /\ forall v : verdict,
       check_position_parallel x y via_radius target_nets clearance
         same_net_clearance boundary_clearance board_data is_fence_mode
         polygon_pts = Ok v ->
       v.2 <> "outside_board"%string /\ v.2 <> "board_edge"%string.
Proof.
  intros Hout.
  assert (Heq : check_position_parallel x y via_radius target_nets clearance
    same_net_clearance boundary_clearance board_data is_fence_mode polygon_pts
    = check_after_board x y via_radius target_nets clearance
        same_net_clearance boundary_clearance board_data is_fence_mode
        polygon_pts).
  { unfold check_position_parallel. rewrite Hout. reflexivity. }
  split; [exact Heq|].
  intros v Hv. rewrite Heq in Hv.
  apply check_after_board_reason in Hv.
  split; intros E; rewrite E in Hv;
    repeat (apply elem_of_cons in Hv as [Hv|Hv]; [discriminate Hv|]);
    now apply elem_of_nil in Hv.
Qed.

Lemma empty_outline_skips_board_checks_witness :
  board_outline (with_vias bare_board [small_via]) = []
  /\ check_position_parallel 100 0 300000 gnd 200000 from_mm_0_127 300000
       (with_vias bare_board [small_via]) false None
     = Ok (rejected_at 100 0 "via").
Proof.
  split; [reflexivity|].
  destruct (empty_outline_skips_board_checks 100 0 300000 gnd 200000
              from_mm_0_127 300000 (with_vias bare_board [small_via])
              false None eq_refl) as [-> _].
  vm_compute. reflexivity.
Defined.

(** *** Clearance to existing vias *)

Section ViaClearance.
Variables (x y via_radius : Z) (target_nets : gset string).
Variables (clearance same_net_clearance : Z).

Local Abbreviation via_loop :=
  (check_vias_loop x y via_radius target_nets clearance same_net_clearance).
Local Abbreviation required :=
  (required_via_distance via_radius target_nets clearance same_net_clearance).

Lemma check_vias_loop_app (l1 l2 : list ViaData) :
  via_loop (l1 ++ l2) = via_loop l1 || via_loop l2.
Proof.
  induction l1 as [|v l1 IH]; [reflexivity|].
  cbn [app check_vias_loop].
  destruct ((Z.abs _ >? _) || _); [exact IH|].
  destruct (_ <? _); [reflexivity|exact IH].
Qed.

(** One via rejects exactly when it passes the pre-filter and its centre
    is strictly closer than the required distance. *)
Lemma check_vias_loop_single (via : ViaData) :
  via_loop [via]
  = via_prefilter_passes x y via_radius clearance via
    && (via_distance_sq x y via <? required via * required via).
Proof.
  unfold via_prefilter_passes, via_distance_sq, required_via_distance.
  cbn [check_vias_loop].
  destruct (_ || _); cbn [negb andb]; [reflexivity|].
  destruct (_ <? _); reflexivity.
Qed.

(** A via at the required distance or farther never rejects: the
    comparison is strict. *)
Lemma via_at_required_distance_passes (via : ViaData) :
  required via * required via <= via_distance_sq x y via ->
  via_loop [via] = false.
Proof.
  intros Hd. rewrite check_vias_loop_single.
  apply andb_false_iff. right. apply Z.ltb_ge. exact Hd.
Qed.

(** A closer via rejects when the pre-filter lets it through. *)
Lemma via_closer_rejects_when_checked (via : ViaData) :
  via_prefilter_passes x y via_radius clearance via = true ->
  via_distance_sq x y via < required via * required via ->
  via_loop [via] = true.
Proof.
  intros Hp Hd. rewrite check_vias_loop_single, Hp.
  apply Z.ltb_lt. exact Hd.
Qed.

(** For a via of a target net the required distance is built from the
    same-net clearance, whatever the configured copper clearance is. *)
Lemma required_distance_same_net (via : ViaData) :
  vd_net via ∈ target_nets ->
  required via = via_radius + vd_radius via + same_net_clearance.
Proof.
  intros Hin. unfold required_via_distance.
  now rewrite bool_decide_eq_true_2.
Qed.

Lemma required_distance_other_net (via : ViaData) :
  vd_net via ∉ target_nets ->
  required via = via_radius + vd_radius via + clearance.
Proof.
  intros Hin. unfold required_via_distance.
  now rewrite bool_decide_eq_false_2.
Qed.

Variables (boundary_clearance : Z) (board_data : BoardData).
Variables (is_fence_mode : bool) (polygon_pts : option (list point)).

Local Abbreviation check vs :=
  (check_position_parallel x y via_radius target_nets clearance
     same_net_clearance boundary_clearance (with_vias board_data vs)
     is_fence_mode polygon_pts).

(** Adding one via to a board on which the candidate is accepted: the
    candidate stays accepted unless that via rejects it, and then the
    reason is [via]. *)
Lemma check_position_with_one_more_via (l1 l2 : list ViaData) (via : ViaData) :
  check (l1 ++ l2) = Ok (accepted_at x y) ->
  check (l1 ++ via :: l2)
  = if via_loop [via] then Ok (rejected_at x y "via")
    else Ok (accepted_at x y).
Proof.
  unfold check_position_parallel, check_after_board.
  cbn [with_vias board_outline pads vias tracks zone_polygons copper_layers].
  change (l1 ++ via :: l2) with (l1 ++ [via] ++ l2).
  rewrite !check_vias_loop_app.
  generalize (check_vias_loop x y via_radius target_nets clearance
                same_net_clearance [via]) as rejects.
  intros rejects.
  destruct (negb _ && negb _); [discriminate|].
  destruct (if negb (is_nil (board_outline board_data)) then _ else _)
    as [[|]| |]; cbn; try discriminate.
  destruct (if negb is_fence_mode && _ then _ else _)
    as [[|]| |]; cbn; try discriminate.
  destruct (check_pads_loop _ _ _ _ _ _); [discriminate|].
  destruct (check_vias_loop _ _ _ _ _ _ l1); [discriminate|].
  destruct (check_vias_loop _ _ _ _ _ _ l2); [discriminate|].
  cbn [orb]. rewrite orb_false_r. intros E.
  destruct rejects; [reflexivity|exact E].
Qed.

(** The first two parts of C2: at exactly the required distance the
    candidate is accepted when all other checks pass. *)
Lemma candidate_at_required_distance_accepted (l1 l2 : list ViaData)
    (via : ViaData) :
  check (l1 ++ l2) = Ok (accepted_at x y) ->
  via_distance_sq x y via = required via * required via ->
  check (l1 ++ via :: l2) = Ok (accepted_at x y).
Proof.
  intros Hc Hd. rewrite (check_position_with_one_more_via _ _ _ Hc).
  rewrite via_at_required_distance_passes; [reflexivity|lia].
Qed.

(** A closer candidate is rejected with reason [via], provided the
    pre-filter lets the via through. *)
Lemma closer_candidate_rejected_when_checked (l1 l2 : list ViaData)
    (via : ViaData) :
  check (l1 ++ l2) = Ok (accepted_at x y) ->
  via_prefilter_passes x y via_radius clearance via = true ->
  via_distance_sq x y via < required via * required via ->
  check (l1 ++ via :: l2) = Ok (rejected_at x y "via").
Proof.
  intros Hc Hp Hd. rewrite (check_position_with_one_more_via _ _ _ Hc).
  now rewrite via_closer_rejects_when_checked.
Qed.

(** The pre-filter lets every via of radius up to 1.5mm through, when it
    is of another net and the candidate is closer than required. *)
Lemma prefilter_passes_small_via (via : ViaData) :
  vd_net via ∉ target_nets ->
  0 <= required via ->
  vd_radius via <= from_mm_1_5 ->
  via_distance_sq x y via < required via * required via ->
  via_prefilter_passes x y via_radius clearance via = true.
Proof.
  intros Hnet Hpos Hr Hd.
  rewrite (required_distance_other_net _ Hnet) in *.
  unfold via_prefilter_passes, via_distance_sq in *.
  apply negb_true_iff, orb_false_iff.
  pose proof (Z.abs_nonneg (x - vd_x via)) as Hax.
  pose proof (Z.abs_nonneg (y - vd_y via)) as Hay.
  pose proof (Z.abs_square (x - vd_x via)) as Hsx.
  pose proof (Z.abs_square (y - vd_y via)) as Hsy.
  set (R := via_radius + vd_radius via + clearance) in *.
  assert (HR : R <= via_radius + clearance + from_mm_1_5)
    by (subst R; lia).
  split; rewrite Z.gtb_ltb; apply Z.ltb_ge.
  - destruct (Z.le_gt_cases (Z.abs (x - vd_x via)) R); [lia|]. nia.
  - destruct (Z.le_gt_cases (Z.abs (y - vd_y via)) R); [lia|]. nia.
Qed.

End ViaClearance.

(** C2 fails on the code for a large existing via.  An existing via of
    radius 2mm on another net, a candidate of radius 0.3mm, clearance
    0.2mm: the required centre distance is 2.5mm, the candidate one
    nanometre closer is accepted, because the pre-filter (candidate
    radius + clearance + 1.5mm = 2mm) skips the via before the distance
    is compared. *)
Theorem large_via_closer_candidate_accepted :
  required_via_distance 300000 gnd 200000 from_mm_0_127 large_via = 2500000
  /\ via_distance_sq 2499999 0 large_via < 2500000 * 2500000
  /\ check_position_parallel 2499999 0 300000 gnd 200000 from_mm_0_127 300000
       (with_vias bare_board [large_via]) false None
     = Ok (accepted_at 2499999 0).
Proof. repeat split; vm_compute; reflexivity. Qed.

(** The same via lets in a candidate whose copper overlaps its own: the
    centres are 2.1mm apart, the radii add up to 2.3mm. *)
Lemma large_via_overlapping_candidate_accepted :
  check_position_parallel 2100000 0 300000 gnd 200000 from_mm_0_127 300000
    (with_vias bare_board [large_via]) false None
  = Ok (accepted_at 2100000 0).
Proof. vm_compute. reflexivity. Qed.

(** With an existing via of ordinary size the three parts of C2 hold on
    the same board: accepted at the required distance, rejected one
    nanometre closer. *)
Lemma small_via_boundary :
  check_position_parallel 800000 0 300000 gnd 200000 from_mm_0_127 300000
    (with_vias bare_board [small_via]) false None
  = Ok (accepted_at 800000 0)
  /\ check_position_parallel 799999 0 300000 gnd 200000 from_mm_0_127 300000
       (with_vias bare_board [small_via]) false None
     = Ok (rejected_at 799999 0 "via").
Proof. split; vm_compute; reflexivity. Qed.

(** ** Grid generator *)

Lemma flat_map_shift {A B C} (f : B -> list C) (g : A -> B) (l : list A) :
  flat_map f (map g l) = flat_map (fun a => f (g a)) l.
Proof.
  induction l as [|a l IH]; [reflexivity|].
  cbn [map flat_map]. now rewrite IH.
Qed.

Section Grid.
Variables (config : StitchingConfig) (tape : nat -> Z).
Variables (max_x max_y s : Z).
Hypothesis s_pos : 0 < s.
Hypothesis no_stagger : stagger_rows config = false.
Hypothesis no_jitter : random_offset config = false.

(** The number of loop iterations from [v] up to [hi] in steps of [s]. *)
Local Abbreviation steps v hi := (Z.to_nat ((hi - v) / s + 1)).

Lemma steps_past (v hi : Z) : hi < v -> steps v hi = 0%nat.
Proof.
  intros Hlt.
  assert ((hi - v) / s < 0) by (apply Z.div_lt_upper_bound; lia).
  lia.
Qed.

Lemma steps_next (v hi : Z) : v <= hi -> steps v hi = S (steps (v + s) hi).
Proof.
  intros Hle.
  replace (hi - (v + s)) with (hi - v + (-1) * s) by ring.
  rewrite Z.div_add by lia.
  assert (0 <= (hi - v) / s) by (apply Z.div_pos; lia).
  lia.
Qed.

Lemma grid_columns_loop_plain (y : Z) (cursor : nat) :
  forall (n fuel : nat) (x : Z) (positions : list point),
    n = steps x max_x -> (n < fuel)%nat ->
    grid_columns_loop fuel config tape max_x s y x cursor positions
    = Ok (positions ++ map (fun i => (x + Z.of_nat i * s, y)) (seq 0 n),
          cursor).
Proof.
  induction n as [|n IH]; intros fuel x positions Hn Hfuel.
  - destruct fuel as [|fuel]; [lia|]. cbn [grid_columns_loop].
    destruct (Z.leb_spec x max_x) as [Hle|Hgt].
    + rewrite (steps_next _ _ Hle) in Hn. discriminate.
    + cbn. now rewrite app_nil_r.
  - destruct fuel as [|fuel]; [lia|]. cbn [grid_columns_loop].
    destruct (Z.leb_spec x max_x) as [Hle|Hgt].
    + rewrite no_jitter. cbn [mbind res_bind].
      rewrite (steps_next _ _ Hle) in Hn. injection Hn as Hn.
      rewrite (IH fuel (x + s) _ Hn) by lia.
      rewrite <- app_assoc. cbn [app].
      assert (E : (x, y) :: map (fun i => (x + s + Z.of_nat i * s, y)) (seq 0 n)
                  = map (fun i => (x + Z.of_nat i * s, y)) (seq 0 (S n))).
      { cbn [seq map]. f_equal.
        - f_equal. cbn. ring.
        - rewrite <- seq_shift, map_map. apply map_ext. intros i.
          f_equal. rewrite Nat2Z.inj_succ. ring. }
      exact (f_equal (fun l => Ok (positions ++ l, cursor)) E).
    + rewrite (steps_past _ _ Hgt) in Hn. discriminate.
Qed.

Lemma grid_rows_loop_plain (start_x : Z) (cursor : nat) (fuel0 : nat) :
  (steps start_x max_x < fuel0)%nat ->
  forall (m fuel : nat) (y row : Z) (positions : list point),
    m = steps y max_y -> (m < fuel)%nat ->
    grid_rows_loop fuel fuel0 config tape max_x max_y s start_x y row cursor
      positions
    = Ok (positions ++ grid_points start_x y s (steps start_x max_x) m,
          cursor).
Proof.
  intros Hcols.
  induction m as [|m IH]; intros fuel y row positions Hm Hfuel.
  - destruct fuel as [|fuel]; [lia|]. cbn [grid_rows_loop].
    destruct (Z.leb_spec y max_y) as [Hle|Hgt].
    + rewrite (steps_next _ _ Hle) in Hm. discriminate.
    + cbn. now rewrite app_nil_r.
  - destruct fuel as [|fuel]; [lia|]. cbn [grid_rows_loop].
    destruct (Z.leb_spec y max_y) as [Hle|Hgt].
    + rewrite no_stagger. cbn [andb]. rewrite Z.add_0_r.
      rewrite (grid_columns_loop_plain y cursor _ fuel0 start_x positions
                 eq_refl Hcols).
      cbn [mbind res_bind].
      rewrite (steps_next _ _ Hle) in Hm. injection Hm as Hm.
      rewrite (IH fuel (y + s) _ _ Hm) by lia.
      rewrite <- app_assoc.
      assert (E : map (fun i => (start_x + Z.of_nat i * s, y))
                      (seq 0 (steps start_x max_x))
                  ++ grid_points start_x (y + s) s (steps start_x max_x) m
                  = grid_points start_x y s (steps start_x max_x) (S m)).
      { unfold grid_points. cbn [seq flat_map]. f_equal.
        - apply map_ext. intros i. f_equal. cbn. ring.
        - rewrite <- seq_shift, flat_map_shift.
          apply flat_map_ext. intros j. apply map_ext. intros i. f_equal.
          rewrite Nat2Z.inj_succ. ring. }
      exact (f_equal (fun l => Ok (positions ++ l, cursor)) E).
    + rewrite (steps_past _ _ Hgt) in Hm. discriminate.
Qed.

End Grid.

Lemma grid_points_length (x0 y0 s : Z) (cols rows : nat) :
  length (grid_points x0 y0 s cols rows) = (cols * rows)%nat.
Proof.
  unfold grid_points.
  assert (E : forall j0 : nat,
    length (flat_map
              (fun j => map (fun i => (x0 + Z.of_nat i * s, y0 + Z.of_nat j * s))
                            (seq 0 cols))
              (seq j0 rows)) = (cols * rows)%nat).
  { induction rows as [|rows IH]; intros j0; [cbn; lia|].
    cbn [seq flat_map]. rewrite length_app, length_map, length_seq, IH. lia. }
  apply E.
Qed.

(** The start of the grid is the least multiple of [s] that is not less
    than the minimum corner. *)
Lemma ceiling_snap (lo s : Z) :
  0 < s -> (cdiv lo s * s) mod s = 0 /\ lo <= cdiv lo s * s < lo + s.
Proof.
  intros Hs. unfold cdiv. split.
  - apply Z.mod_mul. lia.
  - pose proof (Z.mul_div_le (lo + s - 1) s Hs).
    pose proof (Z.mul_succ_div_gt (lo + s - 1) s Hs).
    lia.
Qed.

Lemma steps_from_snap (lo hi s : Z) :
  0 < s -> Z.to_nat ((hi - cdiv lo s * s) / s + 1) = axis_count lo hi s.
Proof.
  intros Hs. unfold axis_count.
  replace (hi - cdiv lo s * s) with (hi + (- cdiv lo s) * s) by ring.
  rewrite Z.div_add by lia. f_equal; ring.
Qed.

(** The count along one axis against the formula of the claim. *)
Lemma axis_count_bounds (lo hi s : Z) :
  0 < s -> lo <= hi ->
  (hi - lo) / s <= Z.of_nat (axis_count lo hi s) <= cdiv (hi - lo) s + 1.
Proof.
  intros Hs Hle. unfold axis_count, cdiv.
  pose proof (Z.mul_div_le hi s Hs).
  pose proof (Z.mul_succ_div_gt hi s Hs).
  pose proof (Z.mul_div_le (lo + s - 1) s Hs).
  pose proof (Z.mul_succ_div_gt (lo + s - 1) s Hs).
  pose proof (Z.mul_div_le (hi - lo) s Hs).
  pose proof (Z.mul_succ_div_gt (hi - lo) s Hs).
  pose proof (Z.mul_div_le (hi - lo + s - 1) s Hs).
  pose proof (Z.mul_succ_div_gt (hi - lo + s - 1) s Hs).
  split; nia.
Qed.

Lemma axis_count_aligned (lo hi s : Z) :
  0 < s -> lo <= hi -> lo mod s = 0 -> hi mod s = 0 ->
  Z.of_nat (axis_count lo hi s) = cdiv (hi - lo) s + 1.
Proof.
  intros Hs Hle Hlo Hhi. unfold axis_count, cdiv.
  apply Z.div_exact in Hlo, Hhi; try lia.
  set (a := lo / s) in *. set (b := hi / s) in *.
  assert (E1 : (lo + s - 1) / s = a).
  { rewrite Hlo. replace (s * a + s - 1) with ((s - 1) + a * s) by ring.
    rewrite Z.div_add by lia. rewrite Z.div_small; lia. }
  assert (E2 : (hi - lo + s - 1) / s = b - a).
  { rewrite Hhi, Hlo.
    replace (s * b - s * a + s - 1) with ((s - 1) + (b - a) * s) by ring.
    rewrite Z.div_add by lia. rewrite Z.div_small; lia. }
  rewrite E1, E2. nia.
Qed.

(** C6 (amended). With stagger and jitter off and a positive spacing
    [s], the grid generator starts at the least multiple of [s] not less
    than each minimum coordinate and, given fuel for its loops, returns
    the regular grid of [cols] by [rows] points, where along each axis
    the count is [floor(max/s) - ceil(min/s) + 1].  That count lies
    between [floor(W/s)] and [ceil(W/s) + 1], and equals
    [ceil(W/s) + 1] when both bounds of the box are multiples of [s]. *)
Theorem grid_positions_plain (fuel : nat) (tape : nat -> Z) (cursor : nat)
    (min_x min_y max_x max_y : Z) (config : StitchingConfig) :
  let s := grid_spacing_nm config in
  let cols := axis_count min_x max_x s in
  let rows := axis_count min_y max_y s in
  let grid := grid_points (cdiv min_x s * s) (cdiv min_y s * s) s cols rows in
  0 < s -> stagger_rows config = false -> random_offset config = false ->
  min_x <= max_x -> min_y <= max_y ->
  (cols < fuel)%nat -> (rows < fuel)%nat ->
  generate_grid_positions fuel tape cursor min_x min_y max_x max_y config
  = Ok (grid, cursor)
  /\ length grid = (cols * rows)%nat
  /\ (min_x <= cdiv min_x s * s < min_x + s
      /\ min_y <= cdiv min_y s * s < min_y + s)
  /\ ((max_x - min_x) / s <= Z.of_nat cols <= cdiv (max_x - min_x) s + 1
      /\ (max_y - min_y) / s <= Z.of_nat rows <= cdiv (max_y - min_y) s + 1)
  /\ (min_x mod s = 0 -> max_x mod s = 0 ->
      Z.of_nat cols = cdiv (max_x - min_x) s + 1)
  /\ (min_y mod s = 0 -> max_y mod s = 0 ->
      Z.of_nat rows = cdiv (max_y - min_y) s + 1).
Proof.
  intros s cols rows grid Hs Hst Hji Hx Hy Hfx Hfy.
  repeat split;
    try apply ceiling_snap; try apply axis_count_bounds;
    try (subst grid; apply grid_points_length);
    try (intros; now apply axis_count_aligned); try assumption.
  unfold generate_grid_positions, py_floordiv. fold s.
  destruct (Z.eqb_spec s 0) as [E|_]; [lia|].
  cbn [mbind res_bind]. fold (cdiv min_x s) (cdiv min_y s).
  rewrite (grid_rows_loop_plain config tape max_x max_y s Hs Hst Hji
             (cdiv min_x s * s) cursor fuel
             ltac:(rewrite steps_from_snap by exact Hs; exact Hfx)
             rows fuel (cdiv min_y s * s) 0 []
             ltac:(now rewrite steps_from_snap by exact Hs) Hfy).
  rewrite steps_from_snap by exact Hs. reflexivity.
Qed.

Lemma grid_positions_plain_witness :
  generate_grid_positions 9 zero_tape 0 0 0 12 12 (plain_grid_config 3)
  = Ok (grid_points 0 0 3 5 5, 0%nat)
  /\ cdiv (12 - 0) 3 + 1 = 5.
Proof.
  split; [|reflexivity].
  apply (grid_positions_plain 9 zero_tape 0 0 0 12 12 (plain_grid_config 3));
    first [reflexivity | vm_compute; lia | cbn; lia].
Defined.

(** C6 as stated fails: on the box from (0, 0) to (10, 10) with spacing 3
    the generator returns 4 x 4 = 16 points, not
    (ceil(10/3) + 1) x (ceil(10/3) + 1) = 25. *)
Lemma grid_positions_count_differs :
  (fun r => length r.1)
    <$> generate_grid_positions 9 zero_tape 0 0 0 10 10 (plain_grid_config 3)
  = Ok 16%nat
  /\ (cdiv (10 - 0) 3 + 1) * (cdiv (10 - 0) 3 + 1) = 25.
Proof. split; vm_compute; reflexivity. Qed.

(** ** Floats by sign *)

Lemma iter_pos_invariant {A} (P : A -> Prop) (f : A -> A) :
  (forall a, P a -> P (f a)) ->
  forall (p : positive) (a : A), P a -> P (SpecFloat.iter_pos f p a).
Proof.
  intros Hf. induction p as [p IH|p IH|]; intros a Ha; cbn; auto.
Qed.

Lemma shr_1_nonneg (mrs : shr_record) :
  0 <= shr_m mrs -> 0 <= shr_m (shr_1 mrs).
Proof.
  destruct mrs as [m r s]. cbn [shr_m]. intros Hm.
  destruct m as [|[p|p|]|p]; cbn; lia.
Qed.

Lemma shr_fexp_nonneg (m e : Z) (l : location) :
  0 <= m -> 0 <= shr_m (fst (shr_fexp 53 1024 m e l)).
Proof.
  intros Hm. unfold shr_fexp, shr.
  assert (H0 : 0 <= shr_m (shr_record_of_loc m l))
    by (destruct l as [|[| |]]; exact Hm).
  destruct (_ - e) as [|p|p]; cbn [fst]; try exact H0.
  apply (iter_pos_invariant (fun mrs => 0 <= shr_m mrs));
    [exact shr_1_nonneg|exact H0].
Qed.

(** Rounding a non-negative mantissa gives a number of the sign asked
    for, never a NaN. *)
Lemma binary_round_aux_sign (s : bool) (m e : Z) (l : location) :
  0 <= m -> has_sign s (binary_round_aux 53 1024 s m e l).
Proof.
  intros Hm. unfold binary_round_aux.
  pose proof (shr_fexp_nonneg m e l Hm) as H1.
  destruct (shr_fexp 53 1024 m e l) as [mrs' e']. cbn [fst] in H1.
  assert (H2 : 0 <= round_nearest_even (shr_m mrs') (loc_of_shr_record mrs')).
  { unfold round_nearest_even.
    destruct (loc_of_shr_record mrs') as [|[| |]]; try lia.
    destruct (Z.even _); lia. }
  pose proof (shr_fexp_nonneg _ e' loc_Exact H2) as H3.
  destruct (shr_fexp 53 1024 _ e' loc_Exact) as [mrs'' e''].
  cbn [fst] in H3.
  destruct (shr_m mrs'') as [|p|p]; [reflexivity| |lia].
  destruct (e'' <=? _); reflexivity.
Qed.

Lemma float_of_int_sign (z : Z) (f : float) :
  float_of_int z = Ok f -> has_sign (z <? 0) f.
Proof.
  unfold float_of_int, dyadic, binary_normalize.
  destruct z as [|p|p]; cbn [Z.ltb Z.compare].
  - intros [= <-]. reflexivity.
  - destruct (is_inf _) eqn:E; [discriminate|]. intros [= <-].
    unfold binary_round.
    destruct (shl_align _ _ _) as [mz ez]. now apply binary_round_aux_sign.
  - destruct (is_inf _) eqn:E; [discriminate|]. intros [= <-].
    unfold binary_round.
    destruct (shl_align _ _ _) as [mz ez]. now apply binary_round_aux_sign.
Qed.

Lemma fdiv_finite_sign (sx sy : bool) (mx my : positive) (ex ey : Z) :
  has_sign (xorb sx sy)
    (fdiv (S754_finite sx mx ex) (S754_finite sy my ey)).
Proof.
  unfold fdiv, SFdiv, SFdiv_core_binary.
  set (m' := match _ - _ - _ with Z.pos _ => _ | _ => _ end).
  assert (Hm' : 0 <= m').
  { subst m'. destruct (_ - _ - _); try lia.
    rewrite Z.shiftl_mul_pow2 by lia. apply Z.mul_nonneg_nonneg; lia. }
  pose proof (Z.div_pos m' (Z.pos my) Hm' ltac:(lia)) as Hq.
  unfold Z.div in Hq.
  destruct (Z.div_eucl m' (Z.pos my)) as [q r].
  now apply binary_round_aux_sign.
Qed.

Lemma fdiv_sign (sx sy : bool) (x y : float) :
  has_sign sx x -> has_sign sy y -> is_zero y = false ->
  is_inf y = false \/ is_inf x = false ->
  has_sign (xorb sx sy) (fdiv x y).
Proof.
  intros Hx Hy Hz Hinf.
  destruct x as [s1|s1| |s1 m1 e1], y as [s2|s2| |s2 m2 e2];
    cbn in Hx, Hy, Hz, Hinf; subst; try contradiction; try discriminate;
    try (destruct Hinf; discriminate); try reflexivity.
  apply fdiv_finite_sign.
Qed.

Lemma fsqrt_sign (f : float) : has_sign false f -> has_sign false (fsqrt f).
Proof.
  destruct f as [s|s| |s m e]; cbn; intros Hs; subst; try contradiction;
    try reflexivity.
  unfold SFsqrt_core_binary.
  set (m' := match _ - _ with Z.pos _ => _ | _ => _ end).
  assert (Hm' : 0 <= m').
  { subst m'. destruct (_ - _) eqn:E; try lia.
    rewrite Z.shiftl_mul_pow2 by lia. apply Z.mul_nonneg_nonneg; lia. }
  pose proof (Z.sqrtrem_spec m' Hm') as Hs.
  destruct (Z.sqrtrem m') as [q r].
  apply binary_round_aux_sign. lia.
Qed.

(** [math.sqrt] of a non-negative integer is a non-negative float. *)
Lemma math_sqrt_sign (k : Z) (v : num) :
  0 <= k -> math_sqrt (Int k) = Ok v ->
  exists f, v = Flt f /\ has_sign false f.
Proof.
  intros Hk E. unfold math_sqrt in E.
  apply bind_Ok in E as (f & Hf & E). cbn [to_float] in Hf.
  apply float_of_int_sign in Hf.
  replace (k <? 0) with false in Hf by (symmetry; apply Z.ltb_ge; lia).
  exists (fsqrt f). split; [|now apply fsqrt_sign].
  destruct f as [s|s| |s m e]; cbn in Hf; subst; try contradiction;
    now injection E as <-.
Qed.

(** A float that is not negative is not less than an integer that is not
    positive. *)
Lemma nonneg_float_not_below (f : float) (k : Z) :
  has_sign false f -> k <= 0 -> py_lt (Flt f) (Int k) = false.
Proof.
  intros Hs Hk. unfold py_lt, num_compare, int_float_compare.
  destruct f as [s|s| |s m e]; cbn in Hs; subst; try contradiction; cbn.
  - destruct (Z.compare_spec k 0); try reflexivity; lia.
  - reflexivity.
  - unfold signed.
    destruct (0 <=? e) eqn:He.
    + assert (0 < Z.pos m * 2 ^ e) by (apply Z.mul_pos_pos; lia).
      destruct (Z.compare_spec k (Z.pos m * 2 ^ e)); try reflexivity; lia.
    + assert (0 <= 2 ^ (- e)) by (apply Z.pow_nonneg; lia).
      destruct (Z.compare_spec (k * 2 ^ (- e)) (Z.pos m)); try reflexivity; nia.
Qed.


(** *** Positive floats *)

Lemma shr_1_half (mrs : shr_record) :
  0 <= shr_m mrs -> shr_m (shr_1 mrs) = shr_m mrs / 2.
Proof.
  destruct mrs as [m r s]. cbn [shr_m]. intros Hm.
  destruct m as [|[p|p|]|p]; cbn [shr_1 shr_m]; try lia.
  - reflexivity.
  - apply Z.div_unique with 1; lia.
  - apply Z.div_unique with 0; lia.
  - reflexivity.
Qed.

Lemma iter_shr_1 (p : positive) :
  forall mrs : shr_record,
    0 <= shr_m mrs ->
    shr_m (SpecFloat.iter_pos shr_1 p mrs) = shr_m mrs / 2 ^ Z.pos p.
Proof.
  assert (Hnn : forall q mrs, 0 <= shr_m mrs ->
                  0 <= shr_m (SpecFloat.iter_pos shr_1 q mrs))
    by (intros q mrs; apply (iter_pos_invariant (fun x => 0 <= shr_m x));
        exact shr_1_nonneg).
  induction p as [p IH|p IH|]; intros mrs Hm; cbn [SpecFloat.iter_pos].
  - rewrite IH, IH, shr_1_half by auto using shr_1_nonneg.
    assert (0 < 2 ^ Z.pos p) by (apply Z.pow_pos_nonneg; lia).
    rewrite !Z.div_div by lia. f_equal.
    replace (Z.pos p~1) with (1 + Z.pos p + Z.pos p) by lia.
    rewrite !Z.pow_add_r by lia. ring.
  - rewrite IH, IH by auto.
    assert (0 < 2 ^ Z.pos p) by (apply Z.pow_pos_nonneg; lia).
    rewrite !Z.div_div by lia. f_equal.
    replace (Z.pos p~0) with (Z.pos p + Z.pos p) by lia.
    rewrite !Z.pow_add_r by lia. ring.
  - rewrite shr_1_half by exact Hm. reflexivity.
Qed.

Lemma digits2_pos_bound (p : positive) :
  2 ^ (Z.pos (digits2_pos p) - 1) <= Z.pos p.
Proof.
  induction p as [p IH|p IH|]; cbn [digits2_pos];
    try (rewrite Pos2Z.inj_succ;
         replace (Z.succ (Z.pos (digits2_pos p)) - 1)
           with (1 + (Z.pos (digits2_pos p) - 1)) by lia;
         rewrite Z.pow_add_r by lia; change (2 ^ 1) with 2; lia).
  reflexivity.
Qed.

(** A float exponent that is not below the least exponent of binary64. *)
Lemma shr_fexp_positive (m e : Z) (l : location) :
  0 < m -> -1074 <= e ->
  0 < shr_m (fst (shr_fexp 53 1024 m e l))
  /\ -1074 <= snd (shr_fexp 53 1024 m e l).
Proof.
  intros Hm He. unfold shr_fexp, shr.
  assert (H0 : shr_m (shr_record_of_loc m l) = m)
    by (destruct l as [|[| |]]; reflexivity).
  destruct (fexp 53 1024 (Zdigits2 m + e) - e) as [|p|p] eqn:Hn;
    cbn [fst snd]; rewrite ?H0; try (split; lia).
  rewrite iter_shr_1 by (rewrite H0; lia). rewrite H0.
  split; [|lia].
  destruct m as [|q|q]; try lia. cbn [Zdigits2] in Hn.
  pose proof (digits2_pos_bound q) as Hd.
  unfold fexp, emin in Hn.
  assert (Hp : Z.pos p <= Z.pos (digits2_pos q) - 1) by lia.
  assert (2 ^ Z.pos p <= 2 ^ (Z.pos (digits2_pos q) - 1))
    by (apply Z.pow_le_mono_r; lia).
  apply Z.div_str_pos. split; [apply Z.pow_pos_nonneg; lia|lia].
Qed.

Lemma binary_round_aux_nonzero (s : bool) (m e : Z) (l : location) :
  0 < m -> -1074 <= e ->
  match binary_round_aux 53 1024 s m e l with
  | S754_zero _ | S754_nan => False
  | S754_infinity s' => s' = s
  | S754_finite s' _ e' => s' = s /\ -1074 <= e'
  end.
Proof.
  intros Hm He. unfold binary_round_aux.
  pose proof (shr_fexp_positive m e l Hm He) as [H1 H1e].
  destruct (shr_fexp 53 1024 m e l) as [mrs' e']. cbn [fst snd] in H1, H1e.
  assert (H2 : 0 < round_nearest_even (shr_m mrs') (loc_of_shr_record mrs')).
  { unfold round_nearest_even.
    destruct (loc_of_shr_record mrs') as [|[| |]]; try lia.
    destruct (Z.even _); lia. }
  pose proof (shr_fexp_positive _ e' loc_Exact H2 H1e) as [H3 H3e].
  destruct (shr_fexp 53 1024 _ e' loc_Exact) as [mrs'' e''].
  cbn [fst snd] in H3, H3e.
  destruct (shr_m mrs'') as [|p|p]; try lia.
  destruct (e'' <=? _); [split; [reflexivity|exact H3e]|reflexivity].
Qed.

(** A float that is positive: finite with a clear sign bit and an
    exponent of binary64, or the positive infinity. *)
Lemma float_of_int_positive (z : Z) (f : float) :
  0 < z -> float_of_int z = Ok f -> is_positive f.
Proof.
  intros Hz. unfold float_of_int, dyadic, binary_normalize.
  destruct z as [|p|p]; try lia.
  destruct (is_inf _); [discriminate|]. intros [= <-].
  unfold binary_round.
  destruct (shl_align p 0 _) as [mz ez] eqn:Hal.
  assert (Hez : -1074 <= ez).
  { unfold shl_align in Hal.
    destruct (fexp 53 1024 (Z.pos (digits2_pos p) + 0) - 0) eqn:Hd;
      injection Hal as <- <-; try lia.
    unfold fexp, emin. lia. }
  pose proof (binary_round_aux_nonzero false (Z.pos mz) ez loc_Exact
                ltac:(lia) Hez) as Hr.
  destruct (binary_round_aux 53 1024 false (Z.pos mz) ez loc_Exact)
    as [s|s| |s m e]; cbn [is_positive]; try contradiction.
  - now subst s.
  - destruct Hr as [-> Hr]. exact Hr.
Qed.

Lemma fsqrt_positive (f : float) : is_positive f -> is_positive (fsqrt f).
Proof.
  destruct f as [s|[|]| |[|] m e]; cbn [is_positive]; try contradiction;
    intros He; [exact I|].
  unfold fsqrt, SFsqrt, SFsqrt_core_binary.
  set (e' := Z.min _ (Z.div2 e)).
  assert (He' : -1074 <= e' <= Z.div2 e).
  { subst e'. unfold fexp, emin. rewrite Z.div2_div.
    assert (-537 <= e / 2) by (apply Z.div_le_lower_bound; lia). lia. }
  assert (Hs : 0 <= e - 2 * e').
  { rewrite Z.div2_div in He'. pose proof (Z.mul_div_le e 2 ltac:(lia)). lia. }
  set (m' := match e - 2 * e' with Z.pos _ => _ | _ => _ end).
  assert (Hm' : 0 < m').
  { subst m'. destruct (e - 2 * e') eqn:E; try lia.
    rewrite Z.shiftl_mul_pow2 by lia.
    apply Z.mul_pos_pos; [lia|apply Z.pow_pos_nonneg; lia]. }
  pose proof (Z.sqrtrem_sqrt m') as Hq.
  destruct (Z.sqrtrem m') as [q r]. cbn [fst] in Hq.
  assert (0 < q) by (rewrite Hq; apply Z.sqrt_pos; exact Hm').
  pose proof (binary_round_aux_nonzero false q e'
                (if r =? 0 then loc_Exact
                 else loc_Inexact (if r <=? q then Lt else Gt))
                ltac:(lia) ltac:(lia)) as Hr.
  destruct (binary_round_aux 53 1024 false q e' _) as [s|s| |s m0 e0];
    cbn [is_positive]; try contradiction.
  - now subst s.
  - destruct Hr as [-> Hr]. exact Hr.
Qed.

Lemma positive_above_zero (f : float) :
  is_positive f ->
  py_gt (Flt f) (Int 0) = true /\ py_eq (Flt f) (Int 0) = false.
Proof.
  destruct f as [s|[|]| |[|] m e]; cbn [is_positive]; try contradiction;
    intros He; [split; reflexivity|].
  unfold py_gt, py_eq. cbn [num_compare int_float_compare signed fmap
                            option_fmap option_map].
  assert (E : (if 0 <=? e then 0 ?= Z.pos m * 2 ^ e
               else 0 * 2 ^ (- e) ?= Z.pos m) = Lt).
  { destruct (0 <=? e) eqn:H0; apply Z.compare_lt_iff.
    - apply Z.leb_le in H0.
      assert (0 < 2 ^ e) by (apply Z.pow_pos_nonneg; lia). nia.
    - lia. }
  rewrite E. split; reflexivity.
Qed.

(** The square root of an integer that is not negative is zero exactly
    for the integer zero, and positive otherwise. *)
Lemma math_sqrt_int (k : Z) (len : num) :
  0 <= k -> math_sqrt (Int k) = Ok len ->
  (k = 0 /\ len = Flt (S754_zero false))
  \/ (0 < k /\ exists f, len = Flt f /\ is_positive f).
Proof.
  intros Hk E. destruct (Z.eq_dec k 0) as [->|Hne].
  - left. split; [reflexivity|]. vm_compute in E. now injection E as <-.
  - right. split; [lia|]. unfold math_sqrt in E.
    apply bind_Ok in E as (f & Hf & E). cbn [to_float] in Hf.
    apply float_of_int_positive in Hf; [|lia].
    exists (fsqrt f). split; [|now apply fsqrt_positive].
    destruct f as [s|[|]| |[|] m e]; cbn [is_positive] in Hf;
      try contradiction; now injection E as <-.
Qed.

(** ** Offset path *)

(** A vertex is skipped exactly when the direction computed there has
    length zero. *)
Lemma offset_vertex_skips (path : list point) (offset side : Z) (i : nat) :
  offset_vertex path offset side i = Ok None
  <-> zero_length_direction path i = true.
Proof.
  unfold offset_vertex, zero_length_direction, direction_length.
  destruct (pt_at path i) as [x y].
  destruct (offset_direction path i) as [[dx dy]|e|]; cbn [mbind res_bind];
    [|split; discriminate|split; discriminate].
  destruct (py_mul dx dx) as [dx2|e|]; cbn [mbind res_bind];
    [|split; discriminate|split; discriminate].
  destruct (py_mul dy dy) as [dy2|e|]; cbn [mbind res_bind];
    [|split; discriminate|split; discriminate].
  destruct (py_add dx2 dy2) as [sq|e|]; cbn [mbind res_bind];
    [|split; discriminate|split; discriminate].
  destruct (math_sqrt sq) as [len|e|]; cbn [mbind res_bind];
    [|split; discriminate|split; discriminate].
  destruct (py_eq len (Int 0)); [split; reflexivity|].
  split; [|discriminate]. intros E.
  repeat (apply bind_Ok in E as (? & _ & E)). discriminate E.
Qed.

Lemma offset_path_loop_length (path : list point) (offset side : Z) :
  forall (indices : list nat) (offset_pts pts : list point),
    offset_path_loop path offset side indices offset_pts = Ok pts ->
    (length pts + zero_length_among path indices
     = length offset_pts + length indices)%nat.
Proof.
  unfold zero_length_among.
  induction indices as [|i rest IH]; intros offset_pts pts E.
  - injection E as <-. cbn. lia.
  - cbn [offset_path_loop] in E. cbn [List.filter length].
    pose proof (offset_vertex_skips path offset side i) as Hskip.
    destruct (offset_vertex path offset side i) as [[p|]| |];
      cbn [mbind res_bind] in E; try discriminate.
    + destruct (zero_length_direction path i);
        [destruct Hskip as [_ Hskip]; discriminate (Hskip eq_refl)|].
      apply IH in E. rewrite length_app in E. cbn [length] in *. lia.
    + rewrite (proj1 Hskip eq_refl).
      apply IH in E. cbn [length]. lia.
Qed.

(** The direction has length zero at a repeated point: a vertex whose
    neighbours on the path are at the same point as the vertex. *)
Lemma repeated_point_zero_length (path : list point) (i : nat) :
  (2 <= length path)%nat -> (i < length path)%nat ->
  neighbours_coincide path i -> zero_length_direction path i = true.
Proof.
  intros Hlen Hi [Hprev Hnext].
  unfold zero_length_direction, offset_direction.
  destruct (pt_at path i) as [x y] eqn:Hpt.
  destruct (Nat.eqb_spec i 0) as [->|Hne0].
  - rewrite Hnext by lia. cbn [fst snd]. rewrite !Z.sub_diag.
    vm_compute. reflexivity.
  - destruct (Nat.eqb_spec i (length path - 1)) as [Hlast|Hmid].
    + rewrite Hprev by lia. cbn [fst snd]. rewrite !Z.sub_diag.
      vm_compute. reflexivity.
    + rewrite Hprev, Hnext by lia. cbn [fst snd]. rewrite !Z.sub_diag.
      vm_compute. reflexivity.
Qed.

Lemma sum_of_squares_zero (a b : Z) : a * a + b * b = 0 -> a = 0 /\ b = 0.
Proof. intros H. nia. Qed.

Lemma int_direction_length (dx dy : Z) :
  match direction_length (Int dx) (Int dy) with
  | Ok len => py_eq len (Int 0)
  | _ => false
  end = true
  <-> dx = 0 /\ dy = 0.
Proof.
  unfold direction_length. cbn [py_mul py_add mbind res_bind]. split.
  - destruct (math_sqrt (Int (dx * dx + dy * dy))) as [len|e|] eqn:E;
      try discriminate.
    apply math_sqrt_int in E as [[Hk _]|(_ & f & -> & Hf)]; [| |nia].
    + intros _. nia.
    + now rewrite (proj2 (positive_above_zero f Hf)).
  - intros [-> ->]. vm_compute. reflexivity.
Qed.

Lemma point_difference (a b x y : Z) :
  (a, b) = (x, y) <-> a - x = 0 /\ b - y = 0.
Proof. split; [intros [= -> ->]; lia|intros [? ?]; f_equal; lia]. Qed.

Lemma point_difference' (a b x y : Z) :
  (a, b) = (x, y) <-> x - a = 0 /\ y - b = 0.
Proof. split; [intros [= -> ->]; lia|intros [? ?]; f_equal; lia]. Qed.

Lemma zero_length_iff_repeated (path : list point) (i : nat) :
  (2 <= length path)%nat -> (i < length path)%nat ->
  end_or_repeated path i ->
  zero_length_direction path i = true <-> neighbours_coincide path i.
Proof.
  intros Hlen Hi Hrep. unfold zero_length_direction, offset_direction,
    neighbours_coincide. revert Hrep. unfold end_or_repeated.
  destruct (Nat.eqb_spec i 0) as [->|Hne0].
  { intros _. destruct (pt_at path 0) as [x y].
    destruct (pt_at path (0 + 1)) as [xn yn]. cbn [fst snd].
    rewrite int_direction_length, point_difference. split.
    - intros Hd. split; [lia|]. intros _. exact Hd.
    - intros [_ Hd]. apply Hd. lia. }
  destruct (Nat.eqb_spec i (length path - 1)) as [Hlast|Hmid].
  { intros _. destruct (pt_at path i) as [x y].
    destruct (pt_at path (i - 1)) as [xp yp]. cbn [fst snd].
    rewrite int_direction_length, point_difference'. split.
    - intros Hd. split; [intros _; exact Hd|lia].
    - intros [Hd _]. apply Hd. lia. }
  destruct (pt_at path i) as [x y].
  destruct (pt_at path (i - 1)) as [xp yp].
  destruct (pt_at path (i + 1)) as [xn yn]. cbn [fst snd].
  rewrite point_difference', point_difference. intros Hrep.
  destruct Hrep as [E|[E|[Hp|Hn]]]; try contradiction.
  - (* the point before is the same point *)
    destruct Hp as [Hx Hy]. rewrite Hx, Hy.
    change (math_sqrt (Int (0 * 0 + 0 * 0))) with (Ok (Flt (S754_zero false))).
    cbn [mbind res_bind].
    destruct (math_sqrt (Int ((xn - x) * (xn - x) + (yn - y) * (yn - y))))
      as [len2|e|] eqn:E2; cbn [mbind res_bind].
    + change (py_gt (Flt (S754_zero false)) (Int 0)) with false.
      cbn [andb]. rewrite int_direction_length. split.
      * intros Hd. split; intros _; [split; reflexivity|exact Hd].
      * intros [_ Hd]. apply Hd. lia.
    + split; [discriminate|]. intros [_ Hd].
      destruct Hd as [Hxn Hyn]; [lia|]. rewrite Hxn, Hyn in E2.
      vm_compute in E2. discriminate E2.
    + split; [discriminate|]. intros [_ Hd].
      destruct Hd as [Hxn Hyn]; [lia|]. rewrite Hxn, Hyn in E2.
      vm_compute in E2. discriminate E2.
  - (* the point after is the same point *)
    destruct Hn as [Hx Hy]. rewrite Hx, Hy.
    change (math_sqrt (Int (0 * 0 + 0 * 0))) with (Ok (Flt (S754_zero false))).
    destruct (math_sqrt (Int ((x - xp) * (x - xp) + (y - yp) * (y - yp))))
      as [len1|e|] eqn:E1; cbn [mbind res_bind].
    + change (py_gt (Flt (S754_zero false)) (Int 0)) with false.
      rewrite andb_false_r.
      apply math_sqrt_int in E1 as [[Hk ->]|(Hk & f & -> & Hf)];
        [| |pose proof (Z.square_nonneg (x - xp));
            pose proof (Z.square_nonneg (y - yp)); lia].
      * change (py_gt (Flt (S754_zero false)) (Int 0)) with false.
        cbv iota.
        split; [intros _|intros _; vm_compute; reflexivity].
        split; intros _; [now apply sum_of_squares_zero|split; reflexivity].
      * rewrite (proj1 (positive_above_zero f Hf)).
        rewrite int_direction_length. split.
        -- intros Hd. split; intros _; [exact Hd|split; reflexivity].
        -- intros [Hd _]. apply Hd. lia.
    + split; [discriminate|]. intros [Hd _].
      destruct Hd as [Hxp Hyp]; [lia|]. rewrite Hxp, Hyp in E1.
      vm_compute in E1. discriminate E1.
    + split; [discriminate|]. intros [Hd _].
      destruct Hd as [Hxp Hyp]; [lia|]. rewrite Hxp, Hyp in E1.
      vm_compute in E1. discriminate E1.
Qed.

(** C5 (amended). The offset path has one point for each vertex of the
    input polyline except the vertices at which the computed direction
    has length zero: the generator skips a vertex exactly when the
    length of the direction it computes there is zero, whatever the
    offset and the side.  So the offset path has at most as many points
    as the input, and exactly as many when no direction has length
    zero.  A repeated point is such a vertex; and at an end of the path,
    or where a neighbour is at the same point as the vertex, the
    direction has length zero only if every neighbour is at that
    point. *)
Theorem offset_path_length (path : list point) (offset side : Z)
    (pts : list point) :
  (2 <= length path)%nat ->
  generate_offset_path path offset side = Ok pts ->
  (length pts + zero_length_vertices path = length path)%nat
  /\ (length pts <= length path)%nat
  /\ (forall i, offset_vertex path offset side i = Ok None
                <-> zero_length_direction path i = true)
  /\ (forall i, (i < length path)%nat -> neighbours_coincide path i ->
                zero_length_direction path i = true)
  /\ (forall i, (i < length path)%nat -> end_or_repeated path i ->
                zero_length_direction path i = true
                <-> neighbours_coincide path i).
Proof.
  intros Hlen E. unfold generate_offset_path in E.
  destruct (Nat.ltb_spec (length path) 2) as [Hlt|_]; [lia|].
  apply offset_path_loop_length in E.
  rewrite length_seq in E. cbn [length] in E.
  unfold zero_length_vertices.
  split_goal; [lia|lia|apply offset_vertex_skips| |].
  - intros i Hi. now apply repeated_point_zero_length.
  - intros i Hi. now apply zero_length_iff_repeated.
Qed.

Lemma offset_path_length_witness :
  generate_offset_path corner_path 500000 1
  = Ok [(0, 500000); (646446, 353553); (500000, 1000000)]
  /\ zero_length_vertices corner_path = 0%nat.
Proof.
  assert (E : generate_offset_path corner_path 500000 1
              = Ok [(0, 500000); (646446, 353553); (500000, 1000000)])
    by (vm_compute; reflexivity).
  split; [exact E|].
  destruct (offset_path_length corner_path 500000 1 _
              ltac:(cbn; lia) E) as [Hsum _].
  change (length corner_path) with 3%nat in *.
  cbn [length] in Hsum. lia.
Defined.

(** C5 as stated fails: a polyline that doubles back on itself has three
    points, and its offset path has two: at the middle vertex the two
    unit directions cancel, the computed direction has length zero, and
    the vertex is skipped. *)
Lemma offset_path_drops_vertex :
  length doubled_back_path = 3%nat
  /\ generate_offset_path doubled_back_path 500000 1
     = Ok [(0, 500000); (0, -500000)]
  /\ zero_length_direction doubled_back_path 1 = true
  /\ zero_length_vertices doubled_back_path = 1%nat.
Proof. split_goal; vm_compute; reflexivity. Qed.

(** A segment of zero length has two points, and its offset path has
    none. *)
Lemma offset_path_of_point_segment :
  generate_offset_path [(5, 5); (5, 5)] 500000 1 = Ok [].
Proof. vm_compute. reflexivity. Qed.

(** ** Track chainer *)

Lemma enumerate_lookup {A} (l : list A) (j : nat) (a : A) :
  (j, a) ∈ enumerate l -> l !! j = Some a.
Proof.
  unfold enumerate.
  assert (G : forall k, (j, a) ∈ combine (seq k (length l)) l ->
                        (k <= j)%nat /\ l !! (j - k)%nat = Some a).
  { induction l as [|b l IH]; intros k Hin; cbn in Hin.
    - now apply elem_of_nil in Hin.
    - apply elem_of_cons in Hin as [[= -> ->]|Hin].
      + split; [lia|]. now rewrite Nat.sub_diag.
      + apply IH in Hin as [Hle Hl]. split; [lia|].
        replace (j - k)%nat with (S (j - S k)) by lia. exact Hl. }
  intros Hin. apply G in Hin as [_ Hl]. now rewrite Nat.sub_0_r in Hl.
Qed.

Lemma enumerate_indices {A} (l : list A) :
  (enumerate l).*1 = seq 0 (length l).
Proof.
  unfold enumerate. generalize 0%nat as k.
  induction l as [|b l IH]; intros k; [reflexivity|].
  cbn. now rewrite IH.
Qed.

Lemma count_unused_insert (used : list bool) (j : nat) :
  used !! j = Some false ->
  (count_unused (<[j:=true]> used) < count_unused used)%nat.
Proof.
  unfold count_unused. revert j.
  induction used as [|b used IH]; intros j Hj; [discriminate|].
  destruct j as [|j].
  - injection Hj as ->.
    change (<[0%nat:=true]> (false :: used)) with (true :: used).
    cbn [List.filter negb length]. lia.
  - specialize (IH j Hj).
    change (<[S j:=true]> (b :: used)) with (b :: <[j:=true]> used).
    cbn [List.filter]. destruct b; cbn [negb length]; lia.
Qed.

Lemma count_unused_replicate (n : nat) :
  count_unused (replicate n false) = n.
Proof.
  unfold count_unused. induction n as [|n IH]; [reflexivity|].
  cbn. now rewrite IH.
Qed.

Section ChainerProofs.
Variable segments : list (list point).
Hypothesis segments_nonempty : Forall (fun seg => seg <> []) segments.

Lemma segment_nonempty (j : nat) (seg : list point) :
  segments !! j = Some seg -> seg <> [].
Proof.
  intros Hj. pose proof segments_nonempty as Hall.
  rewrite Forall_forall in Hall. apply Hall.
  eapply list_elem_of_lookup_2. exact Hj.
Qed.

Lemma built_from_nonempty (members : list nat) (path : list point) :
  built_from segments members path -> path <> [].
Proof.
  induction 1 as [i seg Hi|j other ms path o p Hj Hn Hb IH Ho Hp Hc
                  |j other ms path o p Hj Hn Hb IH Ho Hp Hc
                  |j other ms path o p Hj Hn Hb IH Ho Hp Hc
                  |j other ms path o p Hj Hn Hb IH Ho Hp Hc].
  - eapply segment_nonempty. exact Hi.
  - intros E. apply app_eq_nil in E as [_ E]. contradiction.
  - intros E. apply app_eq_nil in E as [_ E]. contradiction.
  - intros E. apply app_eq_nil in E as [E _]. contradiction.
  - intros E. apply app_eq_nil in E as [E _]. contradiction.
Qed.

Lemma first_pt_nonempty (l : list point) : l <> [] -> exists p, first_pt l = Ok p.
Proof. destruct l as [|p l]; [contradiction|]. intros _. now exists p. Qed.

Lemma last_pt_nonempty (l : list point) : l <> [] -> exists p, last_pt l = Ok p.
Proof.
  intros Hne. unfold last_pt.
  destruct (last l) as [p|] eqn:E; [now exists p|].
  apply last_None in E. contradiction.
Qed.

(** Marking one more segment keeps the invariant. *)
Lemma chain_inv_mark (used : list bool) (consumed : list nat) (j : nat) :
  chain_inv segments used consumed ->
  used !! j = Some false ->
  chain_inv segments (<[j:=true]> used) (j :: consumed)
  /\ j ∉ consumed.
Proof.
  intros (Hlen & Hnd & Hmark) Hj.
  assert (Hnot : j ∉ consumed).
  { intros Hin. apply Hmark in Hin. congruence. }
  split; [|exact Hnot].
  split; [now rewrite length_insert|]. split.
  - apply NoDup_cons. now split.
  - intros k. rewrite elem_of_cons, <- Hmark.
    destruct (decide (j = k)) as [<-|Hne].
    + rewrite list_lookup_insert_eq by (now apply lookup_lt_Some in Hj).
      split; [now left|reflexivity].
    + rewrite list_lookup_insert_ne by exact Hne.
      split; [now right|]. intros [E|E]; [congruence|exact E].
Qed.

Lemma chain_inv_used_at (used : list bool) (consumed : list nat) (j : nat)
    (seg : list point) :
  chain_inv segments used consumed ->
  segments !! j = Some seg ->
  exists b, used_at used j = Ok b /\ used !! j = Some b.
Proof.
  intros (Hlen & _) Hj. unfold used_at.
  apply lookup_lt_Some in Hj. rewrite <- Hlen in Hj.
  apply lookup_lt_is_Some_2 in Hj as [b Hb]. rewrite Hb. now exists b.
Qed.

(** One sweep over the segments. *)
Lemma chain_sweep_spec (prior : list nat) :
  forall (items : list (nat * list point)) (path : list point)
         (used : list bool) (changed : bool) (members : list nat),
    (forall j seg, (j, seg) ∈ items -> segments !! j = Some seg) ->
    built_from segments members path ->
    chain_inv segments used (members ++ prior) ->
    exists path' used' changed' members',
      chain_sweep items path used changed = Ok (path', used', changed')
      /\ built_from segments members' path'
      /\ chain_inv segments used' (members' ++ prior)
      /\ (forall j, j ∈ members -> j ∈ members')
      /\ (count_unused used' <= count_unused used)%nat
      /\ (changed' = true ->
          changed = true \/ (count_unused used' < count_unused used)%nat).
Proof.
  induction items as [|[j other] rest IH];
    intros path used changed members Hitems Hbuilt Hinv.
  - exists path, used, changed, members. cbn. split_goal; auto.
  - assert (Hj : segments !! j = Some other)
      by (apply Hitems; apply elem_of_cons; now left).
    assert (Hrest : forall k seg, (k, seg) ∈ rest -> segments !! k = Some seg)
      by (intros k seg Hk; apply Hitems; apply elem_of_cons; now right).
    cbn [chain_sweep].
    destruct (chain_inv_used_at _ _ _ _ Hinv Hj) as (b & -> & Hb).
    cbn [mbind res_bind].
    destruct b; [now apply IH|].
    destruct (chain_inv_mark _ _ _ Hinv Hb) as [Hinv' Hfresh].
    pose proof (count_unused_insert _ _ Hb) as Hless.
    assert (Hnotin : j ∉ members)
      by (intros Hin; apply Hfresh; apply elem_of_app; now left).
    destruct (last_pt_nonempty other (segment_nonempty _ _ Hj)) as [o_last Hol].
    destruct (first_pt_nonempty other (segment_nonempty _ _ Hj))
      as [o_first Hof].
    destruct (first_pt_nonempty path (built_from_nonempty _ _ Hbuilt))
      as [p_first Hpf].
    destruct (last_pt_nonempty path (built_from_nonempty _ _ Hbuilt))
      as [p_last Hpl].
    rewrite Hol, Hpf. cbn [mbind res_bind].
    assert (Hstep : forall path1,
      built_from segments (j :: members) path1 ->
      exists path' used' changed' members',
        chain_sweep rest path1 (<[j:=true]> used) true
        = Ok (path', used', changed')
        /\ built_from segments members' path'
        /\ chain_inv segments used' (members' ++ prior)
        /\ (forall k, k ∈ members -> k ∈ members')
        /\ (count_unused used' <= count_unused used)%nat
        /\ (changed' = true ->
            changed = true \/ (count_unused used' < count_unused used)%nat)).
    { intros path1 Hb1.
      destruct (IH path1 (<[j:=true]> used) true (j :: members) Hrest Hb1 Hinv')
        as (path' & used' & changed' & members' & E & Hb' & Hi' & Hsub & Hle & _).
      exists path', used', changed', members'.
      split_goal; auto.
      - intros k Hk. apply Hsub. apply elem_of_cons. now right.
      - lia.
      - intros _. right. lia. }
    destruct (points_close o_last p_first) eqn:C1.
    { apply Hstep. eapply built_prepend; eauto. }
    rewrite Hof. cbn [mbind res_bind].
    destruct (points_close o_first p_first) eqn:C2.
    { apply Hstep. eapply built_prepend_reversed; eauto. }
    rewrite Hpl. cbn [mbind res_bind].
    destruct (points_close o_first p_last) eqn:C3.
    { apply Hstep. eapply built_append; eauto. }
    destruct (points_close o_last p_last) eqn:C4.
    { apply Hstep. eapply built_append_reversed; eauto. }
    now apply IH.
Qed.

(** The [while changed] loop ends within as many passes as there are
    unused segments, plus one. *)
Lemma chain_extend_spec (prior : list nat) :
  forall (n fuel : nat) (path : list point) (used : list bool)
         (members : list nat),
    (count_unused used <= n)%nat -> (n < fuel)%nat ->
    built_from segments members path ->
    chain_inv segments used (members ++ prior) ->
    exists path' used' members',
      chain_extend fuel segments path used = Ok (path', used')
      /\ built_from segments members' path'
      /\ chain_inv segments used' (members' ++ prior)
      /\ (forall j, j ∈ members -> j ∈ members')
      /\ (count_unused used' <= count_unused used)%nat.
Proof.
  induction n as [|n IH]; intros fuel path used members Hn Hfuel Hbuilt Hinv;
    (destruct fuel as [|fuel]; [lia|]); cbn [chain_extend];
    destruct (chain_sweep_spec prior (enumerate segments) path used false
                members (fun j seg => enumerate_lookup segments j seg)
                Hbuilt Hinv)
      as (path1 & used1 & changed1 & members1 & -> & Hb1 & Hi1 & Hsub1
          & Hle1 & Hch1);
    cbn [mbind res_bind]; destruct changed1.
  - destruct (Hch1 eq_refl) as [E|Hlt]; [discriminate|lia].
  - exists path1, used1, members1. split_goal; auto.
  - destruct (Hch1 eq_refl) as [E|Hlt]; [discriminate|].
    destruct (IH fuel path1 used1 members1 ltac:(lia) ltac:(lia) Hb1 Hi1)
      as (path' & used' & members' & E & Hb' & Hi' & Hsub' & Hle').
    exists path', used', members'. split_goal; auto. lia.
  - exists path1, used1, members1. split_goal; auto.
Qed.

Lemma chain_inv_snoc (used : list bool) (members : list (list nat))
    (ms : list nat) :
  chain_inv segments used (ms ++ concat members) ->
  chain_inv segments used (concat (members ++ [ms])).
Proof.
  intros (Hlen & Hnd & Hmark).
  assert (Hp : concat (members ++ [ms]) ≡ₚ ms ++ concat members).
  { rewrite concat_app. cbn [concat]. rewrite app_nil_r.
    apply Permutation_app_comm. }
  split; [exact Hlen|]. split.
  - now rewrite Hp.
  - intros j. rewrite Hmark. now rewrite Hp.
Qed.

(** The loop over the segments that starts the paths. *)
Lemma chain_outer_spec (fuel : nat) :
  forall (items : list (nat * list point)) (used : list bool)
         (paths : list (list point)) (members : list (list nat)),
    (forall j seg, (j, seg) ∈ items -> segments !! j = Some seg) ->
    Forall2 (built_from segments) members paths ->
    chain_inv segments used (concat members) ->
    (count_unused used < fuel)%nat ->
    exists paths' members' used',
      chain_outer fuel segments items used paths = Ok paths'
      /\ Forall2 (built_from segments) members' paths'
      /\ chain_inv segments used' (concat members')
      /\ (forall i, i ∈ concat members \/ i ∈ items.*1 -> i ∈ concat members').
Proof.
  induction items as [|[i seg] rest IH];
    intros used paths members Hitems Hall Hinv Hfuel.
  - exists paths, members, used. cbn. split_goal; auto.
    intros i [Hi|Hi]; [exact Hi|]. now apply elem_of_nil in Hi.
  - assert (Hi : segments !! i = Some seg)
      by (apply Hitems; apply elem_of_cons; now left).
    assert (Hrest : forall k s, (k, s) ∈ rest -> segments !! k = Some s)
      by (intros k s Hk; apply Hitems; apply elem_of_cons; now right).
    cbn [chain_outer].
    destruct (chain_inv_used_at _ _ _ _ Hinv Hi) as (b & -> & Hb).
    cbn [mbind res_bind]. destruct b.
    + destruct (IH used paths members Hrest Hall Hinv Hfuel)
        as (paths' & members' & used' & E & Hall' & Hinv' & Hsub).
      exists paths', members', used'. split_goal; auto.
      intros k [Hk|Hk]; [apply Hsub; now left|].
      cbn in Hk. apply elem_of_cons in Hk as [->|Hk].
      * apply Hsub. left. now apply Hinv.
      * apply Hsub. now right.
    + destruct (chain_inv_mark _ _ _ Hinv Hb) as [Hinv0 _].
      pose proof (count_unused_insert _ _ Hb) as Hless.
      destruct (chain_extend_spec (concat members)
                  (count_unused (<[i:=true]> used)) fuel seg
                  (<[i:=true]> used) [i] ltac:(lia) ltac:(lia)
                  (built_start segments i seg Hi) Hinv0)
        as (path' & used1 & ms & -> & Hb1 & Hi1 & Hsub1 & Hle1).
      cbn [mbind res_bind].
      destruct (IH used1 (paths ++ [path']) (members ++ [ms]) Hrest
                  ltac:(apply Forall2_app; [exact Hall|now constructor])
                  (chain_inv_snoc _ _ _ Hi1) ltac:(lia))
        as (paths' & members' & used' & E & Hall' & Hinv' & Hsub).
      exists paths', members', used'. split_goal; auto.
      assert (Hin : forall k, k ∈ concat members \/ k ∈ ms ->
                              k ∈ concat (members ++ [ms])).
      { intros k Hk. rewrite concat_app. cbn [concat]. rewrite app_nil_r.
        apply elem_of_app. exact Hk. }
      intros k [Hk|Hk]; [apply Hsub; left; apply Hin; now left|].
      cbn in Hk. apply elem_of_cons in Hk as [->|Hk].
      * apply Hsub. left. apply Hin. right. apply Hsub1.
        apply elem_of_cons. now left.
      * apply Hsub. now right.
Qed.

(** The chaining of segment point lists: with fuel for one more pass
    than there are segments, it returns polylines, each assembled from
    its own segments, and every segment goes into exactly one of them. *)
Lemma chain_segments_partition (fuel : nat) :
  (length segments < fuel)%nat ->
  exists (paths : list (list point)) (members : list (list nat)),
    chain_segments fuel segments = Ok paths
    /\ Forall2 (built_from segments) members paths
    /\ concat members ≡ₚ seq 0 (length segments).
Proof.
  intros Hfuel. unfold chain_segments.
  destruct (chain_outer_spec fuel (enumerate segments)
              (replicate (length segments) false) [] []
              (fun j seg => enumerate_lookup segments j seg)
              ltac:(constructor)) as (paths & members & used & E & Hall
                                      & (Hlen & Hnd & Hmark) & Hsub).
  - split; [apply length_replicate|]. split; [constructor|].
    intros j. cbn. rewrite lookup_replicate. split.
    + intros [[=] _].
    + intros Hj. now apply elem_of_nil in Hj.
  - now rewrite count_unused_replicate.
  - exists paths, members. split; [exact E|]. split; [exact Hall|].
    apply NoDup_Permutation; [exact Hnd|apply NoDup_seq|].
    intros j. rewrite elem_of_seq. split.
    + intros Hj. apply Hmark in Hj. apply lookup_lt_Some in Hj. lia.
    + intros Hj. apply Hsub. right. rewrite enumerate_indices.
      apply elem_of_seq. lia.
Qed.

End ChainerProofs.

Section TrackChainer.
Context `{Host}.

Lemma arc_samples_loop_length (center : point)
    (radius start_angle arc_angle : num) (direction num_samples : Z) :
  forall (indices : list nat) (arc_pts pts : list point),
    arc_samples_loop center radius start_angle arc_angle direction
      num_samples indices arc_pts = Ok pts ->
    length pts = (length arc_pts + length indices)%nat.
Proof.
  induction indices as [|i rest IH]; intros arc_pts pts E.
  - injection E as <-. cbn. lia.
  - cbn [arc_samples_loop] in E.
    repeat (apply bind_Ok in E as (? & _ & E)).
    apply IH in E. rewrite length_app in E. cbn [length] in *. lia.
Qed.

(** Every track contributes a point list that is not empty: two points
    for a straight track, at least nine for a sampled arc. *)
Lemma track_segment_nonempty (fuel : nat) (track : Track) (seg : list point) :
  track_segment fuel track = Ok seg -> seg <> [].
Proof.
  unfold track_segment. cbv zeta.
  destruct (is_arc track); [|intros [= <-]; discriminate].
  destruct (arc_center track) as [center|]; [|intros [= <-]; discriminate].
  destruct (py_gt _ _); [|intros [= <-]; discriminate].
  intros E.
  repeat (apply bind_Ok in E as (? & _ & E)).
  apply arc_samples_loop_length in E.
  rewrite length_seq in E. intros ->. cbn [length] in E. lia.
Qed.

Lemma track_segments_spec (fuel : nat) :
  forall (tracks : list Track) (segments : list (list point)),
    track_segments fuel tracks = Ok segments ->
    length segments = length tracks
    /\ Forall (fun seg => seg <> []) segments.
Proof.
  intros ts. induction ts as [|t rest IH]; intros segments E.
  - injection E as <-. split; [reflexivity|constructor].
  - cbn [track_segments] in E.
    apply bind_Ok in E as (seg & Hseg & E).
    apply bind_Ok in E as (segs & Hsegs & E).
    injection E as <-. apply IH in Hsegs as [Hlen Hall].
    split; [cbn; now rewrite Hlen|].
    constructor; [|exact Hall].
    eapply track_segment_nonempty. exact Hseg.
Qed.

(** C7. When the tracks yield their segment point lists, the chainer,
    given fuel for one more pass than there are tracks, returns
    polylines, and the segments are partitioned among them: there is one
    list of segment indices per polyline, the polyline is assembled from
    exactly those segments, and every index from 0 to n-1 occurs in
    exactly one list, exactly once. *)
Theorem chain_tracks_partition (fuel : nat) (tracks : list Track)
    (segments : list (list point)) :
  track_segments fuel tracks = Ok segments ->
  (length tracks < fuel)%nat ->
  exists (paths : list (list point)) (members : list (list nat)),
    chain_tracks_into_paths fuel tracks = Ok paths
    /\ length segments = length tracks
    /\ Forall2 (built_from segments) members paths
    /\ concat members ≡ₚ seq 0 (length tracks).
Proof.
  intros Hsegs Hfuel.
  destruct (track_segments_spec _ _ _ Hsegs) as [Hlen Hne].
  unfold chain_tracks_into_paths. rewrite Hsegs. cbn [mbind res_bind].
  destruct tracks as [|t rest].
  - injection Hsegs as <-. exists [], []. cbn.
    split_goal; auto.
  - cbn [is_nil].
    destruct (chain_segments_partition segments Hne fuel ltac:(lia))
      as (paths & members & E & Hall & Hperm).
    exists paths, members. rewrite <- Hlen. now split_goal.
Qed.

End TrackChainer.

Lemma chain_tracks_partition_witness :
  exists (paths : list (list point)) (members : list (list nat)),
    chain_tracks_into_paths (H:=plain_host) 4 three_tracks = Ok paths
    /\ length (map (fun t => [tr_start t; tr_end t]) three_tracks)
       = length three_tracks
    /\ Forall2 (built_from (map (fun t => [tr_start t; tr_end t]) three_tracks))
         members paths
    /\ concat members ≡ₚ seq 0 (length three_tracks).
Proof.
  apply (chain_tracks_partition (H:=plain_host) 4 three_tracks).
  - reflexivity.
  - cbn. lia.
Defined.

(** The three example tracks chain into two polylines. *)
Lemma chain_three_tracks :
  chain_tracks_into_paths (H:=plain_host) 4 three_tracks
  = Ok [[(0, 0); (1000000, 0); (1000000, 1000000)];
        [(5000000, 5000000); (6000000, 5000000)]].
Proof. vm_compute. reflexivity. Qed.

(** ** Stitching orchestrator *)

Lemma add_value_comm (j1 j2 : string) (z1 z2 : reason_value) (y : option Z) :
  add_value j1 z1 (add_value j2 z2 y) = add_value j2 z2 (add_value j1 z1 y).
Proof.
  destruct z1 as [n1|t1], z2 as [n2|t2], y as [a|]; cbn; try reflexivity.
  f_equal. lia.
Qed.


Lemma values_sum_insert_fresh (reasons : gmap string reason_value)
    (key : string) (v : reason_value) :
  reasons !! key = None ->
  values_sum (<[key:=v]> reasons) = add_value key v (values_sum reasons).
Proof.
  intros Hfresh. unfold values_sum.
  apply map_fold_insert_L; [|exact Hfresh].
  intros. apply add_value_comm.
Qed.

Lemma values_sum_message (key text : string) :
  values_sum {[key := Message text]} = None.
Proof.
  rewrite <- insert_empty, values_sum_insert_fresh by apply lookup_empty.
  reflexivity.
Qed.

(** When the values have a sum, each of them is a count. *)
Lemma values_sum_all_counts (reasons : gmap string reason_value)
    (key : string) (v : reason_value) (total : Z) :
  values_sum reasons = Some total ->
  reasons !! key = Some v ->
  exists n, v = Count n.
Proof.
  unfold values_sum. intros Hsum Hkey.
  rewrite (map_fold_delete_L add_value (Some 0) key v reasons) in Hsum;
    [|intros; apply add_value_comm|exact Hkey].
  destruct v as [n|text]; [now exists n|discriminate].
Qed.

(** Counting one more rejection adds one to the sum of the counts. *)
Lemma bump_reason_sum (reasons reasons' : gmap string reason_value)
    (reason : string) (total : Z) :
  bump_reason reasons reason = Ok reasons' ->
  values_sum reasons = Some total ->
  values_sum reasons' = Some (total + 1).
Proof.
  unfold bump_reason. intros E Hsum.
  destruct (reasons !! reason) as [[n|text]|] eqn:Hl; try discriminate;
    injection E as <-.
  - rewrite <- insert_delete_eq.
    rewrite values_sum_insert_fresh by apply lookup_delete_eq.
    unfold values_sum in Hsum.
    rewrite (map_fold_delete_L add_value (Some 0) reason (Count n) reasons)
      in Hsum; [|intros; apply add_value_comm|exact Hl].
    fold (values_sum (delete reason reasons)) in Hsum |- *.
    destruct (values_sum (delete reason reasons)) as [a|]; cbn in *;
      [|discriminate].
    injection Hsum as <-. f_equal. lia.
  - rewrite values_sum_insert_fresh by exact Hl.
    rewrite Hsum. reflexivity.
Qed.

Lemma process_results_spec (net : Net) (config : StitchingConfig) :
  forall (check_results : list verdict) (result result' : StitchingResult),
    process_results check_results net config result = Ok result' ->
    valid result' + rejected result'
    = valid result + rejected result + Z.of_nat (length check_results)
    /\ candidates result' = candidates result
    /\ zones_found result' = zones_found result
    /\ tracks_found result' = tracks_found result
    /\ (values_sum (rejected_reasons result) = Some (rejected result) ->
        values_sum (rejected_reasons result') = Some (rejected result'))
    /\ (Z.of_nat (length (result_vias result)) = valid result ->
        Z.of_nat (length (result_vias result')) = valid result').
Proof.
  induction check_results as [|[[[x y] is_valid] reason] rest IH];
    intros result result' E.
  - injection E as <-. cbn [length]. split_goal; auto. lia.
  - cbn [process_results] in E. destruct is_valid.
    + apply IH in E as (Hsum & Hc & Hz & Ht & Hr & Hv).
      cbn [valid rejected candidates zones_found tracks_found
           rejected_reasons result_vias] in *.
      split_goal; auto.
      * cbn [length]. lia.
      * intros Hlen. apply Hv. rewrite length_app. cbn [length]. lia.
    + apply bind_Ok in E as (reasons & Hb & E).
      apply IH in E as (Hsum & Hc & Hz & Ht & Hr & Hv).
      cbn [valid rejected candidates zones_found tracks_found
           rejected_reasons result_vias] in *.
      split_goal; auto.
      * cbn [length]. lia.
      * intros Hs. apply Hr. eapply bump_reason_sum; eauto.
Qed.



Section Orchestrator.
Context `{Host}.







End Orchestrator.



Section TraceWithoutSelection.
Context `{Host}.

(** C3. In trace mode, when the track selection is [None] or empty, the
    run returns a result with no valid via, no candidate, no via in its
    list and one entry in its reason map (which of [no_nets],
    [no_fence_net], [no_tracks] depends on the nets); it raises nothing,
    needs no fuel, and reads none of the board's tracks. *)
Theorem trace_mode_without_selection (fuel : nat) (tape : nat -> Z)
    (cursor : nat) (board : Board) (config : StitchingConfig)
    (selected_zones : option (list Zone))
    (selected_tracks : option (list Track)) :
  mode config = FENCE_TRACE ->
  selected_tracks = None \/ selected_tracks = Some [] ->
  exists result : StitchingResult,
    generate_via_stitching fuel tape cursor board config selected_zones
      selected_tracks = Ok result
    /\ valid result = 0 /\ candidates result = 0 /\ rejected result = 0
    /\ tracks_found result = 0 /\ result_vias result = []
    /\ exists key text,
         key ∈ ["no_nets"; "no_fence_net"; "no_tracks"]%string
         /\ rejected_reasons result = {[key := Message text]}.
Proof.
  intros Hmode Hsel.
  assert (Hnil : is_nil (default [] selected_tracks) = true)
    by (destruct Hsel as [-> | ->]; reflexivity).
  unfold generate_via_stitching, generate_trace_fencing.
  rewrite Hmode, Hnil. cbv zeta.
  destruct (dict_is_empty _).
  { eexists. split; [reflexivity|]. cbn. split_goal; auto.
    do 2 eexists. split; [|apply insert_empty]. in_list. }
  destruct (match net_names config with [] => None | _ => _ end).
  - eexists. split; [reflexivity|]. cbn. split_goal; auto.
    do 2 eexists. split; [|apply insert_empty]. in_list.
  - eexists. split; [reflexivity|]. cbn. split_goal; auto.
    do 2 eexists. split; [|apply insert_empty]. in_list.
Qed.

(** The board's own tracks play no part in such a run. *)
Lemma trace_mode_ignores_board_tracks (fuel : nat) (tape : nat -> Z)
    (cursor : nat) (board : Board) (config : StitchingConfig)
    (all_tracks : list Track) :
  mode config = FENCE_TRACE ->
  generate_via_stitching fuel tape cursor
    {| get_nets := get_nets board; get_zones := get_zones board;
       get_tracks := all_tracks; get_pads := get_pads board;
       get_vias := get_vias board; get_shapes := get_shapes board |}
    config None (Some [])
  = generate_via_stitching fuel tape cursor board config None (Some []).
Proof.
  intros Hmode. unfold generate_via_stitching, generate_trace_fencing.
  rewrite Hmode. cbn [get_nets default is_nil]. cbv zeta.
  destruct (dict_is_empty _); [reflexivity|].
  destruct (match net_names config with [] => None | _ => _ end);
    reflexivity.
Qed.

End TraceWithoutSelection.

Lemma trace_mode_without_selection_witness :
  exists result : StitchingResult,
    no_selection_run = Ok result
    /\ valid result = 0 /\ candidates result = 0 /\ rejected result = 0
    /\ tracks_found result = 0 /\ result_vias result = []
    /\ exists key text,
         key ∈ ["no_nets"; "no_fence_net"; "no_tracks"]%string
         /\ rejected_reasons result = {[key := Message text]}.
Proof.
  apply (trace_mode_without_selection (H:=plain_host) 20 zero_tape 0
           square_board trace_config None (Some [])).
  - reflexivity.
  - right. reflexivity.
Defined.

(** On the example board the entry is [no_tracks]. *)
Lemma no_selection_run_reason :
  rejected_reasons (returned no_selection_run)
  = {["no_tracks"%string :=
        Message "No tracks selected. Select the traces you want to fence in KiCad first."]}.
Proof. vm_compute. reflexivity. Qed.

(** * Further properties *)

(** ** More on the geometry primitives *)

(** A quotient that is not positive is clamped to the integer zero. *)
Lemma clamp_nonpositive (f : float) :
  has_sign true f \/ is_zero f = true ->
  py_max (Int 0) (py_min (Int 1) (Flt f)) = Int 0.
Proof.
  intros Hf.
  destruct f as [s|s| |s m e]; cbn in Hf;
    try (destruct Hf as [Hf|Hf]; [|discriminate Hf]); subst;
    try contradiction; try reflexivity.
  unfold py_max, py_min, py_lt, py_gt.
  cbn [num_compare int_float_compare signed fmap option_fmap option_map].
  assert (E1 : (if 0 <=? e then 1 ?= Z.neg m * 2 ^ e
                else 1 * 2 ^ (- e) ?= Z.neg m) = Gt).
  { destruct (0 <=? e) eqn:He; apply Z.compare_gt_iff.
    - assert (0 < 2 ^ e) by (apply Z.pow_pos_nonneg; lia). nia.
    - assert (0 <= 2 ^ (- e)) by (apply Z.pow_nonneg; lia). nia. }
  rewrite E1. cbn [CompOpp].
  cbn [num_compare int_float_compare signed fmap option_fmap option_map].
  assert (E0 : (if 0 <=? e then 0 ?= Z.neg m * 2 ^ e
                else 0 * 2 ^ (- e) ?= Z.neg m) = Gt).
  { destruct (0 <=? e) eqn:He; apply Z.compare_gt_iff.
    - assert (0 < 2 ^ e) by (apply Z.pow_pos_nonneg; lia). nia.
    - lia. }
  rewrite E0. reflexivity.
Qed.

Lemma int_true_divide_nonpositive (a b : Z) (f : float) :
  a <= 0 -> 0 < b -> int_true_divide a b = Ok f ->
  has_sign true f \/ is_zero f = true.
Proof.
  intros Ha Hb. unfold int_true_divide.
  destruct (Z.eqb_spec b 0) as [->|_]; [lia|].
  destruct (Z.eqb_spec a 0) as [->|Hne].
  - intros [= <-]. now right.
  - replace (a <? 0) with true by (symmetry; apply Z.ltb_lt; lia).
    replace (b <? 0) with false by (symmetry; apply Z.ltb_ge; lia).
    destruct (is_inf _); [discriminate|]. intros [= <-]. left.
    apply (fdiv_finite_sign true false).
Qed.

(** X1. When the projection of the point on the line of the segment
    falls at the start of the segment or before it, the function
    returns exactly the squared distance to the start; the only other
    outcome is [OverflowError], when the quotient is too large for a
    float. *)
Theorem distance_sq_before_start (px py x1 y1 x2 y2 : Z) :
  (px - x1) * (x2 - x1) + (py - y1) * (y2 - y1) <= 0 ->
  point_to_segment_distance_sq px py x1 y1 x2 y2
  = Ok ((px - x1) ^ 2 + (py - y1) ^ 2)
  \/ ((px - x1) * (x2 - x1) + (py - y1) * (y2 - y1) < 0
      /\ point_to_segment_distance_sq px py x1 y1 x2 y2
         = Raise OverflowError).
Proof.
  intros Hnum. unfold point_to_segment_distance_sq.
  set (dx := x2 - x1) in *. set (dy := y2 - y1) in *.
  destruct (Z.eqb_spec (dx * dx + dy * dy) 0) as [E|Hlen]; [now left|].
  assert (Hpos : 0 < dx * dx + dy * dy) by nia.
  cbn [py_truediv].
  destruct (int_true_divide _ _) as [f|e|] eqn:Hq.
  - cbn [fmap res_fmap mbind res_bind].
    rewrite (clamp_nonpositive f)
      by (eapply int_true_divide_nonpositive; eauto).
    cbn. left. do 2 f_equal; f_equal; ring.
  - right.
    unfold int_true_divide in Hq.
    destruct (Z.eqb_spec (dx * dx + dy * dy) 0); [lia|].
    destruct (Z.eqb_spec ((px - x1) * dx + (py - y1) * dy) 0);
      [discriminate|].
    destruct (is_inf _); [|discriminate].
    injection Hq as <-. split; [lia|reflexivity].
  - unfold int_true_divide in Hq.
    destruct (_ =? 0); [discriminate|].
    destruct (_ =? 0); [discriminate|].
    destruct (is_inf _); discriminate.
Qed.

Lemma distance_sq_before_start_witness :
  point_to_segment_distance_sq (-3) 4 0 0 10 0 = Ok ((-3 - 0) ^ 2 + (4 - 0) ^ 2)
  \/ ((-3 - 0) * (10 - 0) + (4 - 0) * (0 - 0) < 0
      /\ point_to_segment_distance_sq (-3) 4 0 0 10 0 = Raise OverflowError).
Proof. apply (distance_sq_before_start (-3) 4 0 0 10 0). cbn. lia. Defined.

(** *** Bounding box *)

Section OutsideBox.
Variables x y : Z.

Local Abbreviation above p := (snd p >? y).

Lemma adjacent_ends (P : point -> Prop) (pts : list point) :
  forall pj : point,
    P pj -> Forall P pts ->
    Forall (fun e => P (fst e) /\ P (snd e)) (adjacent pj pts).
Proof.
  induction pts as [|p rest IH]; intros pj Hj Hall; [constructor|].
  apply Forall_cons in Hall as [Hp Hrest].
  cbn [adjacent]. constructor; [now split|]. now apply IH.
Qed.

Lemma no_crossing_filter (edges : list (point * point)) :
  Forall (fun e => ray_crosses x y e = false) edges ->
  List.filter (ray_crosses x y) edges = [].
Proof.
  induction 1 as [|e rest He _ IH]; [reflexivity|].
  cbn [List.filter]. now rewrite He.
Qed.

(** Around a closed polygon the line of the ray is passed an even number
    of times. *)
Lemma straddle_parity (pts : list point) :
  forall pj : point,
    Nat.odd (length (List.filter
                       (fun e => xorb (above (fst e)) (above (snd e)))
                       (adjacent pj pts)))
    = xorb (above pj) (above (List.last pts pj)).
Proof.
  induction pts as [|p rest IH]; intros pj.
  - cbn. now rewrite xorb_nilpotent.
  - cbn [adjacent List.filter fst snd].
    assert (Hlast : List.last (p :: rest) pj = List.last rest p)
      by (clear; revert p; induction rest as [|q r IHr]; intros p;
          [reflexivity|]; cbn [List.last] in *; destruct r; auto).
    rewrite Hlast.
    destruct (xorb (above pj) (above p)) eqn:Hx.
    + cbn [length]. rewrite Nat.odd_succ, <- Nat.negb_odd, IH.
      destruct (above pj), (above p), (above (List.last rest p));
        try reflexivity; discriminate.
    + rewrite IH.
      destruct (above pj), (above p), (above (List.last rest p));
        try reflexivity; discriminate.
Qed.

Lemma last_in (p : point) (pts : list point) (d : point) :
  List.last (p :: pts) d ∈ p :: pts.
Proof.
  revert p. induction pts as [|q rest IH]; intros p.
  - apply elem_of_cons. now left.
  - apply elem_of_cons. right. apply IH.
Qed.

Lemma last_default (p : point) (pts : list point) (d d' : point) :
  List.last (p :: pts) d = List.last (p :: pts) d'.
Proof.
  revert p. induction pts as [|q rest IH]; intros p; [reflexivity|].
  apply IH.
Qed.

Lemma left_filter (edges : list (point * point)) :
  Forall (fun e => (fun p : point => x < fst p) (fst e)
                   /\ (fun p : point => x < fst p) (snd e)) edges ->
  List.filter (ray_crosses x y) edges
  = List.filter (fun e => xorb (above (fst e)) (above (snd e))) edges.
Proof.
  induction 1 as [|e rest He _ IH]; [reflexivity|].
  cbn [List.filter]. rewrite IH.
  assert (E : ray_crosses x y e = xorb (above (fst e)) (above (snd e))).
  { destruct e as [[xa ya] [xb yb]]. cbn [fst snd] in *.
    destruct (xorb (ya >? y) (yb >? y)) eqn:Hx.
    - apply ray_crosses_products.
      destruct (Z.gtb_spec ya y), (Z.gtb_spec yb y); try discriminate.
      + right. split; [lia|]. nia.
      + left. split; [lia|]. nia.
    - unfold ray_crosses. now rewrite Hx. }
  now rewrite E.
Qed.

Lemma outside_box_not_inside (polygon_pts : list point) :
  Forall (fun p => x < fst p) polygon_pts
  \/ Forall (fun p => fst p <= x) polygon_pts
  \/ Forall (fun p => y < snd p) polygon_pts
  \/ Forall (fun p => snd p <= y) polygon_pts ->
  point_in_polygon x y polygon_pts = false.
Proof.
  intros Hbox. unfold point_in_polygon.
  destruct (length polygon_pts <? 3)%nat; [reflexivity|].
  destruct polygon_pts as [|p pts]; [reflexivity|].
  rewrite point_in_polygon_loop_parity. cbn [xorb].
  set (pj := List.last (p :: pts) (0, 0)).
  assert (Hpj : pj ∈ p :: pts) by apply last_in.
  assert (Hends : forall P : point -> Prop,
             Forall P (p :: pts) ->
             Forall (fun e => P (fst e) /\ P (snd e)) (adjacent pj (p :: pts))).
  { intros P HP. apply adjacent_ends; [|exact HP].
    rewrite Forall_forall in HP. now apply HP. }
  destruct Hbox as [Hl|[Hr|[Ha|Hb]]].
  - (* left of every vertex: every passage of the line is a crossing *)
    assert (E : List.filter (ray_crosses x y) (adjacent pj (p :: pts))
                = List.filter (fun e => xorb (above (fst e)) (above (snd e)))
                    (adjacent pj (p :: pts))).
    { apply left_filter. apply (Hends _ Hl). }
    rewrite E, straddle_parity.
    rewrite (last_default p pts pj (0, 0)). fold pj.
    apply xorb_nilpotent.
  - rewrite no_crossing_filter; [reflexivity|].
    apply Hends in Hr. eapply Forall_impl; [exact Hr|].
    intros [[xa ya] [xb yb]] [Hxa Hxb]. cbn [fst snd] in *.
    destruct (ray_crosses x y (xa, ya, (xb, yb))) eqn:Hc; [|exact Hc].
    apply ray_crosses_products in Hc as [[Hy Hp]|[Hy Hp]]; nia.
  - rewrite no_crossing_filter; [reflexivity|].
    apply Hends in Ha. eapply Forall_impl; [exact Ha|].
    intros [[xa ya] [xb yb]] [Hya Hyb]. cbn [fst snd] in *.
    unfold ray_crosses.
    destruct (Z.gtb_spec ya y), (Z.gtb_spec yb y); try reflexivity; lia.
  - rewrite no_crossing_filter; [reflexivity|].
    apply Hends in Hb. eapply Forall_impl; [exact Hb|].
    intros [[xa ya] [xb yb]] [Hya Hyb]. cbn [fst snd] in *.
    unfold ray_crosses.
    destruct (Z.gtb_spec ya y), (Z.gtb_spec yb y); try reflexivity; lia.
Qed.

(** X2. A point on or beyond a side of the bounding box of the polygon
    is never inside: to the left of every vertex, at or to the right of
    every vertex, above every vertex, or at or below every vertex. *)
Theorem point_in_polygon_outside_box (polygon_pts : list point) :
  Forall (fun p => x < fst p) polygon_pts
  \/ Forall (fun p => fst p <= x) polygon_pts
  \/ Forall (fun p => y < snd p) polygon_pts
  \/ Forall (fun p => snd p <= y) polygon_pts ->
  point_in_polygon x y polygon_pts = false.
Proof. apply outside_box_not_inside. Qed.

(** X25. A candidate that is strictly left of every vertex of the
    outline of the board, at or right of every vertex, strictly above
    every vertex (a smaller [y]), or at or below every vertex is
    rejected as [outside_board], whatever else is on the board, and no
    distance is computed for it.  (A candidate on the left or the upper
    side of the bounding box is not covered: the ray test counts it
    inside.) *)
Theorem outside_outline_box_rejected (via_radius : Z)
    (target_nets : gset string)
    (clearance same_net_clearance boundary_clearance : Z)
    (board_data : BoardData) (is_fence_mode : bool)
    (polygon_pts : option (list point)) :
  board_outline board_data <> [] ->
  Forall (fun p => x < fst p) (board_outline board_data)
  \/ Forall (fun p => fst p <= x) (board_outline board_data)
  \/ Forall (fun p => y < snd p) (board_outline board_data)
  \/ Forall (fun p => snd p <= y) (board_outline board_data) ->
  check_position_parallel x y via_radius target_nets clearance
    same_net_clearance boundary_clearance board_data is_fence_mode
    polygon_pts
  = Ok (rejected_at x y "outside_board").
Proof.
  intros Hne Hbox. unfold check_position_parallel. cbv zeta.
  rewrite (outside_box_not_inside _ Hbox).
  destruct (board_outline board_data); [contradiction|reflexivity].
Qed.

End OutsideBox.

Lemma point_in_polygon_outside_box_witness :
  point_in_polygon 7 3 [(0, 0); (5, 0); (5, 5); (2, 8); (0, 5)] = false.
Proof.
  apply point_in_polygon_outside_box. right. left.
  repeat constructor; cbn; lia.
Defined.

Lemma outside_outline_box_rejected_witness :
  check_position_parallel (-1) 5 300000 gnd 200000 127000 300000
    (with_outline bare_board (rectangle 0 0 10000000 10000000)) false None
  = Ok (rejected_at (-1) 5 "outside_board").
Proof.
  apply (outside_outline_box_rejected (-1) 5 300000 gnd 200000 127000 300000
           (with_outline bare_board (rectangle 0 0 10000000 10000000))
           false None).
  - discriminate.
  - left. repeat constructor; cbn; lia.
Defined.

(** X3. On the rectangle from [(x1, y1)] to [(x2, y2)], listed as the
    outline lists it, the test is that of the half-open box: the left
    and the upper side (the smaller coordinates) are inside, the right
    and the lower side are not. *)
Theorem point_in_rectangle (x y x1 y1 x2 y2 : Z) :
  x1 <= x2 -> y1 <= y2 ->
  point_in_polygon x y (rectangle x1 y1 x2 y2)
  = (x1 <=? x) && (x <? x2) && (y1 <=? y) && (y <? y2).
Proof.
  intros Hx Hy. unfold point_in_polygon, rectangle.
  cbn [length Nat.ltb Nat.leb List.last point_in_polygon_loop].
  replace ((x1 - x1) * (y - y1) / (y2 - y1)) with 0
    by (now replace (x1 - x1) with 0 by ring).
  replace ((x2 - x2) * (y - y2) / (y1 - y2)) with 0
    by (now replace (x2 - x2) with 0 by ring).
  rewrite !xorb_nilpotent. cbn [andb].
  destruct (Z.gtb_spec y1 y), (Z.gtb_spec y2 y), (Z.leb_spec x1 x),
    (Z.ltb_spec x x2), (Z.leb_spec y1 y), (Z.ltb_spec y y2);
    cbn; try lia;
    repeat match goal with
           | |- context [?a <? ?b] => destruct (Z.ltb_spec a b); try lia
           end; reflexivity.
Qed.

Lemma point_in_rectangle_witness :
  point_in_polygon 0 0 (rectangle 0 0 10 10) = true
  /\ point_in_polygon 10 10 (rectangle 0 0 10 10) = false.
Proof.
  split; rewrite (point_in_rectangle _ _ 0 0 10 10) by lia; reflexivity.
Defined.

(** ** More on the validator *)

Lemma check_after_board_verdict x y via_radius target_nets clearance
    same_net_clearance boundary_clearance board_data is_fence_mode
    polygon_pts (v : verdict) :
  check_after_board x y via_radius target_nets clearance same_net_clearance
    boundary_clearance board_data is_fence_mode polygon_pts = Ok v ->
  verdict_for (x, y) v.
Proof.
  unfold check_after_board, verdict_for, rejection_reasons. intros E.
  apply bind_Ok in E as (zone_edge & _ & E).
  destruct zone_edge;
    [injection E as <-; right; eexists; split; [|reflexivity]; in_list|].
  destruct (check_pads_loop _ _ _ _ _ _);
    [injection E as <-; right; eexists; split; [|reflexivity]; in_list|].
  destruct (check_vias_loop _ _ _ _ _ _ _);
    [injection E as <-; right; eexists; split; [|reflexivity]; in_list|].
  apply bind_Ok in E as (track & Ht & E).
  destruct track as [reason|].
  - injection E as <-. right. exists reason. split; [|reflexivity].
    apply check_tracks_loop_reason in Ht as [-> | ->]; in_list.
  - apply bind_Ok in E as (rule & _ & E).
    destruct rule; injection E as <-;
      [right; eexists; split; [|reflexivity]; in_list|now left].
Qed.

Lemma check_position_parallel_verdict x y via_radius target_nets clearance
    same_net_clearance boundary_clearance board_data is_fence_mode
    polygon_pts (v : verdict) :
  check_position_parallel x y via_radius target_nets clearance
    same_net_clearance boundary_clearance board_data is_fence_mode
    polygon_pts = Ok v ->
  verdict_for (x, y) v.
Proof.
  unfold check_position_parallel. cbv zeta.
  destruct (negb _ && negb _).
  { intros [= <-]. right. eexists. split; [|reflexivity].
    unfold rejection_reasons. in_list. }
  intros E. apply bind_Ok in E as (board_edge & _ & E).
  destruct board_edge.
  { injection E as <-. right. eexists. split; [|reflexivity].
    unfold rejection_reasons. in_list. }
  now apply check_after_board_verdict in E.
Qed.

Lemma check_positions_loop_verdicts (via_radius : Z)
    (target_nets : gset string)
    (clearance same_net_clearance boundary_clearance : Z)
    (board_data : BoardData) (is_fence_mode : bool)
    (polygon_pts : option (list point)) :
  forall (positions : list point) (results : list verdict),
    check_positions_loop positions via_radius target_nets clearance
      same_net_clearance boundary_clearance board_data is_fence_mode
      polygon_pts = Ok results ->
    Forall2 (fun p v =>
               verdict_for p v
               /\ check_position_parallel (fst p) (snd p) via_radius
                    target_nets clearance same_net_clearance
                    boundary_clearance board_data is_fence_mode polygon_pts
                  = Ok v)
            positions results.
Proof.
  induction positions as [|[x y] rest IH]; intros results E.
  - injection E as <-. constructor.
  - cbn [check_positions_loop] in E.
    apply bind_Ok in E as (v & Hv & E).
    apply bind_Ok in E as (vs & Hvs & E).
    injection E as <-. constructor; [|now apply IH].
    split; [|exact Hv]. now apply check_position_parallel_verdict in Hv.
Qed.

(** X4. A batch that returns gives one verdict for each position, in the
    order of the positions: each verdict repeats the coordinates of its
    position and is either accepted with the empty reason or rejected
    with one of the eight reasons, and it is the verdict that
    [check_position_parallel] gives for that position alone. *)
Theorem check_positions_batch_verdicts (via_radius : Z)
    (target_nets : gset string)
    (clearance same_net_clearance boundary_clearance : Z)
    (board_data : BoardData) (is_fence_mode : bool)
    (polygon_pts : option (list point))
    (positions : list point) (results : list verdict) :
  check_positions_batch positions via_radius target_nets clearance
    same_net_clearance boundary_clearance board_data is_fence_mode
    polygon_pts = Ok results ->
  Forall2 (fun p v =>
             verdict_for p v
             /\ check_position_parallel (fst p) (snd p) via_radius
                  target_nets clearance same_net_clearance
                  boundary_clearance board_data is_fence_mode polygon_pts
                = Ok v)
          positions results.
Proof. apply check_positions_loop_verdicts. Qed.

Lemma check_positions_batch_verdicts_witness :
  Forall2 (fun p v =>
             verdict_for p v
             /\ check_position_parallel (fst p) (snd p) 300000 gnd 200000
                  127000 300000 (with_vias bare_board [small_via]) false None
                = Ok v)
          [(0, 0); (5000000, 0)]
          [rejected_at 0 0 "via"; accepted_at 5000000 0].
Proof.
  apply (check_positions_batch_verdicts 300000 gnd 200000 127000 300000
           (with_vias bare_board [small_via]) false None).
  vm_compute. reflexivity.
Defined.

(** *** Pads *)

Lemma half_extent_nonneg (f : Z * Z -> Z) (copper : list (Z * Z)) :
  forall acc : Z,
    0 <= acc -> 0 <= foldl (fun acc size => Z.max acc (f size / 2)) acc copper.
Proof.
  induction copper as [|size rest IH]; intros acc Hacc; [exact Hacc|].
  cbn [foldl]. apply IH. lia.
Qed.

Lemma extract_pads_nonneg (ps : list Pad) :
  Forall nonneg_extents (extract_pads ps).
Proof.
  induction ps as [|pad rest IH]; [constructor|].
  cbn [extract_pads]. destruct (is_nil _); [exact IH|].
  constructor; [|exact IH].
  split; cbn; now apply half_extent_nonneg.
Qed.

Lemma check_pads_loop_existsb (x y via_radius : Z) (target_nets : gset string)
    (clearance : Z) (ps : list PadData) :
  0 <= clearance -> Forall nonneg_extents ps ->
  check_pads_loop x y via_radius target_nets clearance ps
  = existsb (pad_too_close x y via_radius target_nets clearance) ps.
Proof.
  intros Hc. induction 1 as [|pad rest [Hw Hh] _ IH]; [reflexivity|].
  cbn [check_pads_loop existsb]. rewrite IH. unfold pad_too_close.
  assert (Hhalf : clearance / 2 <= clearance)
    by (apply Z.div_le_upper_bound; lia).
  set (req := if _ && negb _ then clearance / 2 else clearance).
  assert (Hreq : req <= clearance) by (subst req; destruct (_ && _); lia).
  destruct ((Z.abs (x - pd_x pad) >? _) || _) eqn:Hskip.
  - replace ((Z.abs (x - pd_x pad) <? _) && _) with false; [reflexivity|].
    symmetry. apply andb_false_iff.
    apply orb_true_iff in Hskip as [Hd|Hd]; apply Z.gtb_lt in Hd.
    + left. apply Z.ltb_ge. lia.
    + right. apply Z.ltb_ge. lia.
  - now destruct ((Z.abs (x - pd_x pad) <? _) && _).
Qed.

Lemma check_clearance_to_pads_existsb (x y via_radius : Z)
    (target_nets : gset string) (clearance : Z) (ps : list Pad) :
  fst (check_clearance_to_pads x y via_radius ps target_nets clearance)
  = negb (existsb (pad_too_close x y via_radius target_nets clearance)
            (extract_pads ps)).
Proof.
  induction ps as [|pad rest IH]; [reflexivity|].
  cbn [check_clearance_to_pads extract_pads].
  destruct (is_nil _); [exact IH|].
  unfold pad_half_extents. cbn [existsb]. unfold pad_too_close at 1.
  cbn [pd_x pd_y pd_half_w pd_half_h pd_net].
  destruct (_ && _); [reflexivity|exact IH].
Qed.

(** X5. With a clearance that is not negative and pads whose half
    extents are not negative, the bounding check that comes first in the
    pad loop never changes the outcome: the loop rejects exactly when
    some pad fails the box test. *)
Theorem pad_bounding_check_is_sound (x y via_radius : Z)
    (target_nets : gset string) (clearance : Z) (ps : list PadData) :
  0 <= clearance -> Forall nonneg_extents ps ->
  check_pads_loop x y via_radius target_nets clearance ps
  = existsb (pad_too_close x y via_radius target_nets clearance) ps.
Proof. apply check_pads_loop_existsb. Qed.

Lemma pad_bounding_check_is_sound_witness :
  check_pads_loop 4300000 0 300000 gnd 200000 (extract_pads [gnd_pad])
  = existsb (pad_too_close 4300000 0 300000 gnd 200000)
      (extract_pads [gnd_pad]).
Proof.
  apply (pad_bounding_check_is_sound 4300000 0 300000 gnd 200000
           (extract_pads [gnd_pad])).
  - lia.
  - repeat constructor; cbn; lia.
Defined.

(** X6. The check on the pads of the board and the pad loop of
    [check_position_parallel] on the extracted pads agree, for every
    clearance that is not negative: one accepts exactly when the other
    does not reject. *)
Theorem check_clearance_to_pads_agrees (x y via_radius : Z)
    (target_nets : gset string) (clearance : Z) (ps : list Pad) :
  0 <= clearance ->
  fst (check_clearance_to_pads x y via_radius ps target_nets clearance)
  = negb (check_pads_loop x y via_radius target_nets clearance
            (extract_pads ps)).
Proof.
  intros Hc. rewrite check_clearance_to_pads_existsb.
  rewrite check_pads_loop_existsb;
    [reflexivity|exact Hc|apply extract_pads_nonneg].
Qed.

Lemma check_clearance_to_pads_agrees_witness :
  fst (check_clearance_to_pads 4300000 0 300000 [gnd_pad] gnd 200000)
  = negb (check_pads_loop 4300000 0 300000 gnd 200000 (extract_pads [gnd_pad])).
Proof.
  apply (check_clearance_to_pads_agrees 4300000 0 300000 gnd 200000 [gnd_pad]).
  lia.
Defined.

(** X7. The check on the vias of the board and the via loop of
    [check_position_parallel] on the extracted vias agree on every
    input, the bounding check included. *)
Theorem check_clearance_to_vias_agrees (x y via_radius : Z)
    (target_nets : gset string) (clearance same_net_clearance : Z)
    (vs : list Via) :
  fst (check_clearance_to_vias x y via_radius vs target_nets clearance
         same_net_clearance)
  = negb (check_vias_loop x y via_radius target_nets clearance
            same_net_clearance (map extract_via vs)).
Proof.
  induction vs as [|via rest IH]; [reflexivity|].
  cbn [check_clearance_to_vias check_vias_loop map extract_via
       vd_x vd_y vd_radius vd_net].
  destruct (_ || _); [exact IH|].
  destruct (_ <? _); [reflexivity|exact IH].
Qed.

(** X8. The rule-area loop looks only at the entries without a net name
    that have at least three points: zones with a net and degenerate
    polygons never reject a candidate, and no distance is computed for
    them. *)
Theorem check_rule_areas_loop_filter (x y via_radius : Z)
    (zps : list (string * list point)) :
  check_rule_areas_loop x y via_radius zps
  = check_rule_areas_loop x y via_radius (List.filter is_rule_area zps).
Proof.
  induction zps as [|[zone_net zone_poly] rest IH]; [reflexivity|].
  cbn [check_rule_areas_loop List.filter]. unfold is_rule_area at 1.
  cbn [fst snd].
  destruct (String.eqb zone_net "") eqn:Hnet; cbn [negb andb]; [|exact IH].
  destruct (Nat.leb_spec 3 (length zone_poly)) as [Hlen|Hlen].
  - cbn [check_rule_areas_loop]. rewrite Hnet. cbn [negb].
    replace (is_nil zone_poly || (length zone_poly <? 3)%nat) with false.
    2: { symmetry. apply orb_false_iff. split.
         - destruct zone_poly; [cbn in Hlen; lia|reflexivity].
         - apply Nat.ltb_ge. exact Hlen. }
    destruct (point_in_polygon x y zone_poly); [reflexivity|].
    destruct (distance_to_polygon_edge x y zone_poly) as [d|e|];
      cbn [mbind res_bind]; try reflexivity.
    destruct (py_lt d (Int via_radius)); [reflexivity|exact IH].
  - replace (is_nil zone_poly || (length zone_poly <? 3)%nat) with true;
      [exact IH|].
    symmetry. apply orb_true_iff. right. apply Nat.ltb_lt. exact Hlen.
Qed.

(** ** More on the runs *)

Lemma find_net_objects_lookup (nets : list Net) (target_nets : gset string) :
  forall (k : string) (n : Net),
    find_net_objects nets target_nets !! k = Some n ->
    net_name n = k /\ k ∈ target_nets /\ n ∈ nets.
Proof.
  unfold find_net_objects.
  induction nets as [|net rest IH] using rev_ind; intros k n.
  - cbn. rewrite lookup_empty. discriminate.
  - rewrite foldl_app. cbn [foldl].
    destruct (bool_decide_reflect (net_name net ∈ target_nets)) as [Hin|Hin].
    + destruct (decide (net_name net = k)) as [<-|Hne].
      * rewrite lookup_insert_eq. intros [= <-].
        split_goal; auto. apply elem_of_app. right.
        now apply list_elem_of_singleton.
      * rewrite lookup_insert_ne by exact Hne. intros E.
        destruct (IH _ _ E) as (? & ? & ?). split_goal; auto.
        apply elem_of_app. now left.
    + intros E. destruct (IH _ _ E) as (? & ? & ?). split_goal; auto.
      apply elem_of_app. now left.
Qed.

Lemma find_net_objects_none (nets : list Net) (target_nets : gset string) :
  Forall (fun n => net_name n ∉ target_nets) nets ->
  find_net_objects nets target_nets = ∅.
Proof.
  unfold find_net_objects. generalize (∅ : gmap string Net).
  intros acc Hall. revert acc.
  induction Hall as [|net rest Hnet _ IH]; intros acc; [reflexivity|].
  cbn [foldl]. rewrite bool_decide_eq_false_2 by exact Hnet. apply IH.
Qed.

Lemma new_via_made_by (nets : list Net) (config : StitchingConfig)
    (net : Net) (x y : Z) :
  net ∈ nets -> net_name net ∈ net_names config ->
  made_by nets config (new_via x y net config).
Proof.
  intros Hn Hname. exists net. cbn. split_goal; auto.
  intros ->. now split.
Qed.

Lemma process_results_made (P : Via -> Prop) (net : Net)
    (config : StitchingConfig) :
  (forall x y, P (new_via x y net config)) ->
  forall (check_results : list verdict) (result result' : StitchingResult),
    process_results check_results net config result = Ok result' ->
    Forall P (result_vias result) -> Forall P (result_vias result').
Proof.
  intros Hnew.
  induction check_results as [|[[[x y] is_valid] reason] rest IH];
    intros result result' E Hall.
  - now injection E as <-.
  - cbn [process_results] in E. destruct is_valid.
    + apply IH in E; [exact E|]. cbn [result_vias].
      apply Forall_app. split; [exact Hall|]. constructor; [apply Hnew|constructor].
    + apply bind_Ok in E as (reasons & _ & E). apply IH in E; exact E || exact Hall.
Qed.

Section Runs.
Context `{Host}.

Lemma polygons_loop_made (P : Via -> Prop) (fuel : nat) (tape : nat -> Z)
    (config : StitchingConfig) (target_nets : gset string)
    (via_radius same_net_clearance : Z) (board_data : BoardData)
    (is_fence_mode : bool) (target_net : Net) :
  (forall x y, P (new_via x y target_net config)) ->
  forall (polygons : list (list point)) (result : StitchingResult)
         (cursor : nat) (result' : StitchingResult) (cursor' : nat),
    polygons_loop fuel tape config target_nets via_radius same_net_clearance
      board_data is_fence_mode target_net polygons result cursor
    = Ok (result', cursor') ->
    (Forall P (result_vias result) -> Forall P (result_vias result'))
    /\ zones_found result' = zones_found result
    /\ tracks_found result' = tracks_found result.
Proof.
  intros Hnew.
  induction polygons as [|polygon_pts rest IH];
    intros result cursor result' cursor' E.
  - injection E as <- <-. auto.
  - cbn [polygons_loop] in E.
    destruct (is_nil polygon_pts); [now apply IH in E|].
    apply bind_Ok in E as ([grid_positions c] & _ & E).
    destruct (is_nil grid_positions).
    + apply IH in E. exact E.
    + apply bind_Ok in E as (check_results & _ & E).
      apply bind_Ok in E as (result2 & Hp & E).
      apply IH in E as (Hv & Hz & Ht).
      pose proof (process_results_made P target_net config Hnew _ _ _ Hp)
        as Hv2.
      apply process_results_spec in Hp as (_ & _ & Hz2 & Ht2 & _).
      cbn in Hv2, Hz2, Ht2. split_goal; [auto|congruence|congruence].
Qed.

Lemma zones_loop_made (P : Via -> Prop) (fuel : nat) (tape : nat -> Z)
    (config : StitchingConfig) (target_nets : gset string)
    (net_objects : gmap string Net)
    (via_radius same_net_clearance : Z) (board_data : BoardData)
    (is_fence_mode : bool) :
  (forall k n x y, net_objects !! k = Some n -> P (new_via x y n config)) ->
  forall (target_zones : list Zone) (result : StitchingResult)
         (cursor : nat) (result' : StitchingResult) (cursor' : nat),
    zones_loop fuel tape config target_nets net_objects via_radius
      same_net_clearance board_data is_fence_mode target_zones result cursor
    = Ok (result', cursor') ->
    (Forall P (result_vias result) -> Forall P (result_vias result'))
    /\ zones_found result' = zones_found result
    /\ tracks_found result' = tracks_found result.
Proof.
  intros Hnew.
  induction target_zones as [|zone rest IH];
    intros result cursor result' cursor' E.
  - injection E as <- <-. auto.
  - cbn [zones_loop] in E.
    destruct (net_objects !! net_name_of (zone_net zone))
      as [target_net|] eqn:Hl; [|now apply IH in E].
    apply bind_Ok in E as ([result1 c1] & Hp & E).
    apply IH in E as (Hv & Hz & Ht).
    eapply polygons_loop_made in Hp as (Hv1 & Hz1 & Ht1);
      [|intros x y; eapply Hnew; exact Hl].
    split_goal; [auto|congruence|congruence].
Qed.

Lemma trace_fencing_made (fuel : nat) (board : Board)
    (config : StitchingConfig) (selected_tracks : option (list Track))
    (result : StitchingResult) :
  generate_trace_fencing fuel board config selected_tracks = Ok result ->
  Forall (made_by (get_nets board) config) (result_vias result)
  /\ zones_found result = 0
  /\ (tracks_found result = 0
      \/ tracks_found result = Z.of_nat (length (default [] selected_tracks))).
Proof.
  unfold generate_trace_fencing. cbv zeta.
  destruct (dict_is_empty _).
  { intros [= <-]. cbn. split_goal; auto. }
  destruct (net_names config) as [|first others] eqn:Hnames.
  { intros [= <-]. cbn. split_goal; auto. }
  destruct (find_net_objects _ _ !! first) as [fence_net|] eqn:Hl.
  2: { intros [= <-]. cbn. split_goal; auto. }
  destruct (is_nil (default [] selected_tracks)).
  { intros [= <-]. cbn. split_goal; auto. }
  intros E.
  apply bind_Ok in E as (board_data & _ & E).
  apply bind_Ok in E as (all_positions & _ & E).
  apply bind_Ok in E as (check_results & _ & E).
  apply find_net_objects_lookup in Hl as (Hname & _ & Hin).
  assert (Hmem : net_name fence_net ∈ net_names config)
    by (rewrite Hnames, Hname; apply elem_of_cons; now left).
  pose proof (process_results_made (made_by (get_nets board) config)
                fence_net config
                (fun x y => new_via_made_by (get_nets board) config
                              fence_net x y Hin Hmem)
                _ _ _ E) as Hv.
  apply process_results_spec in E as (_ & _ & Hz & Ht & _).
  cbn in Hv, Hz, Ht. split_goal; [apply Hv; constructor|exact Hz|now right].
Qed.

Lemma run_made (fuel : nat) (tape : nat -> Z) (cursor : nat)
    (board : Board) (config : StitchingConfig)
    (selected_zones : option (list Zone))
    (selected_tracks : option (list Track)) (result : StitchingResult) :
  generate_via_stitching fuel tape cursor board config selected_zones
    selected_tracks = Ok result ->
  Forall (made_by (get_nets board) config) (result_vias result).
Proof.
  unfold generate_via_stitching. intros E.
  destruct (mode config);
    try (now apply trace_fencing_made in E);
    cbv zeta in E;
    (destruct (dict_is_empty _); [injection E as <-; constructor|]);
    (destruct (is_nil (if selected_only config && _ then _ else _));
     [injection E as <-; constructor|]);
    apply bind_Ok in E as (board_data & _ & E);
    apply bind_Ok in E as ([result' c] & Hloop & E);
    injection E as <-;
    (eapply zones_loop_made in Hloop as (Hv & _);
     [apply Hv; constructor|]);
    intros k n x y Hl;
    apply find_net_objects_lookup in Hl as (Hname & Hk & Hin);
    (apply new_via_made_by; [exact Hin|]);
    rewrite Hname; unfold target_net_set in Hk;
    now apply elem_of_list_to_set in Hk.
Qed.

(** X9. Every via that a run returns, in any mode, is on a net of the
    board that the configuration names, and has the type, the diameter
    and the drill of the configuration; a through via has no layer
    pair. *)
Theorem run_vias_follow_config (fuel : nat) (tape : nat -> Z) (cursor : nat)
    (board : Board) (config : StitchingConfig)
    (selected_zones : option (list Zone))
    (selected_tracks : option (list Track)) (result : StitchingResult)
    (via : Via) :
  generate_via_stitching fuel tape cursor board config selected_zones
    selected_tracks = Ok result ->
  via ∈ result_vias result ->
  exists net,
    via_net via = Some net /\ net ∈ get_nets board
    /\ net_name net ∈ net_names config
    /\ via_kind via = via_type config
    /\ via_diameter via = via_diameter_nm config
    /\ via_drill_diameter via = via_drill_nm config
    /\ (via_type config = VT_THROUGH ->
        via_start_layer via = None /\ via_end_layer via = None).
Proof.
  intros E Hin. apply run_made in E.
  rewrite Forall_forall in E. exact (E via Hin).
Qed.

(** X11. When no net of the board has one of the configured names, the
    run stops before the board is read any further, whatever the mode,
    the selection, the fuel and the random tape: it returns the empty
    result with the message [no_nets]. *)
Theorem no_matching_net_stops_run (fuel : nat) (tape : nat -> Z)
    (cursor : nat) (board : Board) (config : StitchingConfig)
    (selected_zones : option (list Zone))
    (selected_tracks : option (list Track)) :
  Forall (fun n => net_name n ∉ net_names config) (get_nets board) ->
  generate_via_stitching fuel tape cursor board config selected_zones
    selected_tracks
  = Ok (with_reason empty_result "no_nets"
          (Message (no_nets_message (mode config)))).
Proof.
  intros Hnone.
  assert (E : find_net_objects (get_nets board) (target_net_set config) = ∅).
  { apply find_net_objects_none. eapply Forall_impl; [exact Hnone|].
    intros n Hn Hin. apply Hn. unfold target_net_set in Hin.
    now apply elem_of_list_to_set in Hin. }
  unfold generate_via_stitching, generate_trace_fencing.
  destruct (mode config); cbv zeta; rewrite E; reflexivity.
Qed.

End Runs.

Lemma dict_is_empty_spec {V} (m : gmap string V) :
  dict_is_empty m = true <-> m = ∅.
Proof.
  unfold dict_is_empty. rewrite <- map_to_list_empty_iff.
  destruct (map_to_list m); cbn; split; congruence.
Qed.

Lemma find_net_objects_empty (nets : list Net) (target_nets : gset string) :
  dict_is_empty (find_net_objects nets target_nets)
  = negb (existsb (fun n => bool_decide (net_name n ∈ target_nets)) nets).
Proof.
  unfold find_net_objects.
  induction nets as [|net rest IH] using rev_ind.
  - cbn [foldl existsb negb].
    apply (proj2 (dict_is_empty_spec (∅ : gmap string Net))). reflexivity.
  - rewrite foldl_app, existsb_app. cbn [foldl existsb].
    rewrite orb_false_r, negb_orb, <- IH.
    destruct (bool_decide (net_name net ∈ target_nets)); cbn [negb].
    + rewrite andb_false_r.
      destruct (dict_is_empty (<[net_name net:=net]> _)) eqn:E;
        [|reflexivity].
      apply dict_is_empty_spec in E. now apply insert_non_empty in E.
    + now rewrite andb_true_r.
Qed.

Lemma find_net_objects_found (nets : list Net) (target_nets : gset string)
    (k : string) :
  k ∈ target_nets ->
  match find_net_objects nets target_nets !! k with
  | Some _ => true
  | None => false
  end
  = existsb (fun n => String.eqb (net_name n) k) nets.
Proof.
  intros Hk. unfold find_net_objects.
  induction nets as [|net rest IH] using rev_ind.
  - cbn. now rewrite lookup_empty.
  - rewrite foldl_app, existsb_app. cbn [foldl existsb].
    rewrite orb_false_r, <- IH.
    destruct (String.eqb_spec (net_name net) k) as [E|Hne].
    + rewrite bool_decide_eq_true_2 by (now rewrite E).
      rewrite E, lookup_insert_eq. now rewrite orb_true_r.
    + rewrite orb_false_r.
      destruct (bool_decide (net_name net ∈ target_nets)); [|reflexivity].
      now rewrite lookup_insert_ne.
Qed.

Section Counts.
Context `{Host}.

Lemma some_net_matches_spec (board : Board) (config : StitchingConfig) :
  dict_is_empty (find_net_objects (get_nets board) (target_net_set config))
  = negb (some_net_matches board config).
Proof.
  rewrite find_net_objects_empty. unfold some_net_matches, target_net_set.
  f_equal. induction (get_nets board) as [|n ns IH]; [reflexivity|].
  cbn [existsb]. rewrite IH. f_equal. apply bool_decide_ext.
  apply elem_of_list_to_set.
Qed.

Lemma trace_fencing_counts (fuel : nat) (board : Board)
    (config : StitchingConfig) (selected_tracks : option (list Track))
    (result : StitchingResult) :
  generate_trace_fencing fuel board config selected_tracks = Ok result ->
  zones_found result = 0
  /\ tracks_found result
     = if fence_net_on_board board config
       then Z.of_nat (length (default [] selected_tracks)) else 0.
Proof.
  unfold generate_trace_fencing, fence_net_on_board. cbv zeta.
  destruct (dict_is_empty _) eqn:Hempty.
  { intros [= <-]. cbn. split; [reflexivity|].
    apply dict_is_empty_spec in Hempty.
    destruct (net_names config) as [|first others] eqn:Hnames;
      [reflexivity|].
    rewrite <- (find_net_objects_found _ (target_net_set config))
      by (unfold target_net_set; rewrite Hnames;
          apply elem_of_list_to_set, elem_of_cons; now left).
    rewrite Hempty, lookup_empty. reflexivity. }
  destruct (net_names config) as [|first others] eqn:Hnames.
  { intros [= <-]. now cbn. }
  rewrite <- (find_net_objects_found _ (target_net_set config))
    by (unfold target_net_set; rewrite Hnames;
        apply elem_of_list_to_set, elem_of_cons; now left).
  destruct (find_net_objects _ _ !! first) as [fence_net|].
  2: { intros [= <-]. now cbn. }
  destruct (default [] selected_tracks) as [|t ts] eqn:Hsel; cbn [is_nil].
  { intros [= <-]. now cbn. }
  intros E.
  apply bind_Ok in E as (board_data & _ & E).
  apply bind_Ok in E as (all_positions & _ & E).
  apply bind_Ok in E as (check_results & _ & E).
  apply process_results_spec in E as (_ & _ & Hz & Ht & _).
  cbn in Hz, Ht. split; [exact Hz|exact Ht].
Qed.

(** X10. In a zone mode the result carries no track count, and its zone
    count is the number of zones on a target net among those considered
    when some net of the board has a configured name, and zero when
    none has.  In trace mode it carries no zone count, and its track
    count is the number of selected tracks when a net of the board has
    the first configured name, and zero when none has. *)
Theorem run_found_counts (fuel : nat) (tape : nat -> Z) (cursor : nat)
    (board : Board) (config : StitchingConfig)
    (selected_zones : option (list Zone))
    (selected_tracks : option (list Track)) (result : StitchingResult) :
  generate_via_stitching fuel tape cursor board config selected_zones
    selected_tracks = Ok result ->
  match mode config with
  | FENCE_TRACE =>
      zones_found result = 0
      /\ tracks_found result
         = if fence_net_on_board board config
           then Z.of_nat (length (default [] selected_tracks)) else 0
  | _ =>
      tracks_found result = 0
      /\ zones_found result
         = if some_net_matches board config
           then Z.of_nat
                  (length (filter (zone_matches (target_net_set config))
                             (considered_zones board config selected_zones)))
           else 0
  end.
Proof.
  unfold generate_via_stitching, considered_zones. intros E.
  destruct (mode config);
    try (now apply trace_fencing_counts in E);
    cbv zeta in E; rewrite some_net_matches_spec in E;
    (destruct (some_net_matches board config); cbn [negb] in E;
     [|injection E as <-; cbn; auto]);
    destruct (selected_only config && _);
    (destruct (is_nil (filter _ _));
     [injection E as <-; cbn; auto|]);
    apply bind_Ok in E as (board_data & _ & E);
    apply bind_Ok in E as ([result' c] & Hloop & E);
    injection E as <-;
    (eapply zones_loop_made with (P := fun _ => True) in Hloop
       as (_ & Hz & Ht); [|auto]);
    cbn in Hz, Ht; auto.
Qed.

End Counts.

Lemma run_vias_follow_config_witness :
  exists net,
    via_net (new_via 2000000 2000000 gnd_net fill_config) = Some net
    /\ net ∈ get_nets square_board
    /\ net_name net ∈ net_names fill_config
    /\ via_kind (new_via 2000000 2000000 gnd_net fill_config)
       = via_type fill_config
    /\ via_diameter (new_via 2000000 2000000 gnd_net fill_config)
       = via_diameter_nm fill_config
    /\ via_drill_diameter (new_via 2000000 2000000 gnd_net fill_config)
       = via_drill_nm fill_config
    /\ (via_type fill_config = VT_THROUGH ->
        via_start_layer (new_via 2000000 2000000 gnd_net fill_config) = None
        /\ via_end_layer (new_via 2000000 2000000 gnd_net fill_config) = None).
Proof.
  apply (run_vias_follow_config (H:=plain_host) 20 zero_tape 0 square_board
           fill_config None None (returned fill_run)).
  - vm_compute. reflexivity.
  - apply list_elem_of_In. vm_compute. auto.
Defined.

Lemma run_found_counts_witness :
  fill_run = Ok (returned fill_run)
  /\ (tracks_found (returned fill_run) = 0
      /\ zones_found (returned fill_run) = 1).
Proof.
  split; [vm_compute; reflexivity|].
  apply (run_found_counts (H:=plain_host) 20 zero_tape 0 square_board
           fill_config None None (returned fill_run)).
  vm_compute. reflexivity.
Defined.

Lemma no_matching_net_stops_run_witness :
  generate_via_stitching (H:=plain_host) 0 zero_tape 0 vcc_board fill_config
    None None
  = Ok (with_reason empty_result "no_nets"
          (Message (no_nets_message (mode fill_config)))).
Proof.
  apply (no_matching_net_stops_run (H:=plain_host) 0 zero_tape 0 vcc_board
           fill_config None None).
  constructor; [|constructor].
  intros Hin. apply list_elem_of_In in Hin. cbn in Hin.
  destruct Hin as [E|[]]. discriminate E.
Defined.

(** ** Existing stitching vias *)

Lemma find_stitching_vias_loop_filter (target_nets : gset string)
    (diameter drill : Z) :
  forall (vs matching_vias : list Via),
    find_stitching_vias_loop vs target_nets diameter drill matching_vias
    = matching_vias
      ++ List.filter (is_stitching_via target_nets diameter drill) vs.
Proof.
  induction vs as [|via rest IH]; intros matching_vias.
  - cbn. now rewrite app_nil_r.
  - cbn [find_stitching_vias_loop List.filter].
    assert (E : is_stitching_via target_nets diameter drill via
                = bool_decide (net_name_of (via_net via) ∈ target_nets)
                  && ((Z.abs (via_diameter via - diameter) <? from_mm_0_01)
                      && (Z.abs (via_drill_diameter via - drill)
                          <? from_mm_0_01))) by reflexivity.
    rewrite E.
    destruct (bool_decide _); cbn [negb andb]; [|apply IH].
    destruct (_ && _); rewrite IH; [|reflexivity].
    now rewrite <- app_assoc.
Qed.

Lemma made_by_is_stitching_via (nets : list Net) (config : StitchingConfig)
    (via : Via) :
  made_by nets config via ->
  is_stitching_via (list_to_set (net_names config)) (via_diameter_nm config)
    (via_drill_nm config) via = true.
Proof.
  intros (net & Hnet & _ & Hname & _ & Hd & Hr & _).
  unfold is_stitching_via. rewrite Hnet, Hd, Hr, !Z.sub_diag. cbn.
  rewrite andb_true_r. apply bool_decide_eq_true_2.
  now apply elem_of_list_to_set.
Qed.

(** X12. [find_stitching_vias] returns, in the order of the board, the
    vias of the board whose net is one of the given names and whose
    diameter and drill are each less than 0.01mm away from the given
    ones; a via without a net counts as on the net of empty name. *)
Theorem find_stitching_vias_spec (board : Board) (names : list string)
    (diameter drill : Z) :
  find_stitching_vias board names diameter drill
  = List.filter
      (fun via =>
         bool_decide (net_name_of (via_net via) ∈ names)
         && (Z.abs (via_diameter via - diameter) <? 10000)
         && (Z.abs (via_drill_diameter via - drill) <? 10000))
      (get_vias board).
Proof.
  unfold find_stitching_vias. rewrite find_stitching_vias_loop_filter.
  cbn [app]. apply List.filter_ext. intros via. unfold is_stitching_via.
  rewrite andb_assoc. do 2 f_equal.
  apply bool_decide_ext. apply elem_of_list_to_set.
Qed.

Section FindAfterRun.
Context `{Host}.

(** X13. The vias that a run returns are found again: once they are
    added to the board, [find_stitching_vias] with the names, the
    diameter and the drill of the same configuration returns what it
    found before the run, followed by all the vias of the run in their
    order. *)
Theorem find_stitching_vias_after_run (fuel : nat) (tape : nat -> Z)
    (cursor : nat) (board : Board) (config : StitchingConfig)
    (selected_zones : option (list Zone))
    (selected_tracks : option (list Track)) (result : StitchingResult) :
  generate_via_stitching fuel tape cursor board config selected_zones
    selected_tracks = Ok result ->
  find_stitching_vias (with_more_vias board (result_vias result))
    (net_names config) (via_diameter_nm config) (via_drill_nm config)
  = find_stitching_vias board (net_names config) (via_diameter_nm config)
      (via_drill_nm config)
    ++ result_vias result.
Proof.
  intros E. apply run_made in E.
  unfold find_stitching_vias. rewrite !find_stitching_vias_loop_filter.
  cbn [app with_more_vias get_vias]. rewrite List.filter_app. f_equal.
  induction E as [|via rest Hvia _ IH]; [reflexivity|].
  cbn [List.filter].
  rewrite (made_by_is_stitching_via _ _ _ Hvia). now rewrite IH.
Qed.

End FindAfterRun.

Lemma find_stitching_vias_after_run_witness :
  find_stitching_vias
    (with_more_vias square_board (result_vias (returned fill_run)))
    (net_names fill_config) (via_diameter_nm fill_config)
    (via_drill_nm fill_config)
  = find_stitching_vias square_board (net_names fill_config)
      (via_diameter_nm fill_config) (via_drill_nm fill_config)
    ++ result_vias (returned fill_run).
Proof.
  apply (find_stitching_vias_after_run (H:=plain_host) 20 zero_tape 0
           square_board fill_config None None (returned fill_run)).
  vm_compute. reflexivity.
Defined.

(** ** Board outline and snapshot *)

Section Outline.
Context `{Host}.

Lemma board_outline_loop_straight (corner_radius : Z) :
  corner_radius <= 0 ->
  forall (shapes : list Shape) (outline_pts : list point),
    existsb is_edge_circle shapes = false ->
    board_outline_loop corner_radius shapes outline_pts
    = Ok (outline_pts ++ flat_map straight_outline_points shapes).
Proof.
  intros Hr.
  assert (Hgt : (corner_radius >? 0) = false)
    by (destruct (Z.gtb_spec corner_radius 0); [lia|reflexivity]).
  induction shapes as [|shape rest IH]; intros outline_pts Hc.
  - cbn. now rewrite app_nil_r.
  - cbn [existsb] in Hc. apply orb_false_iff in Hc as [Hs Hc].
    cbn [board_outline_loop flat_map].
    destruct shape as [layer tl br|layer s e|layer s e|layer c rp|layer];
      cbn [straight_outline_points is_edge_circle] in *;
      try (destruct (layer =? BL_Edge_Cuts); cbn [negb];
           try rewrite Hgt; rewrite IH by exact Hc;
           rewrite <- ?app_assoc; cbn [app]; reflexivity);
      try discriminate.
    rewrite Hs. cbn [negb]. now rewrite IH.
Qed.

Lemma corner_arc_loop_length (k : nat) (cx cy r : Z) :
  forall (indices : list nat) (outline_pts pts : list point),
    corner_arc_loop k cx cy r indices outline_pts = Ok pts ->
    length pts = (length outline_pts + length indices)%nat.
Proof.
  induction indices as [|i rest IH]; intros outline_pts pts E.
  - injection E as <-. cbn. lia.
  - cbn [corner_arc_loop] in E.
    repeat (apply bind_Ok in E as (? & _ & E)).
    apply IH in E. rewrite E, length_app. cbn. lia.
Qed.

Lemma circle_loop_length (cx cy : Z) (r : num) :
  forall (indices : list nat) (outline_pts pts : list point),
    circle_loop cx cy r indices outline_pts = Ok pts ->
    length pts = (length outline_pts + length indices)%nat.
Proof.
  induction indices as [|i rest IH]; intros outline_pts pts E.
  - injection E as <-. cbn. lia.
  - cbn [circle_loop] in E.
    repeat (apply bind_Ok in E as (? & _ & E)).
    apply IH in E. rewrite E, length_app. cbn. lia.
Qed.

Lemma board_outline_loop_length (corner_radius : Z) :
  forall (shapes : list Shape) (outline_pts pts : list point),
    board_outline_loop corner_radius shapes outline_pts = Ok pts ->
    length pts
    = (length outline_pts
       + list_sum (map (outline_point_count corner_radius) shapes))%nat.
Proof.
  induction shapes as [|shape rest IH]; intros outline_pts pts E.
  - injection E as <-. cbn. lia.
  - cbn [board_outline_loop] in E.
    change (list_sum (map (outline_point_count corner_radius) (shape :: rest)))
      with (outline_point_count corner_radius shape
            + list_sum (map (outline_point_count corner_radius) rest))%nat.
    destruct shape as [layer tl br|layer s e|layer s e|layer c rp|layer];
      cbn [outline_point_count];
      try (destruct (layer =? BL_Edge_Cuts); cbn [negb] in E; cbv iota;
           [|apply IH in E; rewrite E; lia]).
    + destruct (corner_radius >? 0).
      * destruct tl as [x1 y1], br as [x2 y2].
        apply bind_Ok in E as (p1 & H1 & E).
        apply bind_Ok in E as (p3 & H3 & E).
        apply bind_Ok in E as (p5 & H5 & E).
        apply bind_Ok in E as (p7 & H7 & E).
        apply corner_arc_loop_length in H1, H3, H5, H7.
        apply IH in E.
        rewrite ?length_app, ?length_seq in *. cbn [length] in *.
        unfold point in *. lia.
      * apply IH in E. rewrite E, length_app. cbn [length]. lia.
    + apply IH in E. rewrite E, length_app. cbn [length]. lia.
    + apply IH in E. rewrite E, length_app. cbn [length]. lia.
    + destruct c as [cx cy].
      apply bind_Ok in E as (r & _ & E).
      apply bind_Ok in E as (p & Hp & E).
      apply circle_loop_length in Hp. apply IH in E.
      rewrite length_seq in Hp. unfold point in *. lia.
    + apply IH in E. rewrite E. lia.
Qed.

(** X14. With a corner radius that is not positive and no circle on the
    edge-cuts layer, the outline is computed without the mathematics
    library and always returns: it is the corners of the edge-cuts
    rectangles and the end points of the edge-cuts segments and arcs, in
    the order of the shapes. *)
Theorem get_board_outline_straight (board : Board) (corner_radius : Z) :
  corner_radius <= 0 ->
  existsb is_edge_circle (get_shapes board) = false ->
  get_board_outline board corner_radius
  = Ok (flat_map straight_outline_points (get_shapes board)).
Proof.
  intros Hr Hc. unfold get_board_outline.
  now rewrite board_outline_loop_straight.
Qed.

(** X15. An outline that is returned has 4 points for each edge-cuts
    rectangle, or 40 when the corner radius is positive (two for each
    side and eight for each corner), 2 for each edge-cuts segment or arc
    and 32 for each edge-cuts circle; shapes of other layers add
    nothing. *)
Theorem get_board_outline_length (board : Board) (corner_radius : Z)
    (pts : list point) :
  get_board_outline board corner_radius = Ok pts ->
  length pts
  = list_sum (map (outline_point_count corner_radius) (get_shapes board)).
Proof.
  intros E. apply board_outline_loop_length in E. exact E.
Qed.

Lemma get_all_copper_layers_nonempty (board : Board) :
  get_all_copper_layers board <> [].
Proof.
  unfold get_all_copper_layers. cbv zeta.
  destruct (filter _ _) as [|l ls]; cbn [is_nil]; discriminate.
Qed.

Lemma used_layers_spec (ts : list Track) :
  forall (acc : gset Z) (l : Z),
    l ∈ foldl (fun acc track =>
                 if layer_truthy (tr_layer track)
                 then acc ∪ {[tr_layer track]} else acc) acc ts ->
    l ∈ acc \/ exists t, t ∈ ts /\ tr_layer t = l /\ l <> 0.
Proof.
  induction ts as [|t rest IH]; intros acc l Hl; [now left|].
  cbn [foldl] in Hl. apply IH in Hl as [Hl|(t' & Ht' & E & Hz)].
  - destruct (layer_truthy (tr_layer t)) eqn:Ht.
    + apply elem_of_union in Hl as [Hl|Hl]; [now left|].
      apply elem_of_singleton in Hl. subst l. right. exists t.
      split_goal; [apply elem_of_cons; now left|reflexivity|].
      unfold layer_truthy in Ht. apply negb_true_iff, Z.eqb_neq in Ht.
      exact Ht.
    + now left.
  - right. exists t'. split_goal; auto. apply elem_of_cons. now right.
Qed.

(** X16. The copper layers of a board are never empty, and each of them
    is the front layer, the back layer or the layer of a track; unless
    the result is the pair of the front and back layers, every layer in
    it has a copper label. *)
Theorem get_all_copper_layers_spec (board : Board) :
  get_all_copper_layers board <> []
  /\ (forall l, l ∈ get_all_copper_layers board ->
        l = BL_F_Cu \/ l = BL_B_Cu
        \/ exists t, t ∈ get_tracks board /\ tr_layer t = l /\ l <> 0)
  /\ (get_all_copper_layers board = [BL_F_Cu; BL_B_Cu]
      \/ Forall (fun l => is_copper_label (layer_label l) = true)
           (get_all_copper_layers board)).
Proof.
  split; [apply get_all_copper_layers_nonempty|].
  unfold get_all_copper_layers. cbv zeta.
  destruct (filter _ _) as [|l0 ls] eqn:Hf; cbn [is_nil].
  - split; [|now left]. intros l Hl.
    apply elem_of_cons in Hl as [->|Hl]; [now left|].
    apply list_elem_of_singleton in Hl. right. now left.
  - rewrite <- Hf. split.
    + intros l Hl. apply list_elem_of_filter in Hl as [_ Hl].
      apply elem_of_elements in Hl.
      apply used_layers_spec in Hl as [Hl|Hl]; [|now right; right].
      apply elem_of_list_to_set in Hl.
      apply elem_of_cons in Hl as [->|Hl]; [now left|].
      apply list_elem_of_singleton in Hl. right. now left.
    + right. apply Forall_forall. intros l Hl.
      apply list_elem_of_filter in Hl as [Hc _].
      now apply Is_true_true in Hc.
Qed.

Lemma get_zone_filled_polygons_nonempty (zone : Zone) :
  Forall (fun pts => pts <> []) (get_zone_filled_polygons zone).
Proof.
  unfold get_zone_filled_polygons. cbv zeta.
  destruct (filter _ _) as [|p ps] eqn:Hf; cbn [is_nil].
  - unfold get_zone_polygon_pts.
    destruct (zone_outline zone); cbn [is_nil]; repeat constructor.
    discriminate.
  - rewrite <- Hf. apply Forall_forall. intros pts Hp.
    apply list_elem_of_filter in Hp as [Hp _].
    destruct pts; [contradiction|discriminate].
Qed.

(** X17. A snapshot of the board that is returned is well formed: one
    entry for each track and each via, in their order; a pad for each
    pad with copper, with half extents that are not negative; a zone
    entry only for a polygon with points; the outline of the board; and
    a set of copper layer names that is not empty. *)
Theorem extract_board_data_well_formed (board : Board) (corner_radius : Z)
    (board_data : BoardData) :
  extract_board_data board corner_radius = Ok board_data ->
  tracks board_data = map extract_track (get_tracks board)
  /\ vias board_data = map extract_via (get_vias board)
  /\ Forall nonneg_extents (pads board_data)
  /\ (length (pads board_data) <= length (get_pads board))%nat
  /\ Forall (fun zone => snd zone <> []) (zone_polygons board_data)
  /\ get_board_outline board corner_radius = Ok (board_outline board_data)
  /\ copper_layers board_data <> ∅.
Proof.
  unfold extract_board_data. cbv zeta. intros E.
  apply bind_Ok in E as (outline & Ho & E). injection E as <-.
  cbn [tracks vias pads zone_polygons board_outline copper_layers].
  split_goal; auto.
  - apply extract_pads_nonneg.
  - induction (get_pads board) as [|pad rest IH]; [reflexivity|].
    cbn [extract_pads]. destruct (is_nil _); cbn [length]; lia.
  - apply Forall_concat, Forall_forall. intros zs Hz.
    apply list_elem_of_fmap in Hz as (zone & -> & _).
    unfold extract_zone. apply Forall_fmap.
    apply (get_zone_filled_polygons_nonempty zone).
  - pose proof (get_all_copper_layers_nonempty board) as Hne.
    destruct (get_all_copper_layers board) as [|l ls]; [contradiction|].
    cbn. intros Hs.
    assert (Hin : layer_label l ∈ ({[layer_label l]} ∪
        list_to_set (map layer_label ls) : gset string)) by set_solver.
    rewrite Hs in Hin. now apply not_elem_of_empty in Hin.
Qed.

End Outline.

Lemma get_board_outline_straight_witness :
  get_board_outline (H:=plain_host) rectangle_board 0
  = Ok (flat_map (straight_outline_points (H:=plain_host))
          (get_shapes rectangle_board)).
Proof.
  apply (get_board_outline_straight (H:=plain_host) rectangle_board 0).
  - lia.
  - reflexivity.
Defined.

Lemma get_board_outline_length_witness :
  get_board_outline (H:=plain_host) rectangle_board 0
  = Ok (rectangle 0 0 10000000 10000000)
  /\ length (rectangle 0 0 10000000 10000000)
     = list_sum (map (outline_point_count (H:=plain_host) 0)
                   (get_shapes rectangle_board)).
Proof.
  split; [vm_compute; reflexivity|].
  apply (get_board_outline_length (H:=plain_host) rectangle_board 0).
  vm_compute. reflexivity.
Defined.

(** ** Tracks, edge distances, samples *)

(** X18. The track loop looks only at the tracks on a checked layer: a
    track on a layer that is no copper layer of the snapshot and whose
    name does not hold UNKNOWN never rejects a candidate, and no
    distance is computed for it. *)
Theorem check_tracks_loop_filter (x y via_radius : Z)
    (target_nets : gset string) (clearance same_net_clearance : Z)
    (layers : gset string) (ts : list TrackData) :
  check_tracks_loop x y via_radius target_nets clearance same_net_clearance
    layers ts
  = check_tracks_loop x y via_radius target_nets clearance same_net_clearance
      layers (List.filter (on_checked_layer layers) ts).
Proof.
  induction ts as [|t rest IH]; [reflexivity|].
  assert (Hn : negb (bool_decide (td_layer_name t ∈ layers))
               && negb (str_in "UNKNOWN" (td_layer_name t))
               = negb (on_checked_layer layers t))
    by (unfold on_checked_layer; now rewrite negb_orb).
  cbn [List.filter check_tracks_loop]. rewrite Hn.
  destruct (on_checked_layer layers t) eqn:Hl; cbn [negb]; [|exact IH].
  cbn [check_tracks_loop]. rewrite Hn. cbn [negb].
  destruct (if td_is_arc t then _ else _) as [[[min_tx max_tx] min_ty] max_ty].
  destruct ((x <? _) || _); [exact IH|].
  destruct ((y <? _) || _); [exact IH|].
  destruct (td_is_arc t).
  - destruct (check_arc_points _ _ _ _); [reflexivity|exact IH].
  - destruct (point_to_segment_distance_sq _ _ _ _ _ _) as [d|e|];
      cbn [mbind res_bind]; try reflexivity.
    destruct (_ <? _); [reflexivity|exact IH].
Qed.

Lemma has_sign_number (s : bool) (f : float) :
  has_sign s f -> is_inf f = false -> is_number f = true.
Proof. destruct f; cbn; intros Hs Hi; try reflexivity; easy. Qed.

Lemma fmul_number (a b : float) :
  is_number a = true -> is_number b = true ->
  exists s, has_sign s (fmul a b).
Proof.
  destruct a as [sa|sa| |sa ma ea], b as [sb|sb| |sb mb eb];
    cbn [is_number]; intros Ha Hb; try discriminate;
    exists (xorb sa sb); try reflexivity.
  unfold fmul, SFmul. apply binary_round_aux_sign. lia.
Qed.

Lemma int_true_divide_outcome (a b : Z) :
  b <> 0 ->
  int_true_divide a b = Raise OverflowError
  \/ exists q, int_true_divide a b = Ok q /\ is_number q = true.
Proof.
  intros Hb. unfold int_true_divide.
  destruct (Z.eqb_spec b 0) as [E|_]; [contradiction|].
  destruct (a =? 0); [right; eexists; split; reflexivity|].
  destruct (is_inf _) eqn:Hinf; [now left|].
  right. eexists. split; [reflexivity|].
  eapply has_sign_number; [apply fdiv_finite_sign|exact Hinf].
Qed.

Lemma float_of_int_outcome (z : Z) :
  float_of_int z = Raise OverflowError
  \/ exists f, float_of_int z = Ok f /\ is_number f = true
               /\ has_sign (z <? 0) f.
Proof.
  destruct (float_of_int z) as [f|e|] eqn:E.
  - right. exists f. pose proof (float_of_int_sign _ _ E) as Hs.
    split_goal; auto. unfold float_of_int in E.
    destruct (is_inf (dyadic z 0)) eqn:Hinf; [discriminate|].
    injection E as <-. eapply has_sign_number; eassumption.
  - left. unfold float_of_int in E. destruct (is_inf _); [|discriminate].
    now injection E as <-.
  - unfold float_of_int in E. destruct (is_inf _); discriminate.
Qed.

(** The product of a clamped ratio and an integer, truncated, is an
    integer or overflows. *)
Lemma scaled_bind {B} (t : num) (dx : Z) (k : Z -> res B) :
  (t = Int 0 \/ t = Int 1 \/ exists q, t = Flt q /\ is_number q = true) ->
  (tx ← py_mul t (Int dx); ix ← py_int tx; k ix) = Raise OverflowError
  \/ exists n, (tx ← py_mul t (Int dx); ix ← py_int tx; k ix) = k n.
Proof.
  intros [->|[->|(q & -> & Hq)]]; [right; eexists; reflexivity..|].
  unfold py_mul. cbn [to_float mbind res_bind].
  destruct (float_of_int_outcome dx) as [E|(b & E & Hb & _)]; rewrite E;
    cbn [mbind res_bind]; [now left|].
  destruct (fmul_number q b Hq Hb) as (s & Hs).
  destruct (fmul q b) as [s'|s'| |s' m e]; cbn [py_int mbind res_bind];
    [right; eexists; reflexivity|now left|contradiction
    |right; eexists; reflexivity].
Qed.

Lemma clamp_cases (q : float) :
  is_number q = true ->
  let t := py_max (Int 0) (py_min (Int 1) (Flt q)) in
  t = Int 0 \/ t = Int 1 \/ exists q', t = Flt q' /\ is_number q' = true.
Proof.
  intros Hq. unfold py_max, py_min. cbv zeta.
  destruct (py_lt (Flt q) (Int 1)).
  - destruct (py_gt (Flt q) (Int 0)); [right; right; eauto|now left].
  - destruct (py_gt (Int 1) (Int 0)); [right; now left|now left].
Qed.

(** The squared distance to a segment is an integer that is not
    negative, or the computation overflows. *)
Lemma point_to_segment_distance_sq_outcome (px py x1 y1 x2 y2 : Z) :
  point_to_segment_distance_sq px py x1 y1 x2 y2 = Raise OverflowError
  \/ exists d, point_to_segment_distance_sq px py x1 y1 x2 y2 = Ok d
               /\ 0 <= d.
Proof.
  unfold point_to_segment_distance_sq. cbv zeta.
  destruct (Z.eqb_spec ((x2 - x1) * (x2 - x1) + (y2 - y1) * (y2 - y1)) 0)
    as [E|Hlen].
  { right. eexists. split; [reflexivity|]. nia. }
  cbn [py_truediv].
  destruct (int_true_divide_outcome
              ((px - x1) * (x2 - x1) + (py - y1) * (y2 - y1)) _ Hlen)
    as [E|(q & E & Hq)]; rewrite E; cbn [fmap res_fmap mbind res_bind];
    [now left|].
  pose proof (clamp_cases q Hq) as Ht. cbv zeta in Ht.
  destruct (scaled_bind _ (x2 - x1)
              (fun ix =>
                 ty ← py_mul (py_max (Int 0) (py_min (Int 1) (Flt q)))
                        (Int (y2 - y1));
                 iy ← py_int ty;
                 Ok ((px - (x1 + ix)) ^ 2 + (py - (y1 + iy)) ^ 2)) Ht)
    as [Ex|(ix & Ex)]; [left; exact Ex|].
  destruct (scaled_bind _ (y2 - y1)
              (fun iy => Ok ((px - (x1 + ix)) ^ 2 + (py - (y1 + iy)) ^ 2)) Ht)
    as [Ey|(iy & Ey)].
  - left. exact (eq_trans Ex Ey).
  - right. eexists. split; [exact (eq_trans Ex Ey)|]. nia.
Qed.

Lemma distance_loop_outcome (x y : Z) (polygon_pts : list point) :
  forall (indices : list nat) (m : num),
    (m = Flt float_inf \/ exists d, m = Int d /\ 0 <= d) ->
    distance_to_polygon_edge_loop x y polygon_pts indices m
    = Raise OverflowError
    \/ exists m',
         distance_to_polygon_edge_loop x y polygon_pts indices m = Ok m'
         /\ ((indices = [] /\ m' = m) \/ exists d, m' = Int d /\ 0 <= d).
Proof.
  induction indices as [|i rest IH]; intros m Hm.
  - right. exists m. split; [reflexivity|now left].
  - cbn [distance_to_polygon_edge_loop].
    destruct (nth i polygon_pts (0, 0)) as [x1 y1].
    destruct (nth _ polygon_pts (0, 0)) as [x2 y2].
    destruct (point_to_segment_distance_sq_outcome x y x1 y1 x2 y2)
      as [E|(d & E & Hd)]; rewrite E; cbn [mbind res_bind]; [now left|].
    assert (Hmin : exists d', py_min m (Int d) = Int d' /\ 0 <= d').
    { destruct Hm as [->|(a & -> & Ha)].
      - exists d. split; [reflexivity|exact Hd].
      - unfold py_min, py_lt. cbn [num_compare].
        destruct (d ?= a); eauto. }
    destruct Hmin as (d' & -> & Hd').
    destruct (IH (Int d') ltac:(right; eauto)) as [E'|(m' & E' & Hm')];
      [now left|].
    right. exists m'. split; [exact E'|]. right.
    destruct Hm' as [[_ ->]|Hm']; eauto.
Qed.

Lemma math_sqrt_outcome (k : Z) :
  0 <= k ->
  math_sqrt (Int k) = Raise OverflowError
  \/ exists f, math_sqrt (Int k) = Ok (Flt f) /\ has_sign false f.
Proof.
  intros Hk. unfold math_sqrt. cbn [to_float].
  destruct (float_of_int_outcome k) as [E|(f & E & _ & Hs)]; rewrite E;
    cbn [mbind res_bind]; [now left|].
  replace (k <? 0) with false in Hs by (symmetry; apply Z.ltb_ge; lia).
  right. exists (fsqrt f). split; [|now apply fsqrt_sign].
  destruct f as [s|s| |s m e]; cbn in Hs; subst; try contradiction;
    reflexivity.
Qed.

(** X19. The distance to the edge of a polygon has two outcomes only:
    it returns a float whose sign bit is clear, so never a negative
    number and never NaN, which is the float infinity for the empty
    polygon; or it raises [OverflowError], when a number met on the way
    is too large for a float.  The square root inside never raises
    [ValueError], and no division raises [ZeroDivisionError]. *)
Theorem distance_to_polygon_edge_nonneg (x y : Z) (polygon_pts : list point) :
  (exists f, distance_to_polygon_edge x y polygon_pts = Ok (Flt f)
             /\ has_sign false f
             /\ (polygon_pts = [] -> f = float_inf))
  \/ distance_to_polygon_edge x y polygon_pts = Raise OverflowError.
Proof.
  unfold distance_to_polygon_edge. destruct polygon_pts as [|p pts].
  - left. exists float_inf. now split_goal.
  - destruct (distance_loop_outcome x y (p :: pts)
                (seq 0 (length (p :: pts))) (Flt float_inf) ltac:(now left))
      as [E|(m & E & Hm)]; rewrite E; cbn [mbind res_bind]; [now right|].
    destruct Hm as [[Hnil _]|(d & -> & Hd)]; [discriminate Hnil|].
    destruct (math_sqrt_outcome d Hd) as [Es|(f & Es & Hf)]; rewrite Es;
      [now right|].
    left. exists f. split_goal; auto. discriminate.
Qed.

Lemma sample_segment_loop_extends (x1 y1 dx dy spacing : Z) (seg_len : num) :
  forall (fuel : nat) (pos : num) (samples out : list point),
    sample_segment_loop fuel x1 y1 dx dy spacing seg_len pos samples = Ok out ->
    exists more, out = samples ++ more.
Proof.
  induction fuel as [|fuel IH]; intros pos samples out E;
    cbn [sample_segment_loop] in E; destruct (py_le pos seg_len);
    try discriminate;
    try (injection E as <-; exists []; now rewrite app_nil_r).
  repeat (apply bind_Ok in E as (? & _ & E)).
  apply IH in E as (more & ->). rewrite <- app_assoc. eauto.
Qed.

Lemma sample_path_loop_extends (fuel : nat) (path : list point)
    (spacing : Z) :
  forall (indices : list nat) (acc : num) (samples out : list point),
    sample_path_loop fuel path spacing indices acc samples = Ok out ->
    exists more, out = samples ++ more.
Proof.
  induction indices as [|i rest IH]; intros acc samples out E.
  - injection E as <-. exists []. now rewrite app_nil_r.
  - cbn [sample_path_loop] in E.
    destruct (pt_at path (i - 1)) as [x1 y1].
    destruct (pt_at path i) as [x2 y2].
    apply bind_Ok in E as (seg_len & _ & E).
    destruct (py_eq seg_len (Int 0)); [now apply IH in E|].
    apply bind_Ok in E as (remaining & _ & E).
    apply bind_Ok in E as (samples' & Hs & E).
    apply bind_Ok in E as (total & _ & E).
    apply bind_Ok in E as (acc' & _ & E).
    apply sample_segment_loop_extends in Hs as (m1 & ->).
    apply IH in E as (m2 & ->). rewrite <- app_assoc. eauto.
Qed.

(** X20. A path of fewer than two points is returned as it is, for
    every spacing and every fuel.  For a longer path, whenever samples
    are returned, they start at the first point of the path and end at
    its last point, whatever the spacing. *)
Theorem sample_path_keeps_ends (fuel : nat) (path : list point)
    (spacing : Z) :
  ((length path < 2)%nat ->
   sample_path_at_intervals fuel path spacing = Ok path)
  /\ (forall samples : list point,
        sample_path_at_intervals fuel path spacing = Ok samples ->
        head samples = head path /\ last samples = last path).
Proof.
  unfold sample_path_at_intervals.
  destruct (Nat.ltb_spec (length path) 2) as [Hlt|Hge].
  - split; [reflexivity|]. intros samples [= <-]. auto.
  - split; [lia|]. intros samples E.
    apply bind_Ok in E as (out & Hout & E).
    apply bind_Ok in E as (s_last & Hs & E).
    apply bind_Ok in E as (p_last & Hp & E).
    apply sample_path_loop_extends in Hout as (more & ->).
    unfold last_pt in Hs, Hp.
    destruct (last path) as [pl|] eqn:Hpl; [|discriminate].
    injection Hp as <-.
    destruct (last ([pt_at path 0] ++ more)) as [sl|] eqn:Hsl; [|discriminate].
    injection Hs as <-.
    assert (Hhead : head ([pt_at path 0] ++ more) = head path).
    { destruct path as [|p0 rest]; [cbn in Hge; lia|reflexivity]. }
    destruct (point_eqb sl pl) eqn:Heq; cbn [negb] in E; injection E as <-.
    + split; [exact Hhead|].
      f_equal. unfold point_eqb in Heq.
      apply andb_true_iff in Heq as [Hx Hy].
      apply Z.eqb_eq in Hx, Hy. destruct sl, pl. cbn in *. congruence.
    + split;
        [|change (last ((pt_at path 0 :: more) ++ [pl]) = Some pl);
          apply last_snoc].
      rewrite <- Hhead. reflexivity.
Qed.

Lemma sample_path_keeps_ends_witness :
  sample_path_at_intervals 0 [(7, 7)] 0 = Ok [(7, 7)]
  /\ sample_path_at_intervals 5 [(0, 0); (10, 0)] 4
     = Ok [(0, 0); (4, 0); (8, 0); (10, 0)]
  /\ head [(0, 0); (4, 0); (8, 0); (10, 0)] = head [(0, 0); (10, 0)]
  /\ last [(0, 0); (4, 0); (8, 0); (10, 0)] = last [(0, 0); (10, 0)].
Proof.
  split.
  { apply (proj1 (sample_path_keeps_ends 0 [(7, 7)] 0)). cbn. lia. }
  split; [vm_compute; reflexivity|].
  apply (proj2 (sample_path_keeps_ends 5 [(0, 0); (10, 0)] 4)).
  vm_compute. reflexivity.
Defined.

(** ** Grids with stagger and random offsets *)

Lemma lattice_row_S (x0 y s : Z) (n : nat) :
  lattice_row x0 y s (S n) = (x0, y) :: lattice_row (x0 + s) y s n.
Proof.
  unfold lattice_row. cbn [seq map]. f_equal.
  - f_equal. cbn. ring.
  - rewrite <- seq_shift, map_map. apply map_ext. intros i. f_equal.
    rewrite Nat2Z.inj_succ. ring.
Qed.

Lemma odd_row (j : nat) : (Z.of_nat j mod 2 =? 1) = Nat.odd j.
Proof.
  assert (E : (Z.of_nat j mod 2 =? 1) = Nat.odd j
              /\ (Z.of_nat (S j) mod 2 =? 1) = Nat.odd (S j)).
  { induction j as [|j [IH1 IH2]]; [split; reflexivity|].
    split; [exact IH2|].
    rewrite Nat.odd_succ, Nat.even_succ, <- IH1.
    replace (Z.of_nat (S (S j))) with (Z.of_nat j + 1 * 2) by lia.
    now rewrite Z.mod_add by lia. }
  apply E.
Qed.

Lemma randint_symmetric (tape : nat -> Z) (cursor : nat) (m : Z) :
  0 <= m ->
  exists o, randint tape cursor (- m) m = Ok (o, S cursor) /\ Z.abs o <= m.
Proof.
  intros Hm. unfold randint.
  destruct (Z.gtb_spec (- m) m) as [Hgt|_]; [lia|].
  eexists. split; [reflexivity|].
  pose proof (Z.mod_pos_bound (tape cursor) (m - - m + 1) ltac:(lia)). lia.
Qed.

Section StaggeredGrid.
Variables (config : StitchingConfig) (tape : nat -> Z).
Variables (max_x max_y s : Z).
Hypothesis s_pos : 0 < s.
Hypothesis jitter_nonneg : 0 <= jitter config.

Lemma grid_columns_loop_near (y : Z) :
  forall (n fuel : nat) (x : Z) (cursor : nat) (positions : list point),
    n = row_count x max_x s -> (n < fuel)%nat ->
    exists new : list point,
      grid_columns_loop fuel config tape max_x s y x cursor positions
      = Ok (positions ++ new, (cursor + draws config * n)%nat)
      /\ Forall2 (near (jitter config)) new (lattice_row x y s n).
Proof.
  unfold row_count.
  induction n as [|n IH]; intros fuel x cursor positions Hn Hfuel;
    (destruct fuel as [|fuel]; [lia|]); cbn [grid_columns_loop];
    destruct (Z.leb_spec x max_x) as [Hle|Hgt].
  - rewrite (steps_next s s_pos _ _ Hle) in Hn. discriminate.
  - exists []. rewrite app_nil_r, Nat.mul_0_r, Nat.add_0_r.
    split; [reflexivity|constructor].
  - rewrite (steps_next s s_pos _ _ Hle) in Hn. injection Hn as Hn.
    rewrite lattice_row_S. unfold jitter, draws in *.
    destruct (random_offset config).
    + destruct (randint_symmetric tape cursor _ jitter_nonneg)
        as (ox & -> & Hox).
      cbn [mbind res_bind].
      destruct (randint_symmetric tape (S cursor) _ jitter_nonneg)
        as (oy & -> & Hoy).
      cbn [mbind res_bind].
      destruct (IH fuel (x + s) (S (S cursor)) (positions ++ [(x + ox, y + oy)])
                  Hn ltac:(lia)) as (new & E & Hnew).
      exists ((x + ox, y + oy) :: new). split.
      * refine (eq_trans E _). rewrite <- app_assoc. cbn [app].
        do 2 f_equal. lia.
      * constructor; [|exact Hnew]. split; cbn [fst snd]; lia.
    + cbn [mbind res_bind].
      destruct (IH fuel (x + s) cursor (positions ++ [(x, y)]) Hn ltac:(lia))
        as (new & E & Hnew).
      exists ((x, y) :: new). split.
      * refine (eq_trans E _). rewrite <- app_assoc. cbn [app].
        do 2 f_equal.
      * constructor; [|exact Hnew]. split; cbn [fst snd]; lia.
  - rewrite (steps_past s s_pos _ _ Hgt) in Hn. discriminate.
Qed.

Lemma row_count_shift (x0 off : Z) :
  0 <= off -> (row_count (x0 + off) max_x s <= row_count x0 max_x s)%nat.
Proof.
  intros Hoff. unfold row_count.
  assert ((max_x - (x0 + off)) / s <= (max_x - x0) / s)
    by (apply Z.div_le_mono; lia).
  lia.
Qed.

Lemma staggered_lattice_S (start_x y : Z) (j m : nat) :
  staggered_lattice config start_x y s max_x j (S m)
  = lattice_row (row_start config start_x s j) y s
      (row_count (row_start config start_x s j) max_x s)
    ++ staggered_lattice config start_x (y + s) s max_x (S j) m.
Proof.
  unfold staggered_lattice. cbn [seq flat_map].
  rewrite Nat.add_0_r. f_equal.
  - f_equal. cbn. ring.
  - rewrite <- seq_shift, flat_map_shift. apply flat_map_ext. intros k.
    rewrite Nat.add_succ_r. cbn [Nat.add]. f_equal.
    rewrite Nat2Z.inj_succ. ring.
Qed.

Lemma grid_rows_loop_near (start_x : Z) (fuel0 : nat) :
  (row_count start_x max_x s < fuel0)%nat ->
  forall (m fuel : nat) (y : Z) (j cursor : nat) (positions : list point),
    m = row_count y max_y s -> (m < fuel)%nat ->
    exists new : list point,
      grid_rows_loop fuel fuel0 config tape max_x max_y s start_x y
        (Z.of_nat j) cursor positions
      = Ok (positions ++ new, (cursor + draws config * length new)%nat)
      /\ Forall2 (near (jitter config)) new
           (staggered_lattice config start_x y s max_x j m).
Proof.
  intros Hcols. unfold row_count in *.
  induction m as [|m IH]; intros fuel y j cursor positions Hm Hfuel;
    (destruct fuel as [|fuel]; [lia|]); cbn [grid_rows_loop];
    destruct (Z.leb_spec y max_y) as [Hle|Hgt].
  - rewrite (steps_next s s_pos _ _ Hle) in Hm. discriminate.
  - exists []. rewrite app_nil_r. cbn [length].
    rewrite Nat.mul_0_r, Nat.add_0_r. split; [reflexivity|constructor].
  - rewrite (steps_next s s_pos _ _ Hle) in Hm. injection Hm as Hm.
    rewrite staggered_lattice_S, odd_row.
    fold (row_start config start_x s j).
    assert (Hoff : 0 <= (if stagger_rows config && Nat.odd j
                         then s / 2 else 0)).
    { destruct (_ && _); [apply Z.div_pos; lia|lia]. }
    pose proof (row_count_shift start_x _ Hoff) as Hshift.
    fold (row_start config start_x s j) in Hshift.
    destruct (grid_columns_loop_near y _ fuel0 (row_start config start_x s j)
                cursor positions eq_refl ltac:(unfold row_count in *; lia))
      as (row & -> & Hrow).
    cbn [mbind res_bind].
    replace (Z.of_nat j + 1) with (Z.of_nat (S j)) by lia.
    destruct (IH fuel (y + s) (S j)
                (cursor + draws config
                          * row_count (row_start config start_x s j) max_x s)%nat
                (positions ++ row) Hm ltac:(lia))
      as (new & E & Hnew).
    exists (row ++ new). split.
    + refine (eq_trans E _). rewrite <- app_assoc. do 2 f_equal.
      apply Forall2_length in Hrow. unfold lattice_row in Hrow.
      rewrite length_map, length_seq in Hrow.
      rewrite length_app, Hrow. lia.
    + now apply Forall2_app.
  - rewrite (steps_past s s_pos _ _ Hgt) in Hm. discriminate.
Qed.

End StaggeredGrid.

(** X21. With a positive spacing [s] and, when random offsets are on, a
    bound on them that is not negative, the grid generator, given fuel
    for its loops, returns one position for each point of the lattice,
    in the order of the lattice, each within the bound of its lattice
    point along both axes (and equal to it when the offsets are off).
    The lattice has a row for each multiple of [s] between the bounds
    of the box; with staggered rows every other row starts half a
    spacing further.  The generator takes two random draws for each
    position, and none when the offsets are off. *)
Theorem grid_positions_staggered (fuel : nat) (tape : nat -> Z)
    (cursor : nat) (min_x min_y max_x max_y : Z) (config : StitchingConfig) :
  let s := grid_spacing_nm config in
  let rows := axis_count min_y max_y s in
  let lattice :=
    staggered_lattice config (cdiv min_x s * s) (cdiv min_y s * s) s max_x
      0 rows in
  0 < s -> 0 <= jitter config ->
  (axis_count min_x max_x s < fuel)%nat -> (rows < fuel)%nat ->
  exists positions : list point,
    generate_grid_positions fuel tape cursor min_x min_y max_x max_y config
    = Ok (positions, (cursor + draws config * length positions)%nat)
    /\ Forall2 (near (jitter config)) positions lattice
    /\ (random_offset config = false -> positions = lattice).
Proof.
  intros s rows lattice Hs Hj Hfx Hfy.
  unfold generate_grid_positions, py_floordiv. fold s.
  destruct (Z.eqb_spec s 0) as [E|_]; [lia|].
  cbn [mbind res_bind]. fold (cdiv min_x s) (cdiv min_y s).
  destruct (grid_rows_loop_near config tape max_x max_y s Hs Hj
              (cdiv min_x s * s) fuel
              ltac:(unfold row_count; rewrite steps_from_snap by exact Hs;
                    exact Hfx)
              rows fuel (cdiv min_y s * s) 0%nat cursor []
              ltac:(unfold row_count; now rewrite steps_from_snap by exact Hs)
              Hfy) as (positions & E & Hnear).
  exists positions. split; [exact E|]. split; [exact Hnear|].
  intros Hoff. unfold jitter in Hnear. rewrite Hoff in Hnear.
  subst lattice. clear E. revert Hnear. generalize (staggered_lattice config
    (cdiv min_x s * s) (cdiv min_y s * s) s max_x 0 rows).
  intros l Hnear. induction Hnear as [|p q ps qs [Hx Hy] _ IH]; [reflexivity|].
  rewrite IH. f_equal. destruct p, q. cbn [fst snd] in *. f_equal; lia.
Qed.

Lemma grid_positions_staggered_witness :
  exists positions : list point,
    generate_grid_positions 9 counting_tape 0 0 0 10 10
      (staggered_config 4 1)
    = Ok (positions, (0 + draws (staggered_config 4 1) * length positions)%nat)
    /\ Forall2 (near (jitter (staggered_config 4 1))) positions
         (staggered_lattice (staggered_config 4 1) (cdiv 0 4 * 4)
            (cdiv 0 4 * 4) 4 10 0 (axis_count 0 10 4))
    /\ (random_offset (staggered_config 4 1) = false ->
        positions
        = staggered_lattice (staggered_config 4 1) (cdiv 0 4 * 4)
            (cdiv 0 4 * 4) 4 10 0 (axis_count 0 10 4)).
Proof.
  apply (grid_positions_staggered 9 counting_tape 0 0 0 10 10
           (staggered_config 4 1));
    first [reflexivity | vm_compute; lia | cbn; lia].
Defined.

Lemma grid_columns_loop_diverges (config : StitchingConfig) (tape : nat -> Z)
    (max_x s y : Z) :
  s <= 0 -> 0 <= jitter config ->
  forall (fuel : nat) (x : Z) (cursor : nat) (positions : list point),
    x <= max_x ->
    grid_columns_loop fuel config tape max_x s y x cursor positions
    = OutOfFuel.
Proof.
  intros Hs Hj.
  induction fuel as [|fuel IH]; intros x cursor positions Hx;
    cbn [grid_columns_loop];
    (destruct (Z.leb_spec x max_x) as [_|Hgt]; [|lia]); [reflexivity|].
  unfold jitter in Hj. destruct (random_offset config).
  - destruct (randint_symmetric tape cursor _ Hj) as (ox & -> & _).
    cbn [mbind res_bind].
    destruct (randint_symmetric tape (S cursor) _ Hj) as (oy & -> & _).
    cbn [mbind res_bind]. apply IH. lia.
  - cbn [mbind res_bind]. apply IH. lia.
Qed.

(** With random offsets on and a negative bound the first draw raises. *)
Lemma grid_columns_loop_bad_bound (config : StitchingConfig)
    (tape : nat -> Z) (max_x s y : Z) (fuel : nat) (x : Z) (cursor : nat)
    (positions : list point) :
  random_offset config = true -> random_offset_max_nm config < 0 ->
  x <= max_x ->
  grid_columns_loop (S fuel) config tape max_x s y x cursor positions
  = Raise ValueError.
Proof.
  intros Hon Hneg Hx. cbn [grid_columns_loop].
  destruct (Z.leb_spec x max_x) as [_|Hgt]; [|lia].
  rewrite Hon. unfold randint.
  destruct (Z.gtb_spec (- random_offset_max_nm config)
              (random_offset_max_nm config)) as [_|Hle]; [|lia].
  reflexivity.
Qed.

(** X22. Without a positive spacing the grid generator yields nothing
    on a box that is not empty.  A spacing of zero raises
    [ZeroDivisionError].  A negative spacing starts below the box and
    steps away from its upper bound: when random offsets are on with a
    negative bound, the first draw raises [ValueError] (as soon as there
    is fuel for one step); otherwise the inner loop never ends, whatever
    the fuel. *)
Theorem grid_without_positive_spacing (fuel : nat) (tape : nat -> Z)
    (cursor : nat) (min_x min_y max_x max_y : Z) (config : StitchingConfig) :
  grid_spacing_nm config <= 0 -> min_x <= max_x -> min_y <= max_y ->
  generate_grid_positions fuel tape cursor min_x min_y max_x max_y config
  = if grid_spacing_nm config =? 0 then Raise ZeroDivisionError
    else if random_offset config && (random_offset_max_nm config <? 0)
    then match fuel with O => OutOfFuel | S _ => Raise ValueError end
    else OutOfFuel.
Proof.
  intros Hs Hx Hy. unfold generate_grid_positions, py_floordiv.
  set (s := grid_spacing_nm config) in *.
  destruct (Z.eqb_spec s 0) as [E|Hne]; [reflexivity|].
  cbn [mbind res_bind].
  assert (Hsnap : forall lo, (lo + s - 1) / s * s < lo).
  { intros lo. pose proof (Z.div_mod (lo + s - 1) s Hne).
    pose proof (Z.mod_neg_bound (lo + s - 1) s ltac:(lia)). lia. }
  pose proof (Hsnap min_x). pose proof (Hsnap min_y).
  destruct fuel as [|fuel]; cbn [grid_rows_loop];
    (destruct (Z.leb_spec ((min_y + s - 1) / s * s) max_y) as [_|Hgt];
     [|lia]).
  { now destruct (random_offset config && _). }
  rewrite andb_false_r, Z.add_0_r.
  destruct (random_offset config) eqn:Hon; cbn [andb].
  - destruct (Z.ltb_spec (random_offset_max_nm config) 0) as [Hneg|Hpos].
    + rewrite grid_columns_loop_bad_bound by (assumption || lia).
      reflexivity.
    + rewrite grid_columns_loop_diverges
        by (lia || (unfold jitter; rewrite Hon; lia)).
      reflexivity.
  - rewrite grid_columns_loop_diverges
      by (lia || (unfold jitter; rewrite Hon; lia)).
    reflexivity.
Qed.

Lemma grid_without_positive_spacing_witness :
  generate_grid_positions 7 zero_tape 0 0 0 10 10 (plain_grid_config (-3))
  = OutOfFuel
  /\ generate_grid_positions 7 zero_tape 0 0 0 10 10 (staggered_config (-3) (-1))
     = Raise ValueError.
Proof.
  split.
  - apply (grid_without_positive_spacing 7 zero_tape 0 0 0 10 10
             (plain_grid_config (-3))); cbn; lia.
  - apply (grid_without_positive_spacing 7 zero_tape 0 0 0 10 10
             (staggered_config (-3) (-1))); cbn; lia.
Defined.

(** ** Perimeter fence without a positive spacing *)

Lemma py_int_nonpositive (q : float) (n : Z) :
  has_sign true q -> py_int (Flt q) = Ok n -> n <= 0.
Proof.
  destruct q as [s|s| |s m e]; cbn; intros Hs E; subst;
    try contradiction; try discriminate; injection E as <-; [lia|].
  destruct (0 <=? e).
  - assert (0 <= 2 ^ e) by (apply Z.pow_nonneg; lia). nia.
  - assert (0 <= Z.shiftr (Z.pos m) (- e)) by (apply Z.shiftr_nonneg; lia).
    lia.
Qed.

Lemma float_of_int_finite (z : Z) (f : float) :
  float_of_int z = Ok f -> is_inf f = false.
Proof.
  unfold float_of_int. destruct (is_inf (dyadic z 0)) eqn:E; [discriminate|].
  now intros [= <-].
Qed.

Lemma fence_polygon_loop_nonpositive (polygon_pts : list point)
    (spacing_nm : Z) :
  spacing_nm <= 0 ->
  forall (indices : list nat) (positions out : list point),
    fence_polygon_loop polygon_pts spacing_nm indices positions = Ok out ->
    out = positions /\ (indices <> [] -> spacing_nm < 0).
Proof.
  intros Hs.
  induction indices as [|i rest IH]; intros positions out E.
  - injection E as <-. split; [reflexivity|congruence].
  - cbn [fence_polygon_loop] in E.
    destruct (nth i polygon_pts (0, 0)) as [x1 y1].
    destruct (nth _ polygon_pts (0, 0)) as [x2 y2].
    apply bind_Ok in E as (len & Hlen & E).
    apply math_sqrt_sign in Hlen as (f & -> & Hf);
      [|pose proof (Z.square_nonneg (x2 - x1));
        pose proof (Z.square_nonneg (y2 - y1)); lia].
    rewrite (nonneg_float_not_below f spacing_nm Hf Hs) in E.
    apply bind_Ok in E as (q & Hq & E).
    apply bind_Ok in E as (num_vias & Hn & E).
    apply bind_Ok in E as (positions' & Hp & E).
    unfold py_truediv in Hq. cbn [to_float mbind res_bind] in Hq.
    apply bind_Ok in Hq as (b & Hb & Hq).
    destruct (is_zero b) eqn:Hz; [discriminate|]. injection Hq as <-.
    assert (Hneg : spacing_nm < 0).
    { destruct (Z.eq_dec spacing_nm 0) as [E0|]; [|lia].
      rewrite E0 in Hb. vm_compute in Hb. injection Hb as <-.
      discriminate Hz. }
    pose proof (float_of_int_finite _ _ Hb) as Hfin.
    apply float_of_int_sign in Hb.
    replace (spacing_nm <? 0) with true in Hb
      by (symmetry; apply Z.ltb_lt; exact Hneg).
    pose proof (fdiv_sign false true f b Hf Hb Hz (or_introl Hfin)) as Hsign.
    apply (py_int_nonpositive _ _ Hsign) in Hn.
    replace (Z.to_nat num_vias) with 0%nat in Hp by lia.
    cbn in Hp. injection Hp as <-.
    apply IH in E as [-> _]. split; [reflexivity|]. intros _. exact Hneg.
Qed.

(** X23. Without a positive spacing the perimeter fence of a polygon of
    two points or more yields no position: a spacing of zero never
    returns (the division by the spacing raises), and with a negative
    spacing a result that is returned is the empty list. *)
Theorem fence_without_positive_spacing (polygon_pts : list point)
    (spacing_nm : Z) (positions : list point) :
  spacing_nm <= 0 -> (2 <= length polygon_pts)%nat ->
  generate_fence_positions polygon_pts spacing_nm = Ok positions ->
  positions = [] /\ spacing_nm < 0.
Proof.
  intros Hs Hlen. unfold generate_fence_positions.
  destruct (Nat.ltb_spec (length polygon_pts) 2) as [Hlt|_]; [lia|].
  intros E. apply fence_polygon_loop_nonpositive in E as [-> Hneg];
    [|exact Hs].
  split; [reflexivity|]. apply Hneg.
  destruct polygon_pts; [cbn in Hlen; lia|discriminate].
Qed.

Lemma fence_without_positive_spacing_witness :
  generate_fence_positions [(0, 0); (10, 0)] (-5) = Ok []
  /\ ([] = ([] : list point) /\ -5 < 0).
Proof.
  split; [vm_compute; reflexivity|].
  apply (fence_without_positive_spacing [(0, 0); (10, 0)] (-5) []).
  - lia.
  - cbn. lia.
  - vm_compute. reflexivity.
Defined.

(** ** Points of the chained polylines *)

Lemma length_removelast_nonempty {A} (l : list A) :
  l <> [] -> length (removelast l) = (length l - 1)%nat.
Proof.
  intros Hne. destruct (exists_last Hne) as (l' & a & ->).
  rewrite removelast_last, length_app. cbn. lia.
Qed.

Lemma length_tail_nonempty {A} (l : list A) :
  length (tail l) = (length l - 1)%nat.
Proof. destruct l; cbn; lia. Qed.

Lemma lookup_sum_seq {A} (f : A -> nat) (l : list A) :
  sum_list_with (fun j => from_option f 0%nat (l !! j)) (seq 0 (length l))
  = sum_list_with f l.
Proof.
  induction l as [|a l IH]; [reflexivity|].
  cbn [length seq sum_list_with]. rewrite <- IH, <- seq_shift.
  change (from_option f 0%nat ((a :: l) !! 0%nat)) with (f a). f_equal.
  clear IH. induction (seq 0 (length l)) as [|k ks IHk]; [reflexivity|].
  cbn [map sum_list_with]. rewrite IHk. reflexivity.
Qed.

Section ChainedPoints.
Variable segments : list (list point).
Hypothesis segments_two : Forall (fun seg => (2 <= length seg)%nat) segments.

Local Abbreviation spare_at :=
  (fun j => from_option spare_points 0%nat (segments !! j)).

Lemma segment_two (j : nat) (seg : list point) :
  segments !! j = Some seg -> (2 <= length seg)%nat.
Proof.
  intros Hj. pose proof segments_two as Hall.
  rewrite Forall_forall in Hall. apply Hall.
  eapply list_elem_of_lookup_2. exact Hj.
Qed.

Lemma built_from_length (members : list nat) (path : list point) :
  built_from segments members path ->
  length path = S (sum_list_with spare_at members) /\ members <> [].
Proof.
  induction 1 as [i seg Hi|j other ms path o p Hj Hn Hb [IH _] Ho Hp Hc
                  |j other ms path o p Hj Hn Hb [IH _] Ho Hp Hc
                  |j other ms path o p Hj Hn Hb [IH _] Ho Hp Hc
                  |j other ms path o p Hj Hn Hb [IH _] Ho Hp Hc];
    (split; [|discriminate]); cbn [sum_list_with];
    pose proof (segment_two _ _ ltac:(eassumption)) as Htwo.
  - rewrite Hi. cbn [from_option]. unfold spare_points in *. lia.
  - rewrite Hj. cbn [from_option]. unfold spare_points in *.
    rewrite length_app, length_removelast_nonempty, IH;
      [lia|intros ->; cbn in Htwo; lia].
  - rewrite Hj. cbn [from_option]. unfold spare_points in *.
    rewrite length_app, length_rev, length_tail_nonempty, IH. lia.
  - rewrite Hj. cbn [from_option]. unfold spare_points in *.
    rewrite length_app, length_tail_nonempty, IH. lia.
  - rewrite Hj. cbn [from_option]. unfold spare_points in *.
    rewrite length_app, length_rev, length_removelast_nonempty, IH;
      [lia|intros ->; cbn in Htwo; lia].
Qed.

Lemma built_paths_length (members : list (list nat))
    (paths : list (list point)) :
  Forall2 (built_from segments) members paths ->
  length (concat paths)
  = (length paths + sum_list_with spare_at (concat members))%nat
  /\ Forall (fun path => (2 <= length path)%nat) paths
  /\ (length paths <= length (concat members))%nat.
Proof.
  induction 1 as [|ms path mss paths Hb _ (IH & Htwo & Hle)].
  - split_goal; [reflexivity|constructor|reflexivity].
  - pose proof Hb as Hb'. apply built_from_length in Hb' as [Hlen Hne].
    cbn [concat length]. rewrite !length_app, sum_list_with_app, IH, Hlen.
    split_goal; [lia| |destruct ms; [contradiction|cbn; lia]].
    constructor; [|exact Htwo].
    destruct ms as [|j ms']; [contradiction|].
    inversion Hb as [i seg Hi|j' other ms0 path0 o p Hj
                     |j' other ms0 path0 o p Hj
                     |j' other ms0 path0 o p Hj
                     |j' other ms0 path0 o p Hj]; subst;
      cbn [sum_list_with] in Hlen;
      pose proof (segment_two _ _ ltac:(eassumption)) as Hseg.
    + exact Hseg.
    + rewrite Hj in Hlen. cbn [from_option] in Hlen.
      unfold spare_points in Hlen. lia.
    + rewrite Hj in Hlen. cbn [from_option] in Hlen.
      unfold spare_points in Hlen. lia.
    + rewrite Hj in Hlen. cbn [from_option] in Hlen.
      unfold spare_points in Hlen. lia.
    + rewrite Hj in Hlen. cbn [from_option] in Hlen.
      unfold spare_points in Hlen. lia.
Qed.

End ChainedPoints.

Section ChainedTracks.
Context `{Host}.

Lemma track_segment_two (fuel : nat) (track : Track) (seg : list point) :
  track_segment fuel track = Ok seg -> (2 <= length seg)%nat.
Proof.
  unfold track_segment. cbv zeta.
  destruct (is_arc track); [|intros [= <-]; cbn; lia].
  destruct (arc_center track) as [center|]; [|intros [= <-]; cbn; lia].
  destruct (py_gt _ _); [|intros [= <-]; cbn; lia].
  intros E.
  repeat (apply bind_Ok in E as (? & _ & E)).
  apply arc_samples_loop_length in E.
  rewrite length_seq in E. cbn [length] in E. lia.
Qed.

Lemma track_segments_two (fuel : nat) :
  forall (ts : list Track) (segments : list (list point)),
    track_segments fuel ts = Ok segments ->
    Forall (fun seg => (2 <= length seg)%nat) segments.
Proof.
  induction ts as [|t rest IH]; intros segments E.
  - injection E as <-. constructor.
  - cbn [track_segments] in E.
    apply bind_Ok in E as (seg & Hseg & E).
    apply bind_Ok in E as (segs & Hsegs & E).
    injection E as <-. constructor; [|now apply IH].
    eapply track_segment_two. exact Hseg.
Qed.

(** X24. Chaining keeps every point but the shared ones: when the
    tracks yield their segment point lists and the chainer has fuel for
    one more pass than there are tracks, it returns at most as many
    polylines as there are tracks, each of two points or more, and the
    points of the polylines are one for each polyline plus, for each
    segment, its points but one. *)
Theorem chained_paths_points (fuel : nat) (tracks : list Track)
    (segments : list (list point)) :
  track_segments fuel tracks = Ok segments ->
  (length tracks < fuel)%nat ->
  exists paths : list (list point),
    chain_tracks_into_paths fuel tracks = Ok paths
    /\ (length paths <= length tracks)%nat
    /\ Forall (fun path => (2 <= length path)%nat) paths
    /\ length (concat paths)
       = (length paths + sum_list_with spare_points segments)%nat.
Proof.
  intros Hsegs Hfuel.
  destruct (track_segments_spec _ _ _ Hsegs) as [Hlen Hne].
  pose proof (track_segments_two _ _ _ Hsegs) as Htwo.
  unfold chain_tracks_into_paths. rewrite Hsegs. cbn [mbind res_bind].
  destruct tracks as [|t rest].
  - injection Hsegs as <-. exists []. cbn. split_goal; auto.
  - cbn [is_nil].
    destruct (chain_segments_partition segments Hne fuel ltac:(lia))
      as (paths & members & E & Hall & Hperm).
    exists paths. split; [exact E|].
    destruct (built_paths_length segments Htwo members paths Hall)
      as (Hcount & Hpaths & Hle).
    rewrite Hperm in Hcount. rewrite lookup_sum_seq in Hcount.
    apply Permutation_length in Hperm. rewrite length_seq in Hperm.
    split_goal; [lia|exact Hpaths|exact Hcount].
Qed.

End ChainedTracks.

Lemma chained_paths_points_witness :
  exists paths : list (list point),
    chain_tracks_into_paths (H:=plain_host) 4 three_tracks = Ok paths
    /\ (length paths <= length three_tracks)%nat
    /\ Forall (fun path => (2 <= length path)%nat) paths
    /\ length (concat paths)
       = (length paths
          + sum_list_with spare_points
              (map (fun t => [tr_start t; tr_end t]) three_tracks))%nat.
Proof.
  apply (chained_paths_points (H:=plain_host) 4 three_tracks).
  - reflexivity.
  - cbn. lia.
Defined.

(** ** Fewer obstacles *)

Lemma check_pads_loop_sublist (x y via_radius : Z) (target_nets : gset string)
    (clearance : Z) (less more : list PadData) :
  sublist less more ->
  check_pads_loop x y via_radius target_nets clearance more = false ->
  check_pads_loop x y via_radius target_nets clearance less = false.
Proof.
  induction 1 as [|pad l1 l2 _ IH|pad l1 l2 _ IH]; [auto| |];
    cbn [check_pads_loop]; destruct ((Z.abs _ >? _) || _); auto;
    destruct ((Z.abs _ <? _) && _); auto; discriminate.
Qed.

Lemma check_vias_loop_sublist (x y via_radius : Z) (target_nets : gset string)
    (clearance same_net_clearance : Z) (less more : list ViaData) :
  sublist less more ->
  check_vias_loop x y via_radius target_nets clearance same_net_clearance more
  = false ->
  check_vias_loop x y via_radius target_nets clearance same_net_clearance less
  = false.
Proof.
  induction 1 as [|via l1 l2 _ IH|via l1 l2 _ IH]; [auto| |];
    cbn [check_vias_loop]; destruct ((Z.abs _ >? _) || _); auto;
    destruct (_ <? _); auto; discriminate.
Qed.

Lemma check_tracks_loop_sublist (x y via_radius : Z)
    (target_nets : gset string) (clearance same_net_clearance : Z)
    (layers : gset string) (less more : list TrackData) :
  sublist less more ->
  check_tracks_loop x y via_radius target_nets clearance same_net_clearance
    layers more = Ok None ->
  check_tracks_loop x y via_radius target_nets clearance same_net_clearance
    layers less = Ok None.
Proof.
  induction 1 as [|t l1 l2 _ IH|t l1 l2 _ IH]; [auto| |];
    cbn [check_tracks_loop];
    (destruct (negb _ && negb _); [exact IH|]);
    destruct (if td_is_arc t then _ else _) as [[[min_tx max_tx] min_ty] max_ty];
    (destruct ((x <? _) || _); [exact IH|]);
    (destruct ((y <? _) || _); [exact IH|]);
    (destruct (td_is_arc t);
     [destruct (check_arc_points _ _ _ _); [discriminate|exact IH]|]);
    (destruct (point_to_segment_distance_sq _ _ _ _ _ _) as [d|e|];
     cbn [mbind res_bind]; try discriminate);
    (destruct (_ <? _); [discriminate|exact IH]).
Qed.

Lemma check_rule_areas_loop_sublist (x y via_radius : Z)
    (less more : list (string * list point)) :
  sublist less more ->
  check_rule_areas_loop x y via_radius more = Ok false ->
  check_rule_areas_loop x y via_radius less = Ok false.
Proof.
  induction 1 as [|[zone_net zone_poly] l1 l2 _ IH
                  |[zone_net zone_poly] l1 l2 _ IH]; [auto| |];
    cbn [check_rule_areas_loop];
    (destruct (negb _); [exact IH|]);
    (destruct (is_nil zone_poly || _); [exact IH|]);
    (destruct (point_in_polygon x y zone_poly); [discriminate|]);
    (destruct (distance_to_polygon_edge x y zone_poly) as [d|e|];
     cbn [mbind res_bind]; try discriminate);
    (destruct (py_lt d (Int via_radius)); [discriminate|exact IH]).
Qed.

(** X26. Taking obstacles away never turns an accepted candidate into
    a rejected one: a candidate that is accepted on a snapshot is
    accepted on every snapshot with the same outline and copper layers
    whose tracks, pads, vias and zone entries are among those of the
    first. *)
Theorem accepted_with_fewer_obstacles (x y via_radius : Z)
    (target_nets : gset string)
    (clearance same_net_clearance boundary_clearance : Z)
    (less more : BoardData) (is_fence_mode : bool)
    (polygon_pts : option (list point)) :
  fewer_obstacles less more ->
  check_position_parallel x y via_radius target_nets clearance
    same_net_clearance boundary_clearance more is_fence_mode polygon_pts
  = Ok (accepted_at x y) ->
  check_position_parallel x y via_radius target_nets clearance
    same_net_clearance boundary_clearance less is_fence_mode polygon_pts
  = Ok (accepted_at x y).
Proof.
  intros (Ht & Hp & Hv & Hz & Ho & Hc).
  unfold check_position_parallel, check_after_board. cbv zeta.
  rewrite Ho, Hc.
  destruct (negb _ && negb _); [discriminate|].
  destruct (if negb (is_nil (board_outline more)) then _ else _)
    as [[|]| |]; cbn [mbind res_bind]; try discriminate.
  destruct (if negb is_fence_mode && _ then _ else _)
    as [[|]| |]; cbn [mbind res_bind]; try discriminate.
  destruct (check_pads_loop _ _ _ _ _ (pads more)) eqn:Epads;
    [discriminate|].
  rewrite (check_pads_loop_sublist _ _ _ _ _ _ _ Hp Epads).
  destruct (check_vias_loop _ _ _ _ _ _ (vias more)) eqn:Evias;
    [discriminate|].
  rewrite (check_vias_loop_sublist _ _ _ _ _ _ _ _ Hv Evias).
  destruct (check_tracks_loop _ _ _ _ _ _ _ (tracks more))
    as [[reason|]| |] eqn:Etracks; cbn [mbind res_bind]; try discriminate.
  rewrite (check_tracks_loop_sublist _ _ _ _ _ _ _ _ _ Ht Etracks).
  cbn [mbind res_bind].
  destruct (check_rule_areas_loop _ _ _ (zone_polygons more))
    as [[|]| |] eqn:Erule; cbn [mbind res_bind]; try discriminate.
  rewrite (check_rule_areas_loop_sublist _ _ _ _ _ Hz Erule).
  reflexivity.
Qed.

Lemma accepted_with_fewer_obstacles_witness :
  fewer_obstacles bare_board (with_vias bare_board [small_via])
  /\ check_position_parallel 800000 0 300000 gnd 200000 127000 300000
       bare_board false None
     = Ok (accepted_at 800000 0).
Proof.
  assert (Hfewer : fewer_obstacles bare_board
                     (with_vias bare_board [small_via]))
    by (unfold fewer_obstacles; cbn;
        split_goal; try reflexivity; try constructor; constructor).
  split; [exact Hfewer|].
  apply (accepted_with_fewer_obstacles 800000 0 300000 gnd 200000 127000
           300000 bare_board (with_vias bare_board [small_via]) false None).
  - exact Hfewer.
  - vm_compute. reflexivity.
Defined.

Lemma extract_board_data_well_formed_witness :
  extract_board_data (H:=plain_host) rectangle_board 0 = Ok rectangle_snapshot
  /\ (tracks rectangle_snapshot
      = map (extract_track (H:=plain_host)) (get_tracks rectangle_board)
      /\ vias rectangle_snapshot = map extract_via (get_vias rectangle_board)
      /\ Forall nonneg_extents (pads rectangle_snapshot)
      /\ (length (pads rectangle_snapshot)
          <= length (get_pads rectangle_board))%nat
      /\ Forall (fun zone => snd zone <> []) (zone_polygons rectangle_snapshot)
      /\ get_board_outline (H:=plain_host) rectangle_board 0
         = Ok (board_outline rectangle_snapshot)
      /\ copper_layers rectangle_snapshot <> ∅).
Proof.
  split; [vm_compute; reflexivity|].
  apply (extract_board_data_well_formed (H:=plain_host) rectangle_board 0).
  vm_compute. reflexivity.
Defined.

(** ** The selection switch *)

Section SelectedOnly.
Variables (config : StitchingConfig) (b : bool).

Local Abbreviation config' := (with_selected_only config b).

Lemma grid_columns_loop_selected (tape : nat -> Z) (max_x spacing y : Z) :
  forall (fuel : nat) (x : Z) (cursor : nat) (positions : list point),
    grid_columns_loop fuel config' tape max_x spacing y x cursor positions
    = grid_columns_loop fuel config tape max_x spacing y x cursor positions.
Proof.
  induction fuel as [|fuel IH]; intros x cursor positions;
    cbn [grid_columns_loop]; [reflexivity|].
  destruct (x <=? max_x); [|reflexivity].
  cbn [with_selected_only random_offset random_offset_max_nm].
  destruct (if random_offset config then _ else _) as [[final c]| |];
    cbn [mbind res_bind]; auto.
Qed.

Lemma grid_rows_loop_selected (tape : nat -> Z) (max_x max_y spacing : Z)
    (start_x : Z) (fuel0 : nat) :
  forall (fuel : nat) (y row : Z) (cursor : nat) (positions : list point),
    grid_rows_loop fuel fuel0 config' tape max_x max_y spacing start_x y row
      cursor positions
    = grid_rows_loop fuel fuel0 config tape max_x max_y spacing start_x y row
        cursor positions.
Proof.
  induction fuel as [|fuel IH]; intros y row cursor positions;
    cbn [grid_rows_loop]; [reflexivity|].
  destruct (y <=? max_y); [|reflexivity].
  cbn [with_selected_only stagger_rows].
  rewrite grid_columns_loop_selected.
  destruct (grid_columns_loop _ _ _ _ _ _ _ _ _) as [[ps c]| |];
    cbn [mbind res_bind]; auto.
Qed.

Lemma generate_grid_positions_selected (fuel : nat) (tape : nat -> Z)
    (cursor : nat) (min_x min_y max_x max_y : Z) :
  generate_grid_positions fuel tape cursor min_x min_y max_x max_y config'
  = generate_grid_positions fuel tape cursor min_x min_y max_x max_y config.
Proof.
  unfold generate_grid_positions.
  cbn [with_selected_only grid_spacing_nm].
  destruct (py_floordiv _ _) as [qx| |]; cbn [mbind res_bind]; auto.
  destruct (py_floordiv _ _) as [qy| |]; cbn [mbind res_bind]; auto.
  apply grid_rows_loop_selected.
Qed.

Lemma process_results_selected (net : Net) :
  forall (check_results : list verdict) (result : StitchingResult),
    process_results check_results net config' result
    = process_results check_results net config result.
Proof.
  induction check_results as [|[[[x y] is_valid] reason] rest IH];
    intros result; [reflexivity|].
  cbn [process_results]. destruct is_valid.
  - rewrite IH. reflexivity.
  - destruct (bump_reason _ _) as [reasons| |]; cbn [mbind res_bind]; auto.
Qed.

Section Loops.
Context `{Host}.

Lemma polygons_loop_selected (fuel : nat) (tape : nat -> Z)
    (target_nets : gset string) (via_radius same_net_clearance : Z)
    (board_data : BoardData) (is_fence_mode : bool) (target_net : Net) :
  forall (polygons : list (list point)) (result : StitchingResult)
         (cursor : nat),
    polygons_loop fuel tape config' target_nets via_radius same_net_clearance
      board_data is_fence_mode target_net polygons result cursor
    = polygons_loop fuel tape config target_nets via_radius same_net_clearance
        board_data is_fence_mode target_net polygons result cursor.
Proof.
  induction polygons as [|polygon_pts rest IH]; intros result cursor;
    [reflexivity|].
  cbn [polygons_loop]. destruct (is_nil polygon_pts); [apply IH|].
  cbn [with_selected_only mode fence_spacing_nm clearance_nm
       boundary_clearance_nm].
  rewrite generate_grid_positions_selected.
  destruct (match mode config with FILL => _ | _ => _ end)
    as [[grid_positions c]| |]; cbn [mbind res_bind]; auto.
  destruct (is_nil grid_positions); [apply IH|].
  destruct (check_positions_batch _ _ _ _ _ _ _ _ _) as [check_results| |];
    cbn [mbind res_bind]; auto.
  rewrite process_results_selected.
  destruct (process_results _ _ _ _) as [result2| |]; cbn [mbind res_bind];
    auto.
Qed.

Lemma zones_loop_selected (fuel : nat) (tape : nat -> Z)
    (target_nets : gset string) (net_objects : gmap string Net)
    (via_radius same_net_clearance : Z) (board_data : BoardData)
    (is_fence_mode : bool) :
  forall (target_zones : list Zone) (result : StitchingResult)
         (cursor : nat),
    zones_loop fuel tape config' target_nets net_objects via_radius
      same_net_clearance board_data is_fence_mode target_zones result cursor
    = zones_loop fuel tape config target_nets net_objects via_radius
        same_net_clearance board_data is_fence_mode target_zones result
        cursor.
Proof.
  induction target_zones as [|zone rest IH]; intros result cursor;
    [reflexivity|].
  cbn [zones_loop].
  destruct (net_objects !! _) as [target_net|]; [|apply IH].
  rewrite polygons_loop_selected.
  destruct (polygons_loop _ _ _ _ _ _ _ _ _ _ _ _) as [[result' c]| |];
    cbn [mbind res_bind]; auto.
Qed.

(** X27. The switch [selected_only] is read only when a selection of
    zones is given: with no selection, or an empty one, the run is the
    run on all the zones of the board, in every mode. *)
Theorem selected_only_without_selection (fuel : nat) (tape : nat -> Z)
    (cursor : nat) (board : Board) (selected_zones : option (list Zone))
    (selected_tracks : option (list Track)) :
  default [] selected_zones = [] ->
  generate_via_stitching fuel tape cursor board config' selected_zones
    selected_tracks
  = generate_via_stitching fuel tape cursor board config selected_zones
      selected_tracks.
Proof.
  intros Hsel. unfold generate_via_stitching, generate_trace_fencing.
  rewrite Hsel. cbn [is_nil negb]. rewrite !andb_false_r.
  cbn [with_selected_only mode]. unfold target_net_set.
  cbn [with_selected_only net_names via_diameter_nm board_corner_radius_nm
       fence_spacing_nm fence_offset_nm fence_both_sides clearance_nm
       boundary_clearance_nm].
  destruct (mode config); cbv zeta;
    try (destruct (dict_is_empty _); [reflexivity|];
         destruct (is_nil (filter _ _)); [reflexivity|];
         destruct (extract_board_data _ _) as [board_data| |];
         cbn [mbind res_bind]; try reflexivity;
         now rewrite zones_loop_selected).
  destruct (dict_is_empty _); [reflexivity|].
  destruct (match net_names config with [] => None | _ => _ end)
    as [fence_net|]; [|reflexivity].
  destruct (is_nil (default [] selected_tracks)); [reflexivity|].
  destruct (extract_board_data _ _) as [board_data| |];
    cbn [mbind res_bind]; try reflexivity.
  destruct (generate_path_fence_positions _ _ _ _ _) as [all_positions| |];
    cbn [mbind res_bind]; try reflexivity.
  destruct (check_positions_batch _ _ _ _ _ _ _ _ _) as [check_results| |];
    cbn [mbind res_bind]; try reflexivity.
  apply process_results_selected.
Qed.

End Loops.

End SelectedOnly.

Lemma selected_only_without_selection_witness :
  generate_via_stitching (H:=plain_host) 20 zero_tape 0 square_board
    (with_selected_only fill_config true) (Some []) None
  = generate_via_stitching (H:=plain_host) 20 zero_tape 0 square_board
      fill_config (Some []) None.
Proof.
  apply (selected_only_without_selection fill_config true (H:=plain_host) 20
           zero_tape 0 square_board (Some []) None).
  reflexivity.
Defined.

(** ** Where the vias of a run come from *)

Lemma process_results_vias (net : Net) (config : StitchingConfig) :
  forall (check_results : list verdict) (result result' : StitchingResult),
    process_results check_results net config result = Ok result' ->
    result_vias result'
    = result_vias result
      ++ map (fun v => new_via (fst (fst (fst v))) (snd (fst (fst v))) net
                         config)
             (List.filter is_accepted check_results)
    /\ valid result'
       = valid result
         + Z.of_nat (length (List.filter is_accepted check_results))
    /\ rejected result'
       = rejected result
         + Z.of_nat (length (List.filter (fun v => negb (is_accepted v))
                               check_results)).
Proof.
  induction check_results as [|[[[x y] is_valid] reason] rest IH];
    intros result result' E.
  - injection E as <-. cbn. rewrite app_nil_r. split_goal; lia || reflexivity.
  - cbn [process_results] in E. cbn [List.filter is_accepted fst snd].
    destruct is_valid; cbn [negb].
    + apply IH in E as (Hv & Hn & Hr).
      cbn [result_vias valid rejected] in Hv, Hn, Hr.
      rewrite Hv, Hn, Hr, <- app_assoc. cbn [map length fst snd app].
      split_goal; [reflexivity|lia|reflexivity].
    + apply bind_Ok in E as (reasons & _ & E).
      apply IH in E as (Hv & Hn & Hr).
      cbn [result_vias valid rejected] in Hv, Hn, Hr.
      rewrite Hv, Hn, Hr. cbn [length].
      split_goal; [reflexivity|reflexivity|lia].
Qed.

(** X28. The result loop adds one via for each accepted verdict, at the
    coordinates of the verdict and in the order of the verdicts, after
    the vias already in the result; it adds the number of accepted
    verdicts to [valid] and the number of the others to [rejected]. *)
Theorem result_loop_appends_accepted (net : Net) (config : StitchingConfig)
    (check_results : list verdict) (result result' : StitchingResult) :
  process_results check_results net config result = Ok result' ->
  result_vias result'
  = result_vias result
    ++ map (fun v => new_via (fst (fst (fst v))) (snd (fst (fst v))) net
                       config)
           (List.filter is_accepted check_results)
  /\ valid result'
     = valid result
       + Z.of_nat (length (List.filter is_accepted check_results))
  /\ rejected result'
     = rejected result
       + Z.of_nat (length (List.filter (fun v => negb (is_accepted v))
                             check_results)).
Proof. apply process_results_vias. Qed.

Lemma result_loop_appends_accepted_witness :
  result_vias (returned (process_results two_verdicts gnd_net fill_config
                           empty_result))
  = result_vias empty_result
    ++ map (fun v => new_via (fst (fst (fst v))) (snd (fst (fst v))) gnd_net
                       fill_config)
           (List.filter is_accepted two_verdicts)
  /\ valid (returned (process_results two_verdicts gnd_net fill_config
                        empty_result))
     = valid empty_result
       + Z.of_nat (length (List.filter is_accepted two_verdicts))
  /\ rejected (returned (process_results two_verdicts gnd_net fill_config
                           empty_result))
     = rejected empty_result
       + Z.of_nat (length (List.filter (fun v => negb (is_accepted v))
                             two_verdicts)).
Proof.
  apply (result_loop_appends_accepted gnd_net fill_config two_verdicts
           empty_result).
  vm_compute. reflexivity.
Defined.

Lemma check_positions_loop_accepted (via_radius : Z)
    (target_nets : gset string)
    (clearance same_net_clearance boundary_clearance : Z)
    (board_data : BoardData) (is_fence_mode : bool)
    (polygon_pts : option (list point)) :
  forall (positions : list point) (results : list verdict),
    check_positions_loop positions via_radius target_nets clearance
      same_net_clearance boundary_clearance board_data is_fence_mode
      polygon_pts = Ok results ->
    forall (x y : Z) (reason : string),
      (x, y, true, reason) ∈ results ->
      (x, y) ∈ positions
      /\ check_position_parallel x y via_radius target_nets clearance
           same_net_clearance boundary_clearance board_data is_fence_mode
           polygon_pts = Ok (accepted_at x y).
Proof.
  intros positions results E x y reason Hin.
  apply check_positions_loop_verdicts in E.
  induction E as [|p v ps vs [Hv Hcheck] _ IH].
  - now apply elem_of_nil in Hin.
  - apply elem_of_cons in Hin as [<-|Hin].
    + destruct Hv as [Hv|(r & _ & Hv)]; [|discriminate Hv].
      injection Hv as Hx Hy Hr. destruct p as [px py]. cbn [fst snd] in *.
      subst px py reason. split; [apply elem_of_cons; now left|].
      exact Hcheck.
    + destruct (IH Hin) as [Hpos Hacc]. split; [|exact Hacc].
      apply elem_of_cons. now right.
Qed.

Lemma process_results_accepted (Q : Via -> Prop) (net : Net)
    (config : StitchingConfig) :
  forall (check_results : list verdict) (result result' : StitchingResult),
    process_results check_results net config result = Ok result' ->
    (forall x y reason,
        (x, y, true, reason) ∈ check_results -> Q (new_via x y net config)) ->
    Forall Q (result_vias result) -> Forall Q (result_vias result').
Proof.
  induction check_results as [|[[[x y] is_valid] reason] rest IH];
    intros result result' E Hnew Hall.
  - now injection E as <-.
  - cbn [process_results] in E.
    assert (Hrest : forall x0 y0 reason0,
               (x0, y0, true, reason0) ∈ rest -> Q (new_via x0 y0 net config))
      by (intros; eapply Hnew; apply elem_of_cons; right; eassumption).
    destruct is_valid.
    + apply IH in E; [exact E|exact Hrest|]. cbn [result_vias].
      apply Forall_app. split; [exact Hall|].
      constructor; [|constructor]. eapply Hnew. apply elem_of_cons. now left.
    + apply bind_Ok in E as (reasons & _ & E).
      apply IH in E; [exact E|exact Hrest|exact Hall].
Qed.

Section Placed.
Context `{Host}.
Variables (fuel : nat) (tape : nat -> Z) (config : StitchingConfig).
Variable board_data : BoardData.

Lemma polygons_loop_placed (Q : Via -> Prop) (target_net : Net) :
  forall (polygons : list (list point)),
    (forall polygon_pts x y,
        polygon_pts ∈ polygons ->
        validated board_data config (is_fence_zone (mode config))
          (Some polygon_pts) (new_via x y target_net config) ->
        (mode config = FILL -> point_in_polygon x y polygon_pts = true) ->
        Q (new_via x y target_net config)) ->
    forall (result : StitchingResult) (cursor : nat)
           (result' : StitchingResult) (cursor' : nat),
      polygons_loop fuel tape config (target_net_set config)
        (via_diameter_nm config / 2) from_mm_0_127 board_data
        (is_fence_zone (mode config)) target_net polygons result cursor
      = Ok (result', cursor') ->
      Forall Q (result_vias result) -> Forall Q (result_vias result').
Proof.
  induction polygons as [|polygon_pts rest IH];
    intros Hnew result cursor result' cursor' E Hall.
  - now injection E as <- <-.
  - assert (Hrest : forall p x y,
               p ∈ rest ->
               validated board_data config (is_fence_zone (mode config))
                 (Some p) (new_via x y target_net config) ->
               (mode config = FILL -> point_in_polygon x y p = true) ->
               Q (new_via x y target_net config))
      by (intros p x y Hp; apply Hnew; apply elem_of_cons; now right).
    cbn [polygons_loop] in E.
    destruct (is_nil polygon_pts); [now apply (IH Hrest) in E|].
    apply bind_Ok in E as ([grid_positions c] & Hgrid & E).
    destruct (is_nil grid_positions).
    + apply (IH Hrest) in E; exact E || exact Hall.
    + apply bind_Ok in E as (check_results & Hcheck & E).
      apply bind_Ok in E as (result2 & Hp & E).
      apply (IH Hrest) in E; [exact E|].
      eapply process_results_accepted in Hp; [exact Hp| |exact Hall].
      intros x y reason Hin.
      destruct (check_positions_loop_accepted _ _ _ _ _ _ _ _ _ _ Hcheck
                  x y reason Hin) as [Hpos Hacc].
      apply (Hnew polygon_pts); [apply elem_of_cons; now left|exact Hacc|].
      intros Hfill. rewrite Hfill in Hgrid.
      apply bind_Ok in Hgrid as ([grid c0] & _ & Hgrid).
      injection Hgrid as <- _.
      apply list_elem_of_filter in Hpos as [Hin' _].
      now apply Is_true_true in Hin'.
Qed.

Lemma zones_loop_placed (net_objects : gmap string Net) (zones : list Zone) :
  (forall k n, net_objects !! k = Some n -> net_name n = k) ->
  forall (target_zones : list Zone),
    (forall zone, zone ∈ target_zones -> zone ∈ zones) ->
    forall (result : StitchingResult) (cursor : nat)
           (result' : StitchingResult) (cursor' : nat),
      zones_loop fuel tape config (target_net_set config) net_objects
        (via_diameter_nm config / 2) from_mm_0_127 board_data
        (is_fence_zone (mode config)) target_zones result cursor
      = Ok (result', cursor') ->
      Forall (placed_in_zone board_data config zones) (result_vias result) ->
      Forall (placed_in_zone board_data config zones) (result_vias result').
Proof.
  intros Hnames.
  induction target_zones as [|zone rest IH];
    intros Hsub result cursor result' cursor' E Hall.
  - now injection E as <- <-.
  - assert (Hrest : forall z, z ∈ rest -> z ∈ zones)
      by (intros z Hz; apply Hsub; apply elem_of_cons; now right).
    cbn [zones_loop] in E.
    destruct (net_objects !! net_name_of (zone_net zone))
      as [target_net|] eqn:Hl; [|now apply (IH Hrest) in E].
    apply bind_Ok in E as ([result1 c1] & Hp & E).
    apply (IH Hrest) in E; [exact E|].
    eapply polygons_loop_placed in Hp; [exact Hp| |exact Hall].
    intros polygon_pts x y Hpoly Hval Hin.
    exists zone, polygon_pts. split_goal; auto.
    + apply Hsub. apply elem_of_cons. now left.
    + cbn. now apply Hnames.
Qed.

End Placed.

Section Validated.
Context `{Host}.

(** X29. Every via that a run returns was accepted by the validator on
    the snapshot of the board.  In trace mode it was validated as a
    fence via against no polygon.  In a zone mode it was placed for a
    filled polygon of one of the considered zones on a target net: it is
    on the net of that zone, it was validated against that polygon, and
    in fill mode it lies inside the polygon. *)
Theorem run_vias_validated (fuel : nat) (tape : nat -> Z) (cursor : nat)
    (board : Board) (config : StitchingConfig)
    (selected_zones : option (list Zone))
    (selected_tracks : option (list Track)) (result : StitchingResult)
    (via : Via) :
  generate_via_stitching fuel tape cursor board config selected_zones
    selected_tracks = Ok result ->
  via ∈ result_vias result ->
  exists board_data : BoardData,
    extract_board_data board (board_corner_radius_nm config) = Ok board_data
    /\ (mode config = FENCE_TRACE ->
        validated board_data config true None via)
    /\ (mode config <> FENCE_TRACE ->
        placed_in_zone board_data config
          (filter (zone_matches (target_net_set config))
             (considered_zones board config selected_zones))
          via).
Proof.
  unfold generate_via_stitching, considered_zones. intros E Hin.
  destruct (mode config) eqn:Hmode.
  3: { unfold generate_trace_fencing in E. cbv zeta in E.
       destruct (dict_is_empty _);
         [injection E as <-; now apply elem_of_nil in Hin|].
       destruct (match net_names config with [] => None | _ => _ end)
         as [fence_net|];
         [|injection E as <-; now apply elem_of_nil in Hin].
       destruct (is_nil (default [] selected_tracks));
         [injection E as <-; now apply elem_of_nil in Hin|].
       apply bind_Ok in E as (board_data & Hdata & E).
       apply bind_Ok in E as (all_positions & _ & E).
       apply bind_Ok in E as (check_results & Hcheck & E).
       exists board_data. split; [exact Hdata|].
       split; [intros _|congruence].
       eapply (process_results_accepted
                 (validated board_data config true None)) in E.
       - rewrite Forall_forall in E. exact (E via Hin).
       - intros x y reason Hv.
         exact (proj2 (check_positions_loop_accepted _ _ _ _ _ _ _ _ _ _
                         Hcheck x y reason Hv)).
       - constructor. }
  all: cbv zeta in E;
    (destruct (dict_is_empty _);
     [injection E as <-; now apply elem_of_nil in Hin|]);
    (destruct (is_nil (if selected_only config && _ then _ else _));
     [injection E as <-; now apply elem_of_nil in Hin|]);
    apply bind_Ok in E as (board_data & Hdata & E);
    apply bind_Ok in E as ([result' c] & Hloop & E);
    injection E as <-;
    exists board_data; (split; [exact Hdata|]);
    (split; [congruence|intros _]);
    rewrite <- Hmode in Hloop;
    (eapply zones_loop_placed in Hloop;
     [rewrite Forall_forall in Hloop; apply (Hloop via Hin)
     |intros k n Hl; now apply find_net_objects_lookup in Hl
     | |constructor]);
    intros zone Hz; destruct (selected_only config && _); exact Hz.
Qed.

End Validated.

Lemma run_vias_validated_witness :
  exists board_data : BoardData,
    extract_board_data (H:=plain_host) square_board
      (board_corner_radius_nm fill_config) = Ok board_data
    /\ (mode fill_config = FENCE_TRACE ->
        validated board_data fill_config true None
          (new_via 2000000 2000000 gnd_net fill_config))
    /\ (mode fill_config <> FENCE_TRACE ->
        placed_in_zone board_data fill_config
          (filter (zone_matches (target_net_set fill_config))
             (considered_zones square_board fill_config None))
          (new_via 2000000 2000000 gnd_net fill_config)).
Proof.
  apply (run_vias_validated (H:=plain_host) 20 zero_tape 0 square_board
           fill_config None None (returned fill_run)).
  - vm_compute. reflexivity.
  - apply list_elem_of_In. vm_compute. auto.
Defined.

(** ** Runs and the random state *)

Section RandomState.
Variable config : StitchingConfig.

Local Abbreviation kept cursor := (fun l : list point => (l, cursor)).

Lemma grid_columns_loop_no_draw (max_x s y : Z) :
  random_offset config = false ->
  forall (fuel : nat) (x : Z) (positions : list point),
  exists r : res (list point),
  forall (tape : nat -> Z) (cursor : nat),
    grid_columns_loop fuel config tape max_x s y x cursor positions
    = kept cursor <$> r.
Proof.
  intros Hoff.
  induction fuel as [|fuel IH]; intros x positions; cbn [grid_columns_loop];
    destruct (x <=? max_x).
  - now exists OutOfFuel.
  - now exists (Ok positions).
  - rewrite Hoff. cbn [mbind res_bind]. apply IH.
  - now exists (Ok positions).
Qed.

Lemma grid_rows_loop_no_draw (max_x max_y s start_x : Z) (fuel0 : nat) :
  random_offset config = false ->
  forall (fuel : nat) (y row : Z) (positions : list point),
  exists r : res (list point),
  forall (tape : nat -> Z) (cursor : nat),
    grid_rows_loop fuel fuel0 config tape max_x max_y s start_x y row cursor
      positions
    = kept cursor <$> r.
Proof.
  intros Hoff.
  induction fuel as [|fuel IH]; intros y row positions; cbn [grid_rows_loop];
    destruct (y <=? max_y).
  - now exists OutOfFuel.
  - now exists (Ok positions).
  - destruct (grid_columns_loop_no_draw max_x s y Hoff fuel0
                (start_x + (if stagger_rows config && (row mod 2 =? 1)
                            then s / 2 else 0)) positions) as [[l|e|] Hcol].
    + destruct (IH (y + s) (row + 1) l) as [r Hr]. exists r.
      intros tape cursor. rewrite Hcol. cbn [fmap res_fmap mbind res_bind].
      apply Hr.
    + exists (Raise e). intros tape cursor. now rewrite Hcol.
    + exists OutOfFuel. intros tape cursor. now rewrite Hcol.
  - now exists (Ok positions).
Qed.

Lemma generate_grid_positions_no_draw (fuel : nat)
    (min_x min_y max_x max_y : Z) :
  random_offset config = false ->
  exists r : res (list point),
  forall (tape : nat -> Z) (cursor : nat),
    generate_grid_positions fuel tape cursor min_x min_y max_x max_y config
    = kept cursor <$> r.
Proof.
  intros Hoff. unfold generate_grid_positions.
  destruct (py_floordiv (min_x + _ - 1) _) as [qx|e|]; cbn [mbind res_bind];
    [|now exists (Raise e)|now exists OutOfFuel].
  destruct (py_floordiv (min_y + _ - 1) _) as [qy|e|]; cbn [mbind res_bind];
    [|now exists (Raise e)|now exists OutOfFuel].
  now apply grid_rows_loop_no_draw.
Qed.

Section Loops.
Context `{Host}.

Lemma polygons_loop_no_draw (fuel : nat) (target_nets : gset string)
    (via_radius same_net_clearance : Z) (board_data : BoardData)
    (is_fence_mode : bool) (target_net : Net) :
  random_offset config = false \/ mode config <> FILL ->
  forall (polygons : list (list point)) (result : StitchingResult),
  exists r : res StitchingResult,
  forall (tape : nat -> Z) (cursor : nat),
    polygons_loop fuel tape config target_nets via_radius same_net_clearance
      board_data is_fence_mode target_net polygons result cursor
    = (fun x => (x, cursor)) <$> r.
Proof.
  intros Hcase.
  induction polygons as [|polygon_pts rest IH]; intros result.
  - now exists (Ok result).
  - cbn [polygons_loop]. destruct (is_nil polygon_pts); [apply IH|].
    assert (Hgen : exists g : res (list point),
               forall (tape : nat -> Z) (cursor : nat),
                 match mode config with
                 | FILL =>
                     '(grid, c) ←
                       generate_grid_positions fuel tape cursor
                         (list_min (map fst polygon_pts))
                         (list_min (map snd polygon_pts))
                         (list_max (map fst polygon_pts))
                         (list_max (map snd polygon_pts)) config;
                     Ok (filter (fun p => point_in_polygon (fst p) (snd p)
                                            polygon_pts) grid, c)
                 | _ =>
                     fence ← generate_fence_positions polygon_pts
                               (fence_spacing_nm config);
                     Ok (fence, cursor)
                 end = kept cursor <$> g).
    { destruct (mode config) eqn:Hmode.
      - destruct Hcase as [Hoff|Hne]; [|contradiction].
        destruct (generate_grid_positions_no_draw fuel
                    (list_min (map fst polygon_pts))
                    (list_min (map snd polygon_pts))
                    (list_max (map fst polygon_pts))
                    (list_max (map snd polygon_pts)) Hoff) as [[l|e|] Hg].
        + eexists (Ok _). intros tape cursor. rewrite Hg. reflexivity.
        + exists (Raise e). intros tape cursor. now rewrite Hg.
        + exists OutOfFuel. intros tape cursor. now rewrite Hg.
      - exists (generate_fence_positions polygon_pts (fence_spacing_nm config)).
        intros tape cursor. now destruct (generate_fence_positions _ _).
      - exists (generate_fence_positions polygon_pts (fence_spacing_nm config)).
        intros tape cursor. now destruct (generate_fence_positions _ _). }
    destruct Hgen as [[grid_positions|e|] Hgen].
    + destruct (is_nil grid_positions) eqn:Hnil.
      * destruct (IH {| zones_found := zones_found result;
                        tracks_found := tracks_found result;
                        candidates :=
                          candidates result
                          + Z.of_nat (length grid_positions);
                        valid := valid result; rejected := rejected result;
                        rejected_reasons := rejected_reasons result;
                        result_vias := result_vias result |}) as [r Hr].
        exists r. intros tape cursor. rewrite Hgen.
        cbn [fmap res_fmap mbind res_bind]. rewrite Hnil. apply Hr.
      * destruct (check_positions_batch grid_positions via_radius target_nets
                    (clearance_nm config) same_net_clearance
                    (boundary_clearance_nm config) board_data is_fence_mode
                    (Some polygon_pts)) as [check_results|e|] eqn:Hcheck.
        -- destruct (process_results check_results target_net config
                       {| zones_found := zones_found result;
                          tracks_found := tracks_found result;
                          candidates :=
                            candidates result
                            + Z.of_nat (length grid_positions);
                          valid := valid result; rejected := rejected result;
                          rejected_reasons := rejected_reasons result;
                          result_vias := result_vias result |})
             as [result2|e|] eqn:Hproc.
           ++ destruct (IH result2) as [r Hr]. exists r.
              intros tape cursor. rewrite Hgen.
              cbn [fmap res_fmap mbind res_bind].
              rewrite Hnil, Hcheck. cbn [mbind res_bind].
              rewrite Hproc. cbn [mbind res_bind]. apply Hr.
           ++ exists (Raise e). intros tape cursor. rewrite Hgen.
              cbn [fmap res_fmap mbind res_bind].
              rewrite Hnil, Hcheck. cbn [mbind res_bind].
              now rewrite Hproc.
           ++ exists OutOfFuel. intros tape cursor. rewrite Hgen.
              cbn [fmap res_fmap mbind res_bind].
              rewrite Hnil, Hcheck. cbn [mbind res_bind].
              now rewrite Hproc.
        -- exists (Raise e). intros tape cursor. rewrite Hgen.
           cbn [fmap res_fmap mbind res_bind]. now rewrite Hnil, Hcheck.
        -- exists OutOfFuel. intros tape cursor. rewrite Hgen.
           cbn [fmap res_fmap mbind res_bind]. now rewrite Hnil, Hcheck.
    + exists (Raise e). intros tape cursor. now rewrite Hgen.
    + exists OutOfFuel. intros tape cursor. now rewrite Hgen.
Qed.

Lemma zones_loop_no_draw (fuel : nat) (target_nets : gset string)
    (net_objects : gmap string Net)
    (via_radius same_net_clearance : Z) (board_data : BoardData)
    (is_fence_mode : bool) :
  random_offset config = false \/ mode config <> FILL ->
  forall (target_zones : list Zone) (result : StitchingResult),
  exists r : res StitchingResult,
  forall (tape : nat -> Z) (cursor : nat),
    zones_loop fuel tape config target_nets net_objects via_radius
      same_net_clearance board_data is_fence_mode target_zones result cursor
    = (fun x => (x, cursor)) <$> r.
Proof.
  intros Hcase.
  induction target_zones as [|zone rest IH]; intros result.
  - now exists (Ok result).
  - cbn [zones_loop].
    destruct (net_objects !! net_name_of (zone_net zone)) as [target_net|];
      [|apply IH].
    destruct (polygons_loop_no_draw fuel target_nets via_radius
                same_net_clearance board_data is_fence_mode target_net Hcase
                (get_zone_filled_polygons zone) result) as [[result1|e|] Hp].
    + destruct (IH result1) as [r Hr]. exists r. intros tape cursor.
      rewrite Hp. cbn [fmap res_fmap mbind res_bind]. apply Hr.
    + exists (Raise e). intros tape cursor. now rewrite Hp.
    + exists OutOfFuel. intros tape cursor. now rewrite Hp.
Qed.

(** X30. A run reads the random state only to offset the positions of a
    grid: unless the mode is the fill mode with random offsets on, the
    outcome of a run (its result, or the exception it raises) is the
    same for every random tape and every position on it.  Validation
    and the result loop draw no random number. *)
Theorem run_ignores_random_state (fuel : nat) (tape1 tape2 : nat -> Z)
    (cursor1 cursor2 : nat) (board : Board)
    (selected_zones : option (list Zone))
    (selected_tracks : option (list Track)) :
  random_offset config = false \/ mode config <> FILL ->
  generate_via_stitching fuel tape1 cursor1 board config selected_zones
    selected_tracks
  = generate_via_stitching fuel tape2 cursor2 board config selected_zones
      selected_tracks.
Proof.
  intros Hcase. unfold generate_via_stitching.
  assert (Hz : forall net_objects board_data target_zones result,
             exists x : res StitchingResult,
             forall (tape : nat -> Z) (cursor : nat),
               zones_loop fuel tape config (target_net_set config) net_objects
                 (via_diameter_nm config / 2) from_mm_0_127 board_data
                 (is_fence_zone (mode config)) target_zones result cursor
               = (fun r => (r, cursor)) <$> x)
    by (intros; now apply zones_loop_no_draw).
  clear Hcase.
  destruct (mode config); [| |reflexivity]; cbv zeta;
    (destruct (dict_is_empty _); [reflexivity|]);
    (destruct (is_nil (if selected_only config && _ then _ else _));
     [reflexivity|]);
    (destruct (extract_board_data _ _) as [board_data| |];
     cbn [mbind res_bind]; try reflexivity);
    match goal with
    | |- context [zones_loop _ _ _ _ ?n _ _ ?b _ ?z ?res _] =>
        destruct (Hz n b z res) as [x Hx]
    end;
    rewrite !Hx; now destruct x.
Qed.

End Loops.

End RandomState.

Lemma run_ignores_random_state_witness :
  generate_via_stitching (H:=plain_host) 20 zero_tape 0 square_board
    fill_config None None
  = generate_via_stitching (H:=plain_host) 20 counting_tape 5 square_board
      fill_config None None.
Proof.
  apply (run_ignores_random_state fill_config (H:=plain_host) 20 zero_tape
           counting_tape 0 5 square_board None None).
  left. reflexivity.
Defined.
